(** * Supa Shots: the batch generation orchestrator

    A shallow embedding of the orchestration code of the Supa Shots
    application (a React front end driving the Gemini image API):

    - [constants.ts]: the style catalogs, the shot definitions and
      [getShotDefinition];
    - [services/geminiService.ts]: [analyzeProduct],
      [mapToGeminiAspectRatio], [generateShot] (the retry loop), [editShot];
    - [services/historyService.ts]: the IndexedDB project store;
    - [App.tsx]: the handlers that create a batch, merge settled tasks into
      it, edit one shot and save a project.

    Asynchronous code is modelled by explicit state passing: an effectful
    function takes the environment (the answers of the outside world) and
    the current world and gives back an outcome (a value or a thrown error)
    and the next world.  The React state is a record; a state updater
    [setX(prev => ...)] is a function on that record. *)

From Stdlib Require Import ZArith QArith.
From Equations Require Import Equations.
From stdpp Require Import gmap strings list fin_maps pretty sorting.

Local Open Scope Z_scope.
#[local] Set Warnings "-clear-no-such-hyp".

(** ** JavaScript helpers *)

(** [Array.prototype.includes] on a list whose elements have decidable
    equality. *)
Definition Array_includes {A} `{EqDecision A} (l : list A) (x : A) : bool :=
  existsb (λ y, bool_decide (y = x)) l.

(** [String.prototype.includes]: [needle] occurs somewhere in [hay]. *)
Fixpoint String_includes (needle hay : string) : bool :=
  String.prefix needle hay ||
  match hay with
  | EmptyString => false
  | String _ rest => String_includes needle rest
  end.

(** Truthiness of a string that may be [undefined] or [null]: the empty
    string is falsy. *)
Definition truthy_string (s : option string) : bool :=
  match s with
  | Some (String _ _) => true
  | _ => false
  end.

(** [a || b] on such strings. *)
Definition or_default (s : option string) (d : string) : string :=
  match s with
  | Some (String c r) => String c r
  | _ => d
  end.

(** [s.replace(/pat/g, '')] for a literal, non-empty pattern: every
    occurrence found scanning from the left is dropped.  [skip] counts the
    characters of the current occurrence still to drop. *)
Fixpoint String_remove_go (pat : string) (skip : nat) (s : string) : string :=
  match s with
  | EmptyString => EmptyString
  | String c rest =>
      match skip with
      | S k => String_remove_go pat k rest
      | O =>
          if String.prefix pat s
          then String_remove_go pat (String.length pat - 1) rest
          else String c (String_remove_go pat 0 rest)
      end
  end.

Definition String_remove_all (pat s : string) : string :=
  String_remove_go pat 0 s.

(** The part of [s] before the first comma, and what follows that comma. *)
Fixpoint split_comma (s : string) : string * option string :=
  match s with
  | EmptyString => (EmptyString, None)
  | String c rest =>
      if Ascii.eqb c (Ascii.ascii_of_nat 44) then (EmptyString, Some rest)
      else let '(h, t) := split_comma rest in (String c h, t)
  end.

(** ** types.ts: the enumerations

    The file that declares them is not part of the sources at hand; the
    members are the ones the other files name. *)

Inductive SubjectType := UNKNOWN | PRODUCT | HUMAN | MIXED.

#[global] Instance SubjectType_eq_dec : EqDecision SubjectType.
Proof. solve_decision. Defined.

Module ProductStyle.
Inductive t :=
  | HERO | MACRO | LIQUID | SCULPTURAL | FLOATING | SENSORY | COLOR
  | INGREDIENT | SURREAL
  | MCU | MS | OS | WS | HA | LA | P | ThreeQ | B.

Definition all : list t :=
  [HERO; MACRO; LIQUID; SCULPTURAL; FLOATING; SENSORY; COLOR; INGREDIENT;
   SURREAL; MCU; MS; OS; WS; HA; LA; P; ThreeQ; B].

Definition index (s : t) : nat :=
  match s with
  | HERO => 0 | MACRO => 1 | LIQUID => 2 | SCULPTURAL => 3 | FLOATING => 4
  | SENSORY => 5 | COLOR => 6 | INGREDIENT => 7 | SURREAL => 8
  | MCU => 9 | MS => 10 | OS => 11 | WS => 12 | HA => 13 | LA => 14
  | P => 15 | ThreeQ => 16 | B => 17
  end%nat.

Lemma all_index (s : t) : all !! index s = Some s.
Proof. by destruct s. Qed.

#[global] Instance eq_dec : EqDecision t.
Proof. solve_decision. Defined.

#[global] Instance countable : Countable t :=
  inj_countable index (λ n, all !! n) all_index.
End ProductStyle.

Abbreviation ProductStyle := ProductStyle.t.

(** The aspect ratios are the string literals of the union type. *)
Definition AspectRatio := string.

Module ShotDefinition.
Record t := {
  id : ProductStyle;
  label : string;
  description : string;
  emotional : string;
  promptTemplate : string;
}.
End ShotDefinition.

Abbreviation ShotDefinition := ShotDefinition.t.

(** ** constants.ts *)

(** Common suffix for all prompts to enforce quality. *)
Definition PRODUCT_QUALITY_SUFFIX : string := "
CRITICAL REQUIREMENTS:
- Product must be 100% accurate in shape, proportions, color, label, typography, and branding.
- Zero distortion, deformation, or product redesign.
- Clean separation between product and background.
- Professional studio lighting (soft, controlled, no harsh shadows).
- Editorial luxury advertising aesthetic.
- High-end commercial campaign quality. 4K resolution look.
".

Definition HUMAN_QUALITY_SUFFIX : string := "
CRITICAL REQUIREMENTS:
- Subject must be 100% accurate in facial features, expression, and likeness.
- Zero distortion of anatomy, face, or hands.
- Skin texture must look natural and high-end retouch quality.
- Professional portrait lighting (Rembrandt, Butterfly, or Loop lighting).
- Editorial fashion aesthetic.
- High-end magazine cover quality. 4K resolution look.
".

Definition ASPECT_RATIOS : list AspectRatio :=
  ["1:1"; "2:3"; "3:2"; "3:4"; "4:3"; "9:16"; "16:9"; "21:9"].

Import ProductStyle.

Definition PRODUCT_STYLES : list ProductStyle :=
  [HERO; MACRO; LIQUID; SCULPTURAL; FLOATING; SENSORY; COLOR; INGREDIENT;
   SURREAL].

Definition HUMAN_STYLES : list ProductStyle :=
  [MCU; MS; OS; WS; HA; LA; P; ThreeQ; B].

Definition SHOT_DEFINITIONS (style : ProductStyle) : ShotDefinition :=
  match style with
  | HERO =>
    {| ShotDefinition.id := HERO;
       ShotDefinition.label := "Iconic Hero";
       ShotDefinition.description := "Definitive showcase with bold composition and commanding presence.";
       ShotDefinition.emotional := "Authority, Desire, Aspiration";
       ShotDefinition.promptTemplate := "Create an iconic hero shot of the same [PRODUCT] with bold, striking composition. The subject must be 100% accurate—no distortion. Position as the clear hero with commanding presence. Minimal supporting elements if any. Clean white or sophisticated neutral background. Professional studio lighting with dramatic key light. Ultra-sharp focus, high dynamic range. Premium luxury advertising aesthetic. This is the definitive hero shot for brand campaigns." |}
  | MACRO =>
    {| ShotDefinition.id := MACRO;
       ShotDefinition.label := "Extreme Macro";
       ShotDefinition.description := "High-magnification detail shot emphasizing texture and craftsmanship.";
       ShotDefinition.emotional := "Intimacy, Precision, Quality";
       ShotDefinition.promptTemplate := "Create an extreme macro close-up detail shot of the same [PRODUCT] highlighting texture, finish, or fine details. Magnify the craftsmanship/features dramatically. Ultra-shallow depth of field with artistic blur. Raking light that emphasizes texture. The subject must be 100% accurate—no distortion. Sharp focus on the detail, everything else artistically blurred. Premium luxury aesthetic." |}
  | LIQUID =>
    {| ShotDefinition.id := LIQUID;
       ShotDefinition.label := "Dynamic Energy";
       ShotDefinition.description := "High-speed capture with liquid splashes or particle interactions.";
       ShotDefinition.emotional := "Energy, Freshness, Motion";
       ShotDefinition.promptTemplate := "Create a dynamic, energetic shot of the same [PRODUCT] with liquid splash, pour, or particle interaction. The subject must be 100% accurate and clearly recognizable—positioned as the anchor within the dynamic interaction. The elements should surround, complement, or interact naturally. Captured mid-action. Professional studio lighting revealing both detail and movement energy. High-speed photography effect suggesting dynamism. Editorial luxury aesthetic." |}
  | SCULPTURAL =>
    {| ShotDefinition.id := SCULPTURAL;
       ShotDefinition.label := "Sculptural Minimal";
       ShotDefinition.description := "Geometric arrangement with abstract forms and strong shadows.";
       ShotDefinition.emotional := "Balance, Modernity, Art";
       ShotDefinition.promptTemplate := "Create a minimal sculptural arrangement of the same [PRODUCT] surrounded by abstract geometric forms (blocks, spheres, planes, clean shapes). The subject must be 100% accurate and clearly recognizable as the focal point. Composition is extremely minimal with prominent negative space. Geometric precision in arrangement. Professional studio lighting emphasizing form and shadow. Strong geometric shadows creating depth. Monochromatic or controlled color palette. Editorial, design-focused aesthetic." |}
  | FLOATING =>
    {| ShotDefinition.id := FLOATING;
       ShotDefinition.label := "Anti-Gravity";
       ShotDefinition.description := "Levitating composition suggesting lightness and innovation.";
       ShotDefinition.emotional := "Innovation, Future, Uplift";
       ShotDefinition.promptTemplate := "Create a floating, weightless composition of the same [PRODUCT] appearing to levitate or float suspended. The subject must be 100% accurate and undistorted. Suggest innovation or ethereal quality through suspension in space. Supporting elements float around the subject creating sense of uplift and lightness. Professional studio lighting highlighting undersides and creating dimensional shadow suggesting ground distance. Clear or ethereal background. Contemporary, aspirational aesthetic." |}
  | SENSORY =>
    {| ShotDefinition.id := SENSORY;
       ShotDefinition.label := "Sensory Tactile";
       ShotDefinition.description := "Intimate framing emphasizing material authenticity and touch.";
       ShotDefinition.emotional := "Connection, Warmth, Tactility";
       ShotDefinition.promptTemplate := "Create a sensory, intimate close-up of the same [PRODUCT] emphasizing tactility and hyperreal authenticity. The subject must be 100% accurate. Frame the subject to suggest touchability and immediate desire. Close-up proximity making viewer feel connection. Features rendered in hyperreal detail. Warm, intimate studio lighting creating sensory appeal." |}
  | COLOR =>
    {| ShotDefinition.id := COLOR;
       ShotDefinition.label := "Color Concept";
       ShotDefinition.description := "Scene built entirely around the subject's color palette.";
       ShotDefinition.emotional := "Harmony, Identity, Mood";
       ShotDefinition.promptTemplate := "Create a color-driven conceptual scene of the same [PRODUCT] where the entire composition is built around the subject's color palette. Extract and amplify the primary colors, building a harmonious scene around this palette. The composition may be abstract or conceptual, but always anchored by the subject as the focal point. Color harmony is paramount—monochromatic, analogous, or color-blocked. Professional studio lighting emphasizing color saturation and richness." |}
  | INGREDIENT =>
    {| ShotDefinition.id := INGREDIENT;
       ShotDefinition.label := "Component Story";
       ShotDefinition.description := "Symbolic arrangement of ingredients or materials.";
       ShotDefinition.emotional := "Integrity, Nature, Source";
       ShotDefinition.promptTemplate := "Create an ingredient or component abstraction composition of the same [PRODUCT]. Extract and visually represent the key ingredients, materials, or elements that create this subject. Presentation is non-literal and symbolic—a conceptual arrangement. The subject must be 100% accurate and positioned as the hero result of these component elements. Abstract, artistic, sophisticated. Editorial luxury aesthetic." |}
  | SURREAL =>
    {| ShotDefinition.id := SURREAL;
       ShotDefinition.label := "Surreal Fusion";
       ShotDefinition.description := "Dream-like fusion of realism and imagination.";
       ShotDefinition.emotional := "Wonder, Magic, Uniqueness";
       ShotDefinition.promptTemplate := "Create a surreal yet elegant fusion scene featuring the same [PRODUCT] merged or blended with imaginative, dream-like elements that feel impossible yet visually elegant. The subject must be 100% accurate and clearly recognizable, but seamlessly integrated into this surreal fusion. Refined surrealism—not chaotic. Unexpected juxtapositions that create memorable visual impact. Grounded in photorealism. Rich color palette, saturated and dreamlike. Editorial luxury aesthetic." |}
  | MCU =>
    {| ShotDefinition.id := MCU;
       ShotDefinition.label := "Macro Close Up";
       ShotDefinition.description := "Extreme facial detail, eye focus, expression capture";
       ShotDefinition.emotional := "Intimacy, Vulnerability, Detail";
       ShotDefinition.promptTemplate := "Create a macro close-up shot of the same person showing extreme detail with professional studio lighting, sharp focus on facial features, and minimal background. Shallow depth of field with soft bokeh. Focus on eyes with perfect clarity. Skin texture and detail should be visible and flattering. Professional beauty photography style." |}
  | MS =>
    {| ShotDefinition.id := MS;
       ShotDefinition.label := "Medium Shot";
       ShotDefinition.description := "Professional portrait standard, waist-up framing";
       ShotDefinition.emotional := "Professional, Approachable, Confident";
       ShotDefinition.promptTemplate := "Create a medium shot showing the same person from waist up with clear detail. Professional portrait lighting setup with warm key light and subtle fill. Neutral background slightly out of focus. Subject should look confident and approachable. Studio photography quality with excellent skin tone and feature definition." |}
  | OS =>
    {| ShotDefinition.id := OS;
       ShotDefinition.label := "Over the Shoulder";
       ShotDefinition.description := "Intimate perspective, relationship focus, 45-degree angle";
       ShotDefinition.emotional := "Intimate, Engaging, Relatable";
       ShotDefinition.promptTemplate := "Create an over-the-shoulder perspective shot at approximately 45 degrees of the same person. Show the person's shoulder partially in frame on one side while their face is visible in three-quarter view. Professional lighting that wraps around the subject. Background slightly blurred but contextual. Intimate and engaging composition." |}
  | WS =>
    {| ShotDefinition.id := WS;
       ShotDefinition.label := "Wide Shot";
       ShotDefinition.description := "Full-body with environment, storytelling composition";
       ShotDefinition.emotional := "Contextual, Environmental, Storytelling";
       ShotDefinition.promptTemplate := "Create a full-body wide shot showing the same person with surrounding environment visible and contributing to composition. Cinematic framing with balanced depth. The person should be positioned following rule of thirds. Professional lighting that complements the setting. Rich color and environmental detail visible." |}
  | HA =>
    {| ShotDefinition.id := HA;
       ShotDefinition.label := "High Angle";
       ShotDefinition.description := "From above looking down, vulnerable mood, contemplative";
       ShotDefinition.emotional := "Vulnerable, Introspective, Humble";
       ShotDefinition.promptTemplate := "Create a high-angle shot from above at 45-60 degree angle, looking down at the same person with dramatic perspective. The person should appear vulnerable or contemplative. Top-lighting that creates dimension. Subject in lower frame position with space above. Professional lighting that emphasizes the downward perspective." |}
  | LA =>
    {| ShotDefinition.id := LA;
       ShotDefinition.label := "Low Angle";
       ShotDefinition.description := "From below looking up, powerful/heroic mood, confident";
       ShotDefinition.emotional := "Powerful, Heroic, Dominant";
       ShotDefinition.promptTemplate := "Create a low-angle shot from below looking up at the same person with powerful dramatic perspective. The person should appear confident and commanding. Upward-tilted camera creates heroic composition. Subject fills upper frame with sky or ceiling visible below. Dramatic lighting that emphasizes power and dominance." |}
  | P =>
    {| ShotDefinition.id := P;
       ShotDefinition.label := "Profile View";
       ShotDefinition.description := "Pure 90-degree side view, classical silhouette";
       ShotDefinition.emotional := "Classical, Defined, Structured";
       ShotDefinition.promptTemplate := "Create a pure profile view at 90-degree side angle showing the same person in clean silhouette. The profile should be sharp and well-defined showing complete side features from forehead to chin. Professional side-lighting that emphasizes facial structure and contours. One eye clearly visible with sharp focus. Neutral background creates clean profile separation." |}
  | ThreeQ =>
    {| ShotDefinition.id := ThreeQ;
       ShotDefinition.label := "Three-Quarter View";
       ShotDefinition.description := "Most popular angle, natural dimensional perspective";
       ShotDefinition.emotional := "Natural, Dimensional, Personable";
       ShotDefinition.promptTemplate := "Create a three-quarter angle view with the same person turned 45 degrees, showing approximately three-quarters of the face. Both eyes should be visible with natural dimensional appearance. Professional three-quarter lighting (Rembrandt style) with key light creating shadow triangle. Good cheekbone and jawline definition. Soft focus background. Warm skin tones and flattering facial positioning." |}
  | B =>
    {| ShotDefinition.id := B;
       ShotDefinition.label := "Back View";
       ShotDefinition.description := "Back view, hair detail, movement, story";
       ShotDefinition.emotional := "Mystery, Intrigue, Motion";
       ShotDefinition.promptTemplate := "Create a back view shot showing the same person from behind with body posture clearly visible. Full back including shoulders and head visible. Environmental context visible and contributing to story. Hair detail and texture visible. Professional lighting that emphasizes form and creates dimension. Backlighting or side-lighting creates rim light on edges. The back view creates sense of movement, mystery, or contemplation." |}
  end.

(** The [subjectType] argument is accepted and never read: the suffix is
    chosen from the style alone. *)
Definition getShotDefinition (style : ProductStyle) (subjectType : SubjectType)
  : ShotDefinition :=
  let def := SHOT_DEFINITIONS style in
  let isHumanStyle := Array_includes HUMAN_STYLES style in
  let suffix :=
    if isHumanStyle then HUMAN_QUALITY_SUFFIX else PRODUCT_QUALITY_SUFFIX in
  {| ShotDefinition.id := ShotDefinition.id def;
     ShotDefinition.label := ShotDefinition.label def;
     ShotDefinition.description := ShotDefinition.description def;
     ShotDefinition.emotional := ShotDefinition.emotional def;
     ShotDefinition.promptTemplate :=
       ShotDefinition.promptTemplate def +:+ suffix |}.

(** ** services/geminiService.ts: the aspect ratio table *)

(** Map unsupported aspect ratios to the nearest ratio the image model
    supports: 1:1, 3:4, 4:3, 9:16, 16:9. *)
Definition mapToGeminiAspectRatio (ratio : AspectRatio) : string :=
  if String.eqb ratio "2:3" then "3:4"
  else if String.eqb ratio "3:2" then "4:3"
  else if String.eqb ratio "21:9" then "16:9"
  else ratio.

Definition GEMINI_SUPPORTED : list string :=
  ["1:1"; "3:4"; "4:3"; "9:16"; "16:9"].

(** ** Values that cross the boundary of the repository *)

(** A JavaScript value as far as the error classification reads it. *)
Inductive JsValue := JsUndefined | JsNumber (n : Z) | JsString (s : string).

Definition strict_eq_number (v : JsValue) (n : Z) : bool :=
  match v with
  | JsNumber m => Z.eqb m n
  | _ => false
  end.

(** A thrown error object: the three properties [generateShot] reads. *)
Record JsError := {
  status : JsValue;
  code : JsValue;
  message : option string;
}.

(** [new Error(msg)] *)
Definition new_Error (msg : string) : JsError :=
  {| status := JsUndefined; code := JsUndefined; message := Some msg |}.

(** A parsed JSON document.  A number carries its numeric value; an object
    carries its own properties, one pair per key. *)
#[local] Unset Elimination Schemes.
Inductive Json :=
  | JNull
  | JBool (b : bool)
  | JNumber (q : Q)
  | JString (s : string)
  | JArray (items : list Json)
  | JObject (fields : list (string * Json)).
#[local] Set Elimination Schemes.

(** Truthiness of a value that may be [undefined] ([None]). *)
Definition truthy (v : option Json) : bool :=
  match v with
  | None | Some JNull => false
  | Some (JBool b) => b
  | Some (JNumber q) => negb (Qeq_bool q 0)
  | Some (JString s) => truthy_string (Some s)
  | Some (JArray _) | Some (JObject _) => true
  end.

(** [v || d] *)
Definition or_else (v : option Json) (d : Json) : Json :=
  match v with
  | Some x => if truthy v then x else d
  | None => d
  end.

Fixpoint assoc (key : string) (fields : list (string * Json)) : option Json :=
  match fields with
  | [] => None
  | (k, v) :: rest => if String.eqb k key then Some v else assoc key rest
  end.

(** [result.key] on a parsed document: reading a property of [null] raises
    a TypeError ([None]); a primitive or an array has none of the
    properties asked for here, so the read gives [undefined]. *)
Definition get_property (result : Json) (key : string) : option (option Json) :=
  match result with
  | JNull => None
  | JObject fields => Some (assoc key fields)
  | _ => Some None
  end.

(** What [ai.models.generateContent] resolves to. *)
Record InlineData := { data : option string }.
Record Part := { inlineData : option InlineData }.
Record Response := {
  text : option string;
  (** [response.candidates?.[0]?.content?.parts] *)
  candidate_parts : option (list Part);
}.

Inductive Outcome (A : Type) :=
  | Returned (a : A)
  | Thrown (e : JsError).
Arguments Returned {A} a.
Arguments Thrown {A} e.

Module ProductAnalysisResult.
Record t := {
  productName : Json;
  description : Json;
  category : Json;
  confidence : Json;
  isHuman : option Json;
  framingQuality : option Json;
  recommendations : Json;
}.
End ProductAnalysisResult.

Abbreviation ProductAnalysisResult := ProductAnalysisResult.t.

Module GeneratedImage.
Record t := {
  id : option string;
  shotType : option ProductStyle;
  imageUrl : option string;
  isLoading : option bool;
  timestamp : option Z;
  subjectType : option SubjectType;
  error : option string;
  customPrompt : option string;
}.

(** The object [{}]: what spreading [undefined] leaves. *)
Definition empty : t :=
  {| id := None; shotType := None; imageUrl := None; isLoading := None;
     timestamp := None; subjectType := None; error := None;
     customPrompt := None |}.
End GeneratedImage.

Abbreviation GeneratedImage := GeneratedImage.t.

(** [Record<string, GeneratedImage>], keyed by the style. *)
Abbreviation Shots := (gmap ProductStyle GeneratedImage).

Module ProjectHistory.
Record t := {
  id : string;
  timestamp : Z;
  sourceImage : string;
  productName : Json;
  productDescription : Json;
  productCategory : Json;
  subjectType : SubjectType;
  generatedShots : Shots;
}.
End ProjectHistory.

Abbreviation ProjectHistory := ProjectHistory.t.

(** ** App.tsx: the component state

    The [useState] cells of [App] that the handlers below read or write
    (the three flags that only open a modal, a drawer or a download are
    left out). *)
Record AppState := {
  sourceImage : option string;
  isGenerating : bool;
  isDetecting : bool;
  productName : Json;
  productDescription : Json;
  productCategory : Json;
  subjectType : SubjectType;
  aspectRatio : AspectRatio;
  generatedShots : Shots;
  selectedShot : option GeneratedImage;
  selectedShotIds : gset ProductStyle;
  detectionWarning : option string;
  currentProjectId : option string;
}.

Definition setSourceImage (v : option string) (st : AppState) : AppState :=
  {| sourceImage := v; isGenerating := isGenerating st;
     isDetecting := isDetecting st; productName := productName st;
     productDescription := productDescription st;
     productCategory := productCategory st; subjectType := subjectType st;
     aspectRatio := aspectRatio st; generatedShots := generatedShots st;
     selectedShot := selectedShot st; selectedShotIds := selectedShotIds st;
     detectionWarning := detectionWarning st;
     currentProjectId := currentProjectId st |}.

Definition setIsGenerating (v : bool) (st : AppState) : AppState :=
  {| sourceImage := sourceImage st; isGenerating := v;
     isDetecting := isDetecting st; productName := productName st;
     productDescription := productDescription st;
     productCategory := productCategory st; subjectType := subjectType st;
     aspectRatio := aspectRatio st; generatedShots := generatedShots st;
     selectedShot := selectedShot st; selectedShotIds := selectedShotIds st;
     detectionWarning := detectionWarning st;
     currentProjectId := currentProjectId st |}.

Definition setIsDetecting (v : bool) (st : AppState) : AppState :=
  {| sourceImage := sourceImage st; isGenerating := isGenerating st;
     isDetecting := v; productName := productName st;
     productDescription := productDescription st;
     productCategory := productCategory st; subjectType := subjectType st;
     aspectRatio := aspectRatio st; generatedShots := generatedShots st;
     selectedShot := selectedShot st; selectedShotIds := selectedShotIds st;
     detectionWarning := detectionWarning st;
     currentProjectId := currentProjectId st |}.

Definition setProductName (v : Json) (st : AppState) : AppState :=
  {| sourceImage := sourceImage st; isGenerating := isGenerating st;
     isDetecting := isDetecting st; productName := v;
     productDescription := productDescription st;
     productCategory := productCategory st; subjectType := subjectType st;
     aspectRatio := aspectRatio st; generatedShots := generatedShots st;
     selectedShot := selectedShot st; selectedShotIds := selectedShotIds st;
     detectionWarning := detectionWarning st;
     currentProjectId := currentProjectId st |}.

Definition setProductDescription (v : Json) (st : AppState) : AppState :=
  {| sourceImage := sourceImage st; isGenerating := isGenerating st;
     isDetecting := isDetecting st; productName := productName st;
     productDescription := v; productCategory := productCategory st;
     subjectType := subjectType st; aspectRatio := aspectRatio st;
     generatedShots := generatedShots st; selectedShot := selectedShot st;
     selectedShotIds := selectedShotIds st;
     detectionWarning := detectionWarning st;
     currentProjectId := currentProjectId st |}.

Definition setProductCategory (v : Json) (st : AppState) : AppState :=
  {| sourceImage := sourceImage st; isGenerating := isGenerating st;
     isDetecting := isDetecting st; productName := productName st;
     productDescription := productDescription st; productCategory := v;
     subjectType := subjectType st; aspectRatio := aspectRatio st;
     generatedShots := generatedShots st; selectedShot := selectedShot st;
     selectedShotIds := selectedShotIds st;
     detectionWarning := detectionWarning st;
     currentProjectId := currentProjectId st |}.

Definition setSubjectType (v : SubjectType) (st : AppState) : AppState :=
  {| sourceImage := sourceImage st; isGenerating := isGenerating st;
     isDetecting := isDetecting st; productName := productName st;
     productDescription := productDescription st;
     productCategory := productCategory st; subjectType := v;
     aspectRatio := aspectRatio st; generatedShots := generatedShots st;
     selectedShot := selectedShot st; selectedShotIds := selectedShotIds st;
     detectionWarning := detectionWarning st;
     currentProjectId := currentProjectId st |}.

Definition setAspectRatio (v : AspectRatio) (st : AppState) : AppState :=
  {| sourceImage := sourceImage st; isGenerating := isGenerating st;
     isDetecting := isDetecting st; productName := productName st;
     productDescription := productDescription st;
     productCategory := productCategory st; subjectType := subjectType st;
     aspectRatio := v; generatedShots := generatedShots st;
     selectedShot := selectedShot st; selectedShotIds := selectedShotIds st;
     detectionWarning := detectionWarning st;
     currentProjectId := currentProjectId st |}.

Definition setGeneratedShots (v : Shots) (st : AppState) : AppState :=
  {| sourceImage := sourceImage st; isGenerating := isGenerating st;
     isDetecting := isDetecting st; productName := productName st;
     productDescription := productDescription st;
     productCategory := productCategory st; subjectType := subjectType st;
     aspectRatio := aspectRatio st; generatedShots := v;
     selectedShot := selectedShot st; selectedShotIds := selectedShotIds st;
     detectionWarning := detectionWarning st;
     currentProjectId := currentProjectId st |}.

Definition setSelectedShot (v : option GeneratedImage) (st : AppState) : AppState :=
  {| sourceImage := sourceImage st; isGenerating := isGenerating st;
     isDetecting := isDetecting st; productName := productName st;
     productDescription := productDescription st;
     productCategory := productCategory st; subjectType := subjectType st;
     aspectRatio := aspectRatio st; generatedShots := generatedShots st;
     selectedShot := v; selectedShotIds := selectedShotIds st;
     detectionWarning := detectionWarning st;
     currentProjectId := currentProjectId st |}.

Definition setSelectedShotIds (v : gset ProductStyle) (st : AppState) : AppState :=
  {| sourceImage := sourceImage st; isGenerating := isGenerating st;
     isDetecting := isDetecting st; productName := productName st;
     productDescription := productDescription st;
     productCategory := productCategory st; subjectType := subjectType st;
     aspectRatio := aspectRatio st; generatedShots := generatedShots st;
     selectedShot := selectedShot st; selectedShotIds := v;
     detectionWarning := detectionWarning st;
     currentProjectId := currentProjectId st |}.

Definition setDetectionWarning (v : option string) (st : AppState) : AppState :=
  {| sourceImage := sourceImage st; isGenerating := isGenerating st;
     isDetecting := isDetecting st; productName := productName st;
     productDescription := productDescription st;
     productCategory := productCategory st; subjectType := subjectType st;
     aspectRatio := aspectRatio st; generatedShots := generatedShots st;
     selectedShot := selectedShot st; selectedShotIds := selectedShotIds st;
     detectionWarning := v; currentProjectId := currentProjectId st |}.

Definition setCurrentProjectId (v : option string) (st : AppState) : AppState :=
  {| sourceImage := sourceImage st; isGenerating := isGenerating st;
     isDetecting := isDetecting st; productName := productName st;
     productDescription := productDescription st;
     productCategory := productCategory st; subjectType := subjectType st;
     aspectRatio := aspectRatio st; generatedShots := generatedShots st;
     selectedShot := selectedShot st; selectedShotIds := selectedShotIds st;
     detectionWarning := detectionWarning st; currentProjectId := v |}.

(** The state of a freshly mounted component. *)
Definition initial_state : AppState :=
  {| sourceImage := None; isGenerating := false; isDetecting := false;
     productName := JString "product"; productDescription := JString "";
     productCategory := JString ""; subjectType := PRODUCT;
     aspectRatio := "3:4"; generatedShots := ∅; selectedShot := None;
     selectedShotIds := ∅; detectionWarning := None;
     currentProjectId := None |}.

(** ** The outside world and the effect monad *)

(** Everything the code asks of its surroundings.  An answer is indexed by
    how many questions of that kind were asked before, so an environment
    fixes one possible behaviour of the backend, the clock and the store;
    the theorems hold for all of them. *)
Record Env := {
  (** the settlement of the n-th call of [ai.models.generateContent] *)
  generateContent : nat → Outcome Response;
  (** the n-th reading of [Date.now()] *)
  Date_now : nat → Z;
  (** whether the n-th use of the IndexedDB database goes through *)
  idb_ok : nat → bool;
  (** [JSON.parse]; [None] is a SyntaxError *)
  JSON_parse : string → option Json;
  (** [String.prototype.trim] *)
  String_trim : string → string;
  (** the text of each member of the [ProductStyle] enumeration *)
  style_text : ProductStyle → string;
}.

(** What a run leaves behind.  The prompt text of a request is not
    recorded. *)
Inductive Event :=
  | CallGenerateContent (model : string) (image : option string)
      (aspectRatio : option string)
  | Wait (ms : Z)
  | Put (project : ProjectHistory)
  | Delete (key : string).

Record World := {
  ui : AppState;
  calls : nat;
  clock_reads : nat;
  idb_uses : nat;
  projects : gmap string ProjectHistory;
  trace : list Event;
}.

Definition M (A : Type) : Type := Env → World → Outcome A * World.

Definition ret {A} (a : A) : M A := λ _ w, (Returned a, w).

Definition throw {A} (e : JsError) : M A := λ _ w, (Thrown e, w).

Definition bind {A B} (m : M A) (k : A → M B) : M B :=
  λ env w,
    match m env w with
    | (Returned a, w') => k a env w'
    | (Thrown e, w') => (Thrown e, w')
    end.

(** [try { m } catch (error) { handler error }] *)
Definition try_catch {A} (m : M A) (handler : JsError → M A) : M A :=
  λ env w,
    match m env w with
    | (Returned a, w') => (Returned a, w')
    | (Thrown e, w') => handler e env w'
    end.

Declare Scope js_scope.
Delimit Scope js_scope with js.
Notation "x <- m ;; k" := (bind m (λ x, k))
  (at level 100, m at next level, right associativity) : js_scope.
Notation "m ;; k" := (bind m (λ _, k))
  (at level 100, right associativity) : js_scope.
Local Open Scope js_scope.

Definition emit (e : Event) : M unit :=
  λ _ w, (Returned (),
          {| ui := ui w; calls := calls w; clock_reads := clock_reads w;
             idb_uses := idb_uses w; projects := projects w;
             trace := trace w ++ [e] |}).

(** [await ai.models.generateContent(request)] *)
Definition call_generateContent (model : string) (image : option string)
    (aspectRatio : option string) : M Response :=
  λ env w,
    (generateContent env (calls w),
     {| ui := ui w; calls := S (calls w); clock_reads := clock_reads w;
        idb_uses := idb_uses w; projects := projects w;
        trace := trace w ++ [CallGenerateContent model image aspectRatio] |}).

(** [await wait(ms)] *)
Definition wait (ms : Z) : M unit := emit (Wait ms).

(** A state setter: [setX(prev => f prev)] on the component state. *)
Definition modify_ui (f : AppState → AppState) : M unit :=
  λ _ w,
    (Returned (),
     {| ui := f (ui w); calls := calls w; clock_reads := clock_reads w;
        idb_uses := idb_uses w; projects := projects w; trace := trace w |}).

(** [setGeneratedShots(prev => f prev)] *)
Definition modify_shots (f : Shots → Shots) : M unit :=
  modify_ui (λ st, setGeneratedShots (f (generatedShots st)) st).

(** [Date.now()] *)
Definition now : M Z :=
  λ env w,
    (Returned (Date_now env (clock_reads w)),
     {| ui := ui w; calls := calls w; clock_reads := S (clock_reads w);
        idb_uses := idb_uses w; projects := projects w;
        trace := trace w |}).

(** ** services/geminiService.ts *)

Definition getBase64Data (base64String : string) : string :=
  match split_comma base64String with
  | (_, Some rest) => fst (split_comma rest)
  | (_, None) => base64String
  end.

Definition default_analysis : ProductAnalysisResult :=
  {| ProductAnalysisResult.productName := JString "Subject";
     ProductAnalysisResult.description := JString "A detailed shot of the subject.";
     ProductAnalysisResult.category := JString "general";
     ProductAnalysisResult.confidence := JNumber 0;
     ProductAnalysisResult.isHuman := None;
     ProductAnalysisResult.framingQuality := None;
     ProductAnalysisResult.recommendations := JArray [] |}.

(** The inner [try] block of [analyzeProduct]: parse and fill in. *)
Definition parse_analysis (jsonStr : string) : M ProductAnalysisResult :=
  λ env w,
    match JSON_parse env jsonStr with
    | None => (Thrown (new_Error "Unexpected token"), w)
    | Some result =>
        match get_property result "productName" with
        | None => (Thrown (new_Error "Cannot read properties of null"), w)
        | Some _ =>
            let get key := default None (get_property result key) in
            (Returned
               {| ProductAnalysisResult.productName := or_else (get "productName") (JString "Subject");
                  ProductAnalysisResult.description :=
                    or_else (get "description")
                      (JString "A detailed shot of the subject.");
                  ProductAnalysisResult.category := or_else (get "category") (JString "general");
                  ProductAnalysisResult.confidence := or_else (get "confidence") (JNumber (8 # 10));
                  ProductAnalysisResult.isHuman := get "isHuman";
                  ProductAnalysisResult.framingQuality :=
                    Some (or_else (get "framingQuality") (JString "ok"));
                  ProductAnalysisResult.recommendations :=
                    or_else (get "recommendations") (JArray []) |}, w)
        end
    end.

Definition analyzeProduct (sourceImageBase64 : string)
  : M ProductAnalysisResult :=
  try_catch
    (let cleanBase64 := getBase64Data sourceImageBase64 in
     response <- call_generateContent "gemini-2.5-flash" (Some cleanBase64) None ;;
     let text := or_default (text response) "" in
     let jsonStr := λ env : Env,
       String_trim env
         (String_remove_all "```" (String_remove_all "```json" text)) in
     try_catch
       (λ env, parse_analysis (jsonStr env) env)
       (λ e, ret default_analysis))
    (λ error, ret default_analysis).

(** The first part whose inline data is non-empty, as a data URL. *)
Fixpoint first_image (parts : list Part) : option string :=
  match parts with
  | [] => None
  | part :: rest =>
      match inlineData part with
      | Some {| data := Some (String c d) |} =>
          Some ("data:image/jpeg;base64," +:+ String c d)
      | _ => first_image rest
      end
  end.

(** The body of a [try] block of [generateShot] and [editShot] after the
    call: return the image or throw. *)
Definition image_of_response (response : Response) (complaint : string)
  : M string :=
  match candidate_parts response with
  | Some parts =>
      match first_image parts with
      | Some url => ret url
      | None => throw (new_Error complaint)
      end
  | None => throw (new_Error complaint)
  end.

Definition MAX_RETRIES : nat := 3.

Definition isRateLimit (error : JsError) : bool :=
  strict_eq_number (status error) 429
  || strict_eq_number (code error) 429
  || (truthy_string (message error)
      && String_includes "429" (default "" (message error)))
  || (truthy_string (message error)
      && String_includes "RESOURCE_EXHAUSTED" (default "" (message error))).

(** [Math.pow(2, attempt + 1) * 1000] *)
Definition backoff_delay (attempt : nat) : Z :=
  2 ^ (Z.of_nat attempt + 1) * 1000.

(** The [while (attempt <= MAX_RETRIES)] loop of [generateShot], entered
    with the current value of [attempt]; the [throw] after the loop is the
    last clause. *)
Equations generateShot_loop (cleanBase64 : string) (shotDef : ShotDefinition)
    (validAspectRatio : string) (attempt : nat) : M string
    by wf (S MAX_RETRIES - attempt)%nat lt :=
generateShot_loop cleanBase64 shotDef validAspectRatio attempt
    with decide (attempt ≤ MAX_RETRIES)%nat := {
  | left _ =>
      try_catch
        (response <- call_generateContent "gemini-2.5-flash-image"
                       (Some cleanBase64) (Some validAspectRatio) ;;
         image_of_response response "No image data found in response")
        (λ error,
           if isRateLimit error && bool_decide (attempt < MAX_RETRIES)%nat
           then
             (wait (backoff_delay attempt) ;;
              generateShot_loop cleanBase64 shotDef validAspectRatio
                (S attempt))
           else throw error)
  | right _ =>
      λ env,
        throw
          (new_Error
             ("Failed to generate shot "
              +:+ style_text env (ShotDefinition.id shotDef)
              +:+ " after " +:+ pretty MAX_RETRIES +:+ " retries")) env }.
Next Obligation. unfold MAX_RETRIES in *. lia. Qed.

(** Generate a shot with gemini-2.5-flash-image.  The prompt is built from
    the template, [productName] and [productDescription]; its text is not
    part of the model. *)
Definition generateShot (sourceImageBase64 : string)
    (shotDef : ShotDefinition) (productName productDescription : Json)
    (aspectRatio : AspectRatio) : M string :=
  let cleanBase64 := getBase64Data sourceImageBase64 in
  let validAspectRatio := mapToGeminiAspectRatio aspectRatio in
  generateShot_loop cleanBase64 shotDef validAspectRatio 0.

(** Edit an existing shot: one call, no source image, no retry. *)
Definition editShot (productName productDescription : Json)
    (shotDef : ShotDefinition) (editPrompt : string)
    (aspectRatio : AspectRatio) : M string :=
  let validAspectRatio := mapToGeminiAspectRatio aspectRatio in
  try_catch
    (response <- call_generateContent "gemini-2.5-flash-image" None
                   (Some validAspectRatio) ;;
     image_of_response response "No image returned from edit")
    (λ error, throw error).

(** ** services/historyService.ts

    The object store [projects] has key path [id]: [put] stores the record
    under its own [id] and replaces the record that was there. *)

(** [const db = await initDB()], then one operation on the store.  When
    the database cannot be used the operation throws. *)
Definition with_db {A} (op : gmap string ProjectHistory →
                             A * gmap string ProjectHistory) (e : Event)
  : M A :=
  λ env w,
    if idb_ok env (idb_uses w) then
      let '(a, store) := op (projects w) in
      (Returned a,
       {| ui := ui w; calls := calls w; clock_reads := clock_reads w;
          idb_uses := S (idb_uses w); projects := store;
          trace := trace w ++ [e] |})
    else
      (Thrown (new_Error "IndexedDB is not available"),
       {| ui := ui w; calls := calls w; clock_reads := clock_reads w;
          idb_uses := S (idb_uses w); projects := projects w;
          trace := trace w |}).

Definition db_put (project : ProjectHistory) : M unit :=
  with_db (λ store, ((), <[ProjectHistory.id project := project]> store))
    (Put project).

Definition saveProject (project : ProjectHistory) : M unit :=
  try_catch (db_put project) (λ error, ret ()).

Definition deleteProject (key : string) : M unit :=
  try_catch (with_db (λ store, ((), delete key store)) (Delete key))
    (λ error, ret ()).

(** ** App.tsx: the handlers

    A handler is a closure of one render: it reads the state of that
    render, [r], and writes the live state through the setters.  Between
    two [await]s a handler runs without interruption; the pieces that
    other events can interleave with are defined on their own. *)

(** [subjectType === SubjectType.HUMAN ? HUMAN_STYLES : PRODUCT_STYLES] *)
Definition activeStyles (r : AppState) : list ProductStyle :=
  if decide (subjectType r = HUMAN) then HUMAN_STYLES else PRODUCT_STYLES.

(** The updater of a task that resolved:
    [{...prev, [type]: {...prev[type], imageUrl: imageUrl, isLoading: false}}] *)
Definition settle_success (type : ProductStyle) (url : string) (prev : Shots)
  : Shots :=
  let old := default GeneratedImage.empty (prev !! type) in
  <[type :=
      {| GeneratedImage.id := GeneratedImage.id old;
         GeneratedImage.shotType := GeneratedImage.shotType old;
         GeneratedImage.imageUrl := Some url;
         GeneratedImage.isLoading := Some false;
         GeneratedImage.timestamp := GeneratedImage.timestamp old;
         GeneratedImage.subjectType := GeneratedImage.subjectType old;
         GeneratedImage.error := GeneratedImage.error old;
         GeneratedImage.customPrompt := GeneratedImage.customPrompt old |}]>
    prev.

(** The updater of a task that was rejected; [handleGenerate] and
    [handleEditShot] each pass their own text:
    [{...prev, [type]: {...prev[type], isLoading: false, error: text}}] *)
Definition settle_failure (text : string) (type : ProductStyle) (prev : Shots)
  : Shots :=
  let old := default GeneratedImage.empty (prev !! type) in
  <[type :=
      {| GeneratedImage.id := GeneratedImage.id old;
         GeneratedImage.shotType := GeneratedImage.shotType old;
         GeneratedImage.imageUrl := GeneratedImage.imageUrl old;
         GeneratedImage.isLoading := Some false;
         GeneratedImage.timestamp := GeneratedImage.timestamp old;
         GeneratedImage.subjectType := GeneratedImage.subjectType old;
         GeneratedImage.error := Some text;
         GeneratedImage.customPrompt := GeneratedImage.customPrompt old |}]>
    prev.

(** [{...prev, [type]: {...prev[type], isLoading: true, error: undefined}}] *)
Definition mark_loading (type : ProductStyle) (prev : Shots) : Shots :=
  let old := default GeneratedImage.empty (prev !! type) in
  <[type :=
      {| GeneratedImage.id := GeneratedImage.id old;
         GeneratedImage.shotType := GeneratedImage.shotType old;
         GeneratedImage.imageUrl := GeneratedImage.imageUrl old;
         GeneratedImage.isLoading := Some true;
         GeneratedImage.timestamp := GeneratedImage.timestamp old;
         GeneratedImage.subjectType := GeneratedImage.subjectType old;
         GeneratedImage.error := None;
         GeneratedImage.customPrompt := GeneratedImage.customPrompt old |}]>
    prev.

(** The synchronous start of [handleImageSelect], up to the call of the
    analyzer. *)
Definition handleImageSelect_begin (base64 : string) (st : AppState)
  : AppState :=
  setIsDetecting true
    (setDetectionWarning None
       (setSubjectType PRODUCT
          (setCurrentProjectId None
             (setSelectedShotIds ∅
                (setGeneratedShots ∅ (setSourceImage (Some base64) st)))))).

Definition json_is (v : option Json) (s : string) : bool :=
  match v with
  | Some (JString x) => String.eqb x s
  | _ => false
  end.

(** What [handleImageSelect] does with the analysis. *)
Definition apply_analysis (analysis : ProductAnalysisResult) (st : AppState)
  : AppState :=
  let st :=
    setProductCategory (ProductAnalysisResult.category analysis)
      (setProductDescription (ProductAnalysisResult.description analysis)
         (setProductName (ProductAnalysisResult.productName analysis) st)) in
  let framing := ProductAnalysisResult.framingQuality analysis in
  if truthy (ProductAnalysisResult.isHuman analysis) then
    if json_is framing "too_far" then
      setDetectionWarning
        (Some "Subject appears too far away. For best portrait results, use a closer shot.")
        st
    else if json_is framing "cut_off" then
      setDetectionWarning
        (Some "Subject's face or key features appear cut off. Please use a well-framed photo.")
        st
    else if json_is framing "empty" then
      setDetectionWarning
        (Some "No clear subject detected. Please try another photo.") st
    else st
  else st.

Definition handleImageSelect (base64 : string) : M unit :=
  modify_ui (handleImageSelect_begin base64) ;;
  try_catch
    (analysis <- analyzeProduct base64 ;;
     modify_ui (apply_analysis analysis))
    (λ e, ret ()) ;;
  modify_ui (setIsDetecting false).

Definition saveToHistory (r : AppState) (shots : Shots) (pid : option string)
  : M (option string) :=
  match sourceImage r with
  | Some (String c src) =>
      projectId <- (if truthy_string pid then ret (default "" pid)
                    else (t <- now ;; ret (pretty t))) ;;
      stamp <- now ;;
      saveProject
        {| ProjectHistory.id := projectId;
           ProjectHistory.timestamp := stamp;
           ProjectHistory.sourceImage := String c src;
           ProjectHistory.productName := productName r;
           ProjectHistory.productDescription := productDescription r;
           ProjectHistory.productCategory := productCategory r;
           ProjectHistory.subjectType := subjectType r;
           ProjectHistory.generatedShots := shots |} ;;
      (if truthy_string pid then ret ()
       else modify_ui (setCurrentProjectId (Some projectId))) ;;
      ret (Some projectId)
  | _ => ret None
  end.

(** The loading entries of a new batch, one [forEach] step per style; each
    step reads the clock twice. *)
Fixpoint initial_shots (r : AppState) (targetShots : list ProductStyle)
    (initialShots : Shots) : M Shots :=
  match targetShots with
  | [] => ret initialShots
  | type :: rest =>
      t1 <- now ;;
      t2 <- now ;;
      name <- (λ env, ret (style_text env type) env) ;;
      initial_shots r rest
        (<[type :=
            {| GeneratedImage.id := Some (name +:+ "-" +:+ pretty t1);
               GeneratedImage.shotType := Some type;
               GeneratedImage.imageUrl := Some "";
               GeneratedImage.isLoading := Some true;
               GeneratedImage.timestamp := Some t2;
               GeneratedImage.subjectType := Some (subjectType r);
               GeneratedImage.error := None;
               GeneratedImage.customPrompt := None |}]> initialShots)
  end.

(** The synchronous start of [handleGenerate] for a source image at hand:
    the project id is established and the batch replaces the current
    shots.  Returns the project id of the run. *)
Definition handleGenerate_begin (r : AppState) : M string :=
  modify_ui (setIsGenerating true) ;;
  modify_ui (setSelectedShotIds ∅) ;;
  activeProjectId <-
    (if truthy_string (currentProjectId r)
     then ret (default "" (currentProjectId r))
     else (t <- now ;;
           modify_ui (setCurrentProjectId (Some (pretty t))) ;;
           ret (pretty t))) ;;
  initialShots <- initial_shots r (activeStyles r) ∅ ;;
  modify_ui (setGeneratedShots initialShots) ;;
  ret activeProjectId.

(** One task of the queue: the closure mapped over a chunk. *)
Definition run_task (r : AppState) (src : string) (type : ProductStyle)
  : M unit :=
  try_catch
    (let definition := getShotDefinition type (subjectType r) in
     imageUrl <- generateShot src definition (productName r)
                   (productDescription r) (aspectRatio r) ;;
     modify_shots (settle_success type imageUrl))
    (λ error, modify_shots (settle_failure "Failed to generate" type)).

Definition CONCURRENCY : nat := 1.

(** [await Promise.all(batch.map(task))]: with one task in a chunk the
    tasks of a chunk run one after the other. *)
Fixpoint run_chunk (r : AppState) (src : string) (batch : list ProductStyle)
  : M unit :=
  match batch with
  | [] => ret ()
  | type :: rest => run_task r src type ;; run_chunk r src rest
  end.

Equations processQueue (r : AppState) (src : string)
    (queue : list ProductStyle) : M unit by wf (length queue) lt :=
processQueue r src [] := ret ();
processQueue r src (type :: rest) :=
  run_chunk r src (take CONCURRENCY (type :: rest)) ;;
  (if decide (0 < length (drop CONCURRENCY (type :: rest)))%nat
   then wait 1000 else ret ()) ;;
  processQueue r src (drop CONCURRENCY (type :: rest)).
Next Obligation. intros. unfold CONCURRENCY. simpl. rewrite drop_0. lia. Qed.

Definition handleGenerate (r : AppState) : M unit :=
  match sourceImage r with
  | Some (String c src) =>
      activeProjectId <- handleGenerate_begin r ;;
      try_catch
        (processQueue r (String c src) (activeStyles r) ;;
         (λ env w,
            (saveToHistory r (generatedShots (ui w)) (Some activeProjectId) ;;
             ret ()) env w))
        (λ e, ret ()) ;;
      modify_ui (setIsGenerating false)
  | _ => ret ()
  end.

(** What a task does once [await generateShot(...)] has settled: the two
    branches of its [try]/[catch].  [run_task] is [generateShot] followed
    by this step; other handlers may run in between. *)
Definition task_settles (type : ProductStyle) (settled : Outcome string)
  : M unit :=
  match settled with
  | Returned imageUrl => modify_shots (settle_success type imageUrl)
  | Thrown error => modify_shots (settle_failure "Failed to generate" type)
  end.

(** Handle editing: regenerate one shot with a modified prompt. *)
Definition handleEditShot (r : AppState) (type : ProductStyle)
    (customPrompt : string) : M unit :=
  match generatedShots r !! type with
  | Some currentShot =>
      if truthy_string (GeneratedImage.imageUrl currentShot) then
        modify_shots (mark_loading type) ;;
        try_catch
          (let definition := getShotDefinition type (subjectType r) in
           imageUrl <- editShot (productName r) (productDescription r)
                         definition customPrompt (aspectRatio r) ;;
           stamp <- now ;;
           let updatedShot :=
             {| GeneratedImage.id := GeneratedImage.id currentShot;
                GeneratedImage.shotType := GeneratedImage.shotType currentShot;
                GeneratedImage.imageUrl := Some imageUrl;
                GeneratedImage.isLoading := Some false;
                GeneratedImage.timestamp := Some stamp;
                GeneratedImage.subjectType :=
                  GeneratedImage.subjectType currentShot;
                GeneratedImage.error := GeneratedImage.error currentShot;
                GeneratedImage.customPrompt := Some customPrompt |} in
           (λ env w,
              let next := <[type := updatedShot]> (generatedShots (ui w)) in
              (modify_shots (λ _, next) ;;
               saveToHistory r next (currentProjectId r) ;;
               ret ()) env w) ;;
           match selectedShot r with
           | Some selected =>
               if decide (GeneratedImage.shotType selected = Some type)
               then modify_ui (setSelectedShot (Some updatedShot))
               else ret ()
           | None => ret ()
           end)
          (λ error, modify_shots (settle_failure "Edit failed" type))
      else ret ()
  | None => ret ()
  end.

(** The [onSelect] callback given to the subject type selector. *)
Definition onSelect (r : AppState) (type : SubjectType) : M unit :=
  modify_ui (setSubjectType type) ;;
  if decide (type ≠ subjectType r) then modify_ui (setGeneratedShots ∅)
  else ret ().

Definition handleReset (st : AppState) : AppState :=
  setCurrentProjectId None
    (setDetectionWarning None
       (setSubjectType PRODUCT
          (setProductCategory (JString "")
             (setProductDescription (JString "")
                (setProductName (JString "product")
                   (setIsGenerating false
                      (setSelectedShotIds ∅
                         (setGeneratedShots ∅ (setSourceImage None st))))))))).

Definition handleLoadProject (project : ProjectHistory) (st : AppState)
  : AppState :=
  setIsGenerating false
    (setIsDetecting false
       (setDetectionWarning None
          (setSelectedShotIds ∅
             (setCurrentProjectId (Some (ProjectHistory.id project))
                (setGeneratedShots (ProjectHistory.generatedShots project)
                   (setSubjectType (ProjectHistory.subjectType project)
                      (setProductCategory
                         (ProjectHistory.productCategory project)
                         (setProductDescription
                            (ProjectHistory.productDescription project)
                            (setProductName
                               (ProjectHistory.productName project)
                               (setSourceImage
                                  (Some (ProjectHistory.sourceImage project))
                                  st)))))))))).

(** ** App.tsx: selection, progress and what the page offers *)

(** The checkbox of a card: the selection of the render with [type]
    added or removed. *)
Definition toggleShotSelection (r : AppState) (type : ProductStyle)
    (st : AppState) : AppState :=
  let newSelection :=
    if decide (type ∈ selectedShotIds r)
    then selectedShotIds r ∖ {[type]}
    else selectedShotIds r ∪ {[type]} in
  setSelectedShotIds newSelection st.

(** [Object.keys(generatedShots).filter(key => activeStyles.includes(key))],
    made a set. *)
Definition handleSelectAll (r : AppState) (st : AppState) : AppState :=
  let activeIds :=
    filter (λ key, Array_includes (activeStyles r) key = true)
      (elements (dom (generatedShots r))) in
  setSelectedShotIds (list_to_set activeIds) st.

(** [selectedShotIds.has(shot.shotType) && shot.imageUrl] *)
Definition to_download (r : AppState) (shot : GeneratedImage) : bool :=
  match GeneratedImage.shotType shot with
  | Some type => bool_decide (type ∈ selectedShotIds r)
  | None => false
  end
  && truthy_string (GeneratedImage.imageUrl shot).

(** The shots that [handleBulkDownload] hands to the zip writer; with
    none it returns at once. *)
Definition shotsToDownload (r : AppState) : list GeneratedImage :=
  filter (λ shot, to_download r shot = true)
    (map snd (map_to_list (generatedShots r))).

(** [Object.keys(generatedShots).length > 0] *)
Definition hasGeneratedShots (r : AppState) : bool :=
  bool_decide (0 < size (generatedShots r))%nat.

(** [Object.values(generatedShots).filter(s => !s.isLoading).length] *)
Definition completedShotsCount (r : AppState) : nat :=
  length
    (filter (λ shot, default false (GeneratedImage.isLoading shot) = false)
       (map snd (map_to_list (generatedShots r)))).

(** The upload area is rendered instead of the workspace when there is
    no source image. *)
Definition offers_upload (r : AppState) : bool :=
  negb (truthy_string (sourceImage r)).

(** The button New: rendered with a source image, disabled while
    generating. *)
Definition offers_new (r : AppState) : bool :=
  truthy_string (sourceImage r) && negb (isGenerating r).

(** The button that calls [handleGenerate]: Generate Campaign when there
    are no shots (disabled while detecting), Regenerate All otherwise
    (rendered only when not generating). *)
Definition offers_generate (r : AppState) : bool :=
  truthy_string (sourceImage r)
  && (if hasGeneratedShots r then negb (isGenerating r)
      else negb (isDetecting r)).

(** ** services/historyService.ts: reading the store *)

(** The order of the index [by-date]: by timestamp, then by key. *)
Definition by_date (p1 p2 : ProjectHistory) : Prop :=
  ProjectHistory.timestamp p1 < ProjectHistory.timestamp p2
  ∨ (ProjectHistory.timestamp p1 = ProjectHistory.timestamp p2
     ∧ String.leb (ProjectHistory.id p1) (ProjectHistory.id p2) = true).

#[global] Instance by_date_dec p1 p2 : Decision (by_date p1 p2).
Proof. unfold by_date. apply _. Defined.

(** [db.getAllFromIndex(STORE_NAME, 'by-date')] *)
Definition getAllFromIndex_by_date (store : gmap string ProjectHistory)
  : list ProjectHistory :=
  merge_sort by_date (map snd (map_to_list store)).

(** Sorted by timestamp descending (newest first); the empty list when
    the database cannot be used. *)
Definition getAllProjects : M (list ProjectHistory) :=
  try_catch
    (λ env w,
       if idb_ok env (idb_uses w) then
         (Returned (reverse (getAllFromIndex_by_date (projects w))),
          {| ui := ui w; calls := calls w; clock_reads := clock_reads w;
             idb_uses := S (idb_uses w); projects := projects w;
             trace := trace w |})
       else
         (Thrown (new_Error "IndexedDB is not available"),
          {| ui := ui w; calls := calls w; clock_reads := clock_reads w;
             idb_uses := S (idb_uses w); projects := projects w;
             trace := trace w |}))
    (λ error, ret []).

(** ** components/HistoryDrawer.tsx

    The drawer keeps the listed projects in a state of its own; a handler
    returns the list the drawer shows afterwards. *)

(** [setProjects(await getAllProjects())] *)
Definition fetchProjects : M (list ProjectHistory) := getAllProjects.

(** After [window.confirm]: delete, then fetch again; [None] when the
    user declined and the list stays as it is. *)
Definition handleDelete (confirmed : bool) (id : string)
  : M (option (list ProjectHistory)) :=
  if confirmed then
    deleteProject id ;; data <- fetchProjects ;; ret (Some data)
  else ret None.

(** ** Vocabulary of the further properties *)

(** The delays among the events of a run, in order. *)
Fixpoint delays (events : list Event) : list Z :=
  match events with
  | [] => []
  | Wait ms :: rest => ms :: delays rest
  | _ :: rest => delays rest
  end.

(** [needle] occurs in [hay]. *)
Definition occurs_in (needle hay : string) : Prop :=
  ∃ before after, hay = before +:+ needle +:+ after.

(** No comma in [s]. *)
Definition comma_free (s : string) : Prop :=
  String_includes "," s = false.

(** ** The steps of the services, as worlds and outcomes *)

(** The world after the next backend call of a generation request. *)
Definition after_call (image ratio : string) (w : World) : World :=
  {| ui := ui w; calls := S (calls w); clock_reads := clock_reads w;
     idb_uses := idb_uses w; projects := projects w;
     trace := trace w ++ [CallGenerateContent "gemini-2.5-flash-image"
                            (Some image) (Some ratio)] |}.

(** The world after a delay. *)
Definition after_wait (ms : Z) (w : World) : World :=
  {| ui := ui w; calls := calls w; clock_reads := clock_reads w;
     idb_uses := idb_uses w; projects := projects w;
     trace := trace w ++ [Wait ms] |}.

(** How the n-th backend call ends for the [try] block around it: with the
    image, or with the error thrown by the call or by the block itself. *)
Definition attempt_outcome (env : Env) (n : nat) : Outcome string :=
  match generateContent env n with
  | Returned response =>
      match candidate_parts response with
      | Some parts =>
          match first_image parts with
          | Some url => Returned url
          | None => Thrown (new_Error "No image data found in response")
          end
      | None => Thrown (new_Error "No image data found in response")
      end
  | Thrown e => Thrown e
  end.

(** An event of a generation run: a request for this image with this
    ratio, or a backoff delay. *)
Definition generation_event (image ratio : string) (e : Event) : Prop :=
  e = CallGenerateContent "gemini-2.5-flash-image" (Some image) (Some ratio)
  ∨ ∃ ms, e = Wait ms.

(** The backend request of a generation run and its world. *)
Definition request (src : string) (ratio : AspectRatio) : Event :=
  CallGenerateContent "gemini-2.5-flash-image" (Some (getBase64Data src))
    (Some (mapToGeminiAspectRatio ratio)).

(** The world after the backend call of an edit. *)
Definition after_edit_call (ratio : string) (w : World) : World :=
  {| ui := ui w; calls := S (calls w); clock_reads := clock_reads w;
     idb_uses := idb_uses w; projects := projects w;
     trace := trace w ++ [CallGenerateContent "gemini-2.5-flash-image" None
                            (Some ratio)] |}.

(** How the call of an edit ends for the [try] block around it. *)
Definition edit_outcome (env : Env) (n : nat) : Outcome string :=
  match generateContent env n with
  | Returned response =>
      match candidate_parts response with
      | Some parts =>
          match first_image parts with
          | Some url => Returned url
          | None => Thrown (new_Error "No image returned from edit")
          end
      | None => Thrown (new_Error "No image returned from edit")
      end
  | Thrown e => Thrown e
  end.

(** The world after the backend call of the analyzer. *)
Definition after_analysis_call (base64 : string) (w : World) : World :=
  {| ui := ui w; calls := S (calls w); clock_reads := clock_reads w;
     idb_uses := idb_uses w; projects := projects w;
     trace := trace w ++ [CallGenerateContent "gemini-2.5-flash"
                            (Some (getBase64Data base64)) None] |}.

(** The text handed to [JSON.parse]. *)
Definition jsonStr_of (env : Env) (response : Response) : string :=
  String_trim env
    (String_remove_all "```"
       (String_remove_all "```json" (or_default (text response) ""))).

(** The analysis fails when the backend call is rejected, when its text
    is not JSON, or when the text is the JSON [null], whose properties
    cannot be read. *)
Definition analysis_fails (env : Env) (n : nat) : bool :=
  match generateContent env n with
  | Thrown _ => true
  | Returned response =>
      match JSON_parse env (jsonStr_of env response) with
      | None | Some JNull => true
      | Some _ => false
      end
  end.

(** [result.key] on a parsed document other than [null]: the value of
    the property, [undefined] ([None]) when the document has none. *)
Definition property_of (doc : Json) (key : string) : option Json :=
  default None (get_property doc key).

(** The world after a [put] that went through, and after a use of the
    database that did not. *)
Definition after_put (project : ProjectHistory) (w : World) : World :=
  {| ui := ui w; calls := calls w; clock_reads := clock_reads w;
     idb_uses := S (idb_uses w);
     projects := <[ProjectHistory.id project := project]> (projects w);
     trace := trace w ++ [Put project] |}.

Definition after_failed_use (w : World) : World :=
  {| ui := ui w; calls := calls w; clock_reads := clock_reads w;
     idb_uses := S (idb_uses w); projects := projects w; trace := trace w |}.

(** Only the clock was read between [w] and [w']. *)
Definition only_clock_read (w w' : World) : Prop :=
  ui w' = ui w ∧ calls w' = calls w ∧ idb_uses w' = idb_uses w
  ∧ projects w' = projects w ∧ trace w' = trace w.

(** The loading entry that [handleGenerate] creates for a style. *)
Definition is_loading_entry (r : AppState) (style : ProductStyle)
    (shot : GeneratedImage) : Prop :=
  GeneratedImage.shotType shot = Some style
  ∧ GeneratedImage.imageUrl shot = Some ""
  ∧ GeneratedImage.isLoading shot = Some true
  ∧ GeneratedImage.error shot = None
  ∧ GeneratedImage.customPrompt shot = None
  ∧ GeneratedImage.subjectType shot = Some (subjectType r).

(** ** What the card of a task shows

    [ShotCard] reads three flags off a task entry: [isLoading],
    [!!error] and [!!imageUrl]. *)

Inductive TaskStatus :=
  | Pending
  | Running
  | Succeeded (output : string)
  | Failed (reason : string).

(** The status the card shows for an entry. *)
Definition status_of (entry : option GeneratedImage) : TaskStatus :=
  match entry with
  | None => Pending
  | Some shot =>
      if default false (GeneratedImage.isLoading shot) then Running
      else if truthy_string (GeneratedImage.error shot)
      then Failed (default "" (GeneratedImage.error shot))
      else if truthy_string (GeneratedImage.imageUrl shot)
      then Succeeded (default "" (GeneratedImage.imageUrl shot))
      else Pending
  end.

(** The error recorded on an entry, if any. *)
Definition entry_error (entry : option GeneratedImage) : option string :=
  entry ≫= GeneratedImage.error.

(** The entry of a style is settled with the image or with the failure
    text. *)
Definition task_settled (entry : option GeneratedImage) : Prop :=
  (∃ shot, entry = Some shot ∧ GeneratedImage.isLoading shot = Some false)
  ∧ ((∃ url, status_of entry = Succeeded url)
     ∨ status_of entry = Failed "Failed to generate").

(** Every entry is stored under its own style. *)
Definition keyed_by_style (shots : Shots) : Prop :=
  ∀ style shot, shots !! style = Some shot →
                GeneratedImage.shotType shot = Some style.

(** ** Concrete environments, states and runs *)

Definition rate_limit_error : JsError :=
  {| status := JsNumber 429; code := JsUndefined;
     message := Some "Too Many Requests" |}.

Definition server_error : JsError :=
  {| status := JsNumber 500; code := JsUndefined;
     message := Some "Internal error" |}.

Definition image_response (bytes : string) : Response :=
  {| text := None;
     candidate_parts :=
       Some [ {| inlineData := None |};
              {| inlineData := Some {| data := Some bytes |} |} ] |}.

(** A backend that gives the listed answers in turn and then [otherwise];
    a clock that advances by one per reading; a store that works. *)
Definition scripted (answers : list (Outcome Response))
    (otherwise : Outcome Response) : Env :=
  {| generateContent := λ n, default otherwise (answers !! n);
     Date_now := λ n, 1700000000000 + Z.of_nat n;
     idb_ok := λ _, true;
     JSON_parse := λ _, None;
     String_trim := λ s, s;
     style_text := λ style, "style" +:+ pretty (ProductStyle.index style) |}.

(** An analyzer that answers with an empty JSON array where the object
    of the prompt was asked for; [JSON.parse] reads it as that array. *)
Definition array_answer : Env :=
  {| generateContent :=
       λ _, Returned {| text := Some "[]"; candidate_parts := None |};
     Date_now := λ n, 1700000000000 + Z.of_nat n;
     idb_ok := λ _, true;
     JSON_parse := λ s, if String.eqb s "[]" then Some (JArray []) else None;
     String_trim := λ s, s;
     style_text := λ style, "style" +:+ pretty (ProductStyle.index style) |}.

(** A backend that answers every call with an image. *)
Definition obliging : Env := scripted [] (Returned (image_response "QUJD")).

Definition example_image : string := "data:image/jpeg;base64,AAAA".

(** The component after a first image was selected and analysed. *)
Definition example_state : AppState :=
  setIsDetecting false (handleImageSelect_begin example_image initial_state).

(** A world in which nothing has happened yet. *)
Definition world_of (st : AppState) : World :=
  {| ui := st; calls := 0; clock_reads := 0; idb_uses := 0; projects := ∅;
     trace := [] |}.

Definition example_project : ProjectHistory :=
  {| ProjectHistory.id := "1700000000000";
     ProjectHistory.timestamp := 1700000000001;
     ProjectHistory.sourceImage := example_image;
     ProjectHistory.productName := JString "Subject";
     ProjectHistory.productDescription := JString "";
     ProjectHistory.productCategory := JString "general";
     ProjectHistory.subjectType := PRODUCT;
     ProjectHistory.generatedShots :=
       settle_success HERO "data:image/jpeg;base64,QUJD" ∅ |}.

(** The world after an uninterrupted generation run in which every call
    succeeded: nine settled tasks, saved once. *)
Definition settled_world : World :=
  (handleGenerate example_state obliging (world_of example_state)).2.

(** * Properties *)

(** ** JavaScript helpers *)

Lemma Array_includes_elem_of {A} `{EqDecision A} (l : list A) (x : A) :
  Array_includes l x = true ↔ x ∈ l.
Proof.
  unfold Array_includes. rewrite existsb_exists. split.
  - intros (y & Hy & Hb). apply bool_decide_eq_true in Hb. subst.
    by apply list_elem_of_In.
  - intros Hx. exists x. split; [by apply list_elem_of_In|].
    by apply bool_decide_eq_true.
Qed.

(** ** The shot definitions *)

Lemma HUMAN_STYLES_includes (style : ProductStyle) :
  Array_includes HUMAN_STYLES style = true ↔ style ∈ HUMAN_STYLES.
Proof. apply Array_includes_elem_of. Qed.

(** C10: [getShotDefinition] returns the style's definition with a quality
    suffix appended to its prompt template; the suffix is the human one
    exactly when the style is in the human catalog, the product one
    otherwise, and the [subjectType] argument has no effect. *)
Theorem getShotDefinition_suffix (style : ProductStyle) (subject : SubjectType) :
  let def := SHOT_DEFINITIONS style in
  let result := getShotDefinition style subject in
  ShotDefinition.id result = ShotDefinition.id def
  ∧ ShotDefinition.label result = ShotDefinition.label def
  ∧ ShotDefinition.description result = ShotDefinition.description def
  ∧ ShotDefinition.emotional result = ShotDefinition.emotional def
  ∧ (style ∈ HUMAN_STYLES →
     ShotDefinition.promptTemplate result
     = ShotDefinition.promptTemplate def +:+ HUMAN_QUALITY_SUFFIX)
  ∧ (style ∉ HUMAN_STYLES →
     ShotDefinition.promptTemplate result
     = ShotDefinition.promptTemplate def +:+ PRODUCT_QUALITY_SUFFIX)
  ∧ (∀ other : SubjectType, getShotDefinition style other = result).
Proof.
  cbv zeta. repeat split; try reflexivity.
  - intros Hin. apply HUMAN_STYLES_includes in Hin.
    unfold getShotDefinition. cbn [ShotDefinition.promptTemplate].
    by rewrite Hin.
  - intros Hnot. unfold getShotDefinition.
    cbn [ShotDefinition.promptTemplate].
    destruct (Array_includes HUMAN_STYLES style) eqn:E; [|done].
    by apply HUMAN_STYLES_includes in E.
Qed.

(** ** The retry loop of [generateShot] *)

Lemma generateShot_loop_step image def ratio attempt env w :
  (attempt ≤ MAX_RETRIES)%nat →
  generateShot_loop image def ratio attempt env w =
    match attempt_outcome env (calls w) with
    | Returned url => (Returned url, after_call image ratio w)
    | Thrown e =>
        if isRateLimit e && bool_decide (attempt < MAX_RETRIES)%nat
        then generateShot_loop image def ratio (S attempt) env
               (after_wait (backoff_delay attempt) (after_call image ratio w))
        else (Thrown e, after_call image ratio w)
    end.
Proof.
  intros Hle. rewrite generateShot_loop_equation_1.
  destruct (decide (attempt ≤ MAX_RETRIES)%nat) as [Hd|]; [|done]. simpl.
  unfold try_catch, bind, call_generateContent, attempt_outcome,
    image_of_response.
  destruct (generateContent env (calls w)) as [response|e]; simpl.
  - destruct (candidate_parts response) as [parts|]; simpl;
      [destruct (first_image parts); simpl|]; try reflexivity;
      by destruct (bool_decide (attempt < MAX_RETRIES)%nat).
  - by destruct (isRateLimit e && bool_decide (attempt < MAX_RETRIES)%nat).
Qed.

(** One turn of the loop, for an attempt within the bound. *)
Ltac loop_step :=
  rewrite generateShot_loop_step by (unfold MAX_RETRIES; lia);
  cbn [calls after_wait after_call].

(** The error the block throws by itself is not a rate limit error. *)
Lemma no_image_not_rate_limit :
  isRateLimit (new_Error "No image data found in response") = false.
Proof. reflexivity. Qed.

(** A rate limit error of an attempt is an error of the backend call. *)
Lemma rate_limited_attempt env n e :
  attempt_outcome env n = Thrown e → isRateLimit e = true →
  generateContent env n = Thrown e.
Proof.
  unfold attempt_outcome.
  destruct (generateContent env n) as [response|e']; [|by intros [= ->]].
  destruct (candidate_parts response) as [parts|];
    [destruct (first_image parts)|]; intros Ho Hr; try done;
    injection Ho as <-; by rewrite no_image_not_rate_limit in Hr.
Qed.

(** What every run of the loop keeps: it only adds requests and delays to
    the trace, makes at most [MAX_RETRIES + 1 - attempt] calls, and leaves
    the component state, the clock and the store alone. *)
Lemma generateShot_loop_frame image def ratio (k : nat) :
  ∀ attempt env w, (S MAX_RETRIES - attempt = k)%nat →
  (attempt ≤ S MAX_RETRIES)%nat →
  let w' := (generateShot_loop image def ratio attempt env w).2 in
  ui w' = ui w ∧ clock_reads w' = clock_reads w
  ∧ idb_uses w' = idb_uses w ∧ projects w' = projects w
  ∧ (calls w ≤ calls w')%nat
  ∧ (calls w' + attempt ≤ calls w + S MAX_RETRIES)%nat
  ∧ ∃ events, trace w' = trace w ++ events
              ∧ Forall (generation_event image ratio) events.
Proof.
  induction k as [|k IH]; intros attempt env w Hk Hle.
  - assert (attempt = S MAX_RETRIES) as -> by lia.
    rewrite generateShot_loop_equation_1. simpl.
    repeat split; try lia. exists []. by rewrite app_nil_r.
  - assert (attempt ≤ MAX_RETRIES)%nat as Hin by lia.
    rewrite generateShot_loop_step by done.
    destruct (attempt_outcome env (calls w)) as [url|e].
    + simpl. repeat split; try lia. eexists. split; [done|].
      constructor; [by left|constructor].
    + destruct (isRateLimit e && bool_decide (attempt < MAX_RETRIES)%nat).
      * destruct (IH (S attempt) env
                    (after_wait (backoff_delay attempt)
                       (after_call image ratio w)))
          as (Hui & Hclock & Hidb & Hproj & Hc1 & Hc2 & events & Htr & Hall);
          [lia|lia|].
        cbv zeta. rewrite Hui, Hclock, Hidb, Hproj. simpl in *.
        repeat split; try lia.
        exists ([CallGenerateContent "gemini-2.5-flash-image" (Some image)
                   (Some ratio); Wait (backoff_delay attempt)] ++ events).
        split; [by rewrite Htr, <- !app_assoc|].
        apply Forall_app. split; [|done].
        constructor; [by left|]. constructor; [right; eauto|constructor].
      * simpl. repeat split; try lia. eexists. split; [done|].
        constructor; [by left|constructor].
Qed.

(** No run of [generateShot] makes a fifth call, whatever the backend
    answers, and it leaves the component state alone. *)
Lemma generateShot_at_most_four_calls src def name desc ratio env w :
  let w' := (generateShot src def name desc ratio env w).2 in
  (calls w ≤ calls w' ≤ calls w + 4)%nat ∧ ui w' = ui w.
Proof.
  unfold generateShot.
  destruct (generateShot_loop_frame (getBase64Data src) def
              (mapToGeminiAspectRatio ratio) (S MAX_RETRIES) 0%nat env w)
    as (Hui & _ & _ & _ & Hc1 & Hc2 & _); [done|unfold MAX_RETRIES; lia|].
  cbv zeta. unfold MAX_RETRIES in *. split; [lia|done].
Qed.

(** The [throw] after the loop is never reached: an error thrown by
    [generateShot] is the error of one of its at most four attempts. *)
Lemma generateShot_throws_attempt_error src def name desc ratio env w e :
  (generateShot src def name desc ratio env w).1 = Thrown e →
  ∃ n, (n < 4)%nat ∧ attempt_outcome env (calls w + n) = Thrown e.
Proof.
  unfold generateShot. loop_step.
  destruct (attempt_outcome env (calls w)) as [|e1] eqn:H1; [done|].
  destruct (isRateLimit e1 && _); cycle 1.
  { intros [= ->]. exists 0%nat. rewrite Nat.add_0_r. split; [lia|done]. }
  loop_step.
  destruct (attempt_outcome env (S (calls w))) as [|e2] eqn:H2; [done|].
  destruct (isRateLimit e2 && _); cycle 1.
  { intros [= ->]. exists 1%nat. rewrite Nat.add_1_r. split; [lia|done]. }
  loop_step.
  destruct (attempt_outcome env (S (S (calls w)))) as [|e3] eqn:H3; [done|].
  destruct (isRateLimit e3 && _); cycle 1.
  { intros [= ->]. exists 2%nat.
    replace (calls w + 2)%nat with (S (S (calls w))) by lia.
    split; [lia|done]. }
  loop_step.
  destruct (attempt_outcome env (S (S (S (calls w))))) as [|e4] eqn:H4;
    [done|].
  rewrite andb_false_r. intros [= ->]. exists 3%nat.
  replace (calls w + 3)%nat with (S (S (S (calls w)))) by lia.
  split; [lia|done].
Qed.

(** ** The aspect ratio sent to the backend *)

Lemma mapToGeminiAspectRatio_table :
  mapToGeminiAspectRatio "2:3" = "3:4"
  ∧ mapToGeminiAspectRatio "3:2" = "4:3"
  ∧ mapToGeminiAspectRatio "21:9" = "16:9".
Proof. by repeat split. Qed.

Lemma mapToGeminiAspectRatio_supported (ratio : AspectRatio) :
  ratio ∈ GEMINI_SUPPORTED → mapToGeminiAspectRatio ratio = ratio.
Proof.
  unfold GEMINI_SUPPORTED. rewrite !elem_of_cons, elem_of_nil.
  intros Hin. repeat (destruct Hin as [Heq|Hin]; [by subst|]). done.
Qed.

Lemma editShot_run name desc def prompt ratio env w :
  editShot name desc def prompt ratio env w
  = (edit_outcome env (calls w),
     after_edit_call (mapToGeminiAspectRatio ratio) w).
Proof.
  unfold editShot, try_catch, bind, call_generateContent, edit_outcome,
    image_of_response, after_edit_call.
  destruct (generateContent env (calls w)) as [response|e]; simpl; [|done].
  destruct (candidate_parts response) as [parts|]; simpl; [|done].
  by destruct (first_image parts).
Qed.

(** C5: for every selectable aspect ratio, the ratio that goes to the
    backend is the one of the fixed table: 2:3 becomes 3:4, 3:2 becomes
    4:3, 21:9 becomes 16:9, and a ratio the backend supports (1:1, 3:4,
    4:3, 9:16, 16:9) goes through unchanged; every request of a generation
    and the request of an edit carry that ratio. *)
Theorem selectable_ratio_sent_to_backend (ratio : AspectRatio) :
  ratio ∈ ASPECT_RATIOS →
  mapToGeminiAspectRatio ratio ∈ GEMINI_SUPPORTED
  ∧ (ratio = "2:3" → mapToGeminiAspectRatio ratio = "3:4")
  ∧ (ratio = "3:2" → mapToGeminiAspectRatio ratio = "4:3")
  ∧ (ratio = "21:9" → mapToGeminiAspectRatio ratio = "16:9")
  ∧ (ratio ∈ GEMINI_SUPPORTED → mapToGeminiAspectRatio ratio = ratio)
  ∧ (∀ src def name desc env w,
       ∃ events,
         trace (generateShot src def name desc ratio env w).2
         = trace w ++ request src ratio :: events
         ∧ Forall (generation_event (getBase64Data src)
                     (mapToGeminiAspectRatio ratio)) events)
  ∧ (∀ name desc def prompt env w,
       trace (editShot name desc def prompt ratio env w).2
       = trace w ++ [CallGenerateContent "gemini-2.5-flash-image" None
                       (Some (mapToGeminiAspectRatio ratio))]).
Proof.
  intros Hsel.
  split.
  { unfold ASPECT_RATIOS in Hsel. rewrite !elem_of_cons, elem_of_nil in Hsel.
    unfold GEMINI_SUPPORTED.
    repeat (destruct Hsel as [->|Hsel]; [set_solver|]). done. }
  split; [by intros ->|]. split; [by intros ->|]. split; [by intros ->|].
  split; [apply mapToGeminiAspectRatio_supported|].
  split.
  - intros src def name desc env w. unfold generateShot. loop_step.
    destruct (attempt_outcome env (calls w)) as [url|e].
    { exists []. by split. }
    destruct (isRateLimit e && _); [|exists []; by split].
    destruct (generateShot_loop_frame (getBase64Data src) def
                (mapToGeminiAspectRatio ratio) MAX_RETRIES 1%nat env
                (after_wait (backoff_delay 0)
                   (after_call (getBase64Data src)
                      (mapToGeminiAspectRatio ratio) w)))
      as (_ & _ & _ & _ & _ & _ & events & Htr & Hall);
      [done|unfold MAX_RETRIES; lia|].
    exists (Wait (backoff_delay 0) :: events). split.
    + rewrite Htr. simpl. by rewrite <- !app_assoc.
    + constructor; [right; eauto|done].
  - intros. by rewrite editShot_run.
Qed.

Lemma selectable_ratio_sent_to_backend_ultrawide :
  mapToGeminiAspectRatio "21:9" ∈ GEMINI_SUPPORTED
  ∧ ("21:9" = "2:3" → mapToGeminiAspectRatio "21:9" = "3:4")
  ∧ ("21:9" = "3:2" → mapToGeminiAspectRatio "21:9" = "4:3")
  ∧ ("21:9" = "21:9" → mapToGeminiAspectRatio "21:9" = "16:9")
  ∧ ("21:9" ∈ GEMINI_SUPPORTED → mapToGeminiAspectRatio "21:9" = "21:9")
  ∧ (∀ src def name desc env w,
       ∃ events,
         trace (generateShot src def name desc "21:9" env w).2
         = trace w ++ request src "21:9" :: events
         ∧ Forall (generation_event (getBase64Data src)
                     (mapToGeminiAspectRatio "21:9")) events)
  ∧ (∀ name desc def prompt env w,
       trace (editShot name desc def prompt "21:9" env w).2
       = trace w ++ [CallGenerateContent "gemini-2.5-flash-image" None
                       (Some (mapToGeminiAspectRatio "21:9"))]).
Proof.
  apply (selectable_ratio_sent_to_backend "21:9").
  unfold ASPECT_RATIOS. repeat constructor.
Defined.

(** ** The tasks of a batch *)

Lemma run_task_split r src type env w :
  run_task r src type env w =
    let '(settled, w1) :=
      generateShot src (getShotDefinition type (subjectType r))
        (productName r) (productDescription r) (aspectRatio r) env w in
    task_settles type settled env w1.
Proof.
  unfold run_task, try_catch, bind.
  by destruct (generateShot _ _ _ _ _ env w) as [[url|e] w1].
Qed.

(** Between the call and its settlement a task does not touch the state:
    [run_task] is the backend calls, which leave the state alone, and then
    the settlement on whatever state is current. *)
Lemma run_task_settles_on_current_state r src type env w :
  let '(settled, w1) :=
    generateShot src (getShotDefinition type (subjectType r))
      (productName r) (productDescription r) (aspectRatio r) env w in
  ui w1 = ui w ∧ run_task r src type env w = task_settles type settled env w1.
Proof.
  pose proof (generateShot_at_most_four_calls src
                (getShotDefinition type (subjectType r)) (productName r)
                (productDescription r) (aspectRatio r) env w) as [_ Hui].
  rewrite run_task_split.
  by destruct (generateShot _ _ _ _ _ env w) as [settled w1].
Qed.

Lemma first_image_truthy parts url :
  first_image parts = Some url → truthy_string (Some url) = true.
Proof.
  induction parts as [|part rest IH]; [done|]. simpl.
  destruct (inlineData part) as [[[[|c d]|]]|]; try done.
  by intros [= <-].
Qed.

Lemma attempt_outcome_truthy env n url :
  attempt_outcome env n = Returned url → truthy_string (Some url) = true.
Proof.
  unfold attempt_outcome.
  destruct (generateContent env n) as [response|]; [|done].
  destruct (candidate_parts response) as [parts|]; [|done].
  destruct (first_image parts) as [u|] eqn:E; [|done].
  intros [= <-]. by eapply first_image_truthy.
Qed.

Lemma status_settle_success type url prev :
  truthy_string (Some url) = true →
  entry_error (prev !! type) = None →
  status_of (settle_success type url prev !! type) = Succeeded url.
Proof.
  intros Hurl Herr. unfold settle_success. rewrite lookup_insert_eq.
  destruct url as [|c u]; [done|].
  destruct (prev !! type) as [old|]; simpl in *; [|done].
  by rewrite Herr.
Qed.

Lemma status_settle_failure text type prev :
  truthy_string (Some text) = true →
  status_of (settle_failure text type prev !! type) = Failed text.
Proof.
  intros Htext. unfold settle_failure. rewrite lookup_insert_eq.
  by destruct text.
Qed.

(** C3: a task whose call is rejected with a rate limit error on the
    attempts 1, 2 and 3 and answered with an image on attempt 4 ends
    succeeded with that image, after four calls; the delays before the
    retries are 2000 ms, 4000 ms and 8000 ms in that order, the delay
    before retry n being 2^(n+1) * 1000 ms. *)
Theorem rate_limited_thrice_then_success r src type env w e1 e2 e3 url :
  attempt_outcome env (calls w) = Thrown e1 → isRateLimit e1 = true →
  attempt_outcome env (calls w + 1)%nat = Thrown e2 → isRateLimit e2 = true →
  attempt_outcome env (calls w + 2)%nat = Thrown e3 → isRateLimit e3 = true →
  attempt_outcome env (calls w + 3)%nat = Returned url →
  entry_error (generatedShots (ui w) !! type) = None →
  ∃ w',
    run_task r src type env w = (Returned (), w')
    ∧ status_of (generatedShots (ui w') !! type) = Succeeded url
    ∧ calls w' = (calls w + 4)%nat
    ∧ trace w' =
        trace w ++ [request src (aspectRatio r); Wait 2000;
                    request src (aspectRatio r); Wait 4000;
                    request src (aspectRatio r); Wait 8000;
                    request src (aspectRatio r)]
    ∧ (∀ n : nat, backoff_delay n = 2 ^ (Z.of_nat n + 1) * 1000).
Proof.
  intros H1 R1 H2 R2 H3 R3 H4 Herr.
  replace (calls w + 1)%nat with (S (calls w)) in H2 by lia.
  replace (calls w + 2)%nat with (S (S (calls w))) in H3 by lia.
  replace (calls w + 3)%nat with (S (S (S (calls w)))) in H4 by lia.
  eexists. rewrite run_task_split. unfold generateShot.
  loop_step. rewrite H1, R1. simpl.
  loop_step. rewrite H2, R2. simpl.
  loop_step. rewrite H3, R3. simpl.
  loop_step. rewrite H4. simpl.
  split; [reflexivity|]. simpl.
  split; [|split; [lia|split; [|done]]].
  - apply status_settle_success; [by eapply attempt_outcome_truthy|done].
  - rewrite <- !app_assoc. reflexivity.
Qed.

Lemma rate_limited_thrice_then_success_run :
  ∃ w',
    run_task example_state example_image HERO
      (scripted [Thrown rate_limit_error; Thrown rate_limit_error;
                 Thrown rate_limit_error; Returned (image_response "QUJD")]
         (Thrown server_error))
      (world_of example_state) = (Returned (), w')
    ∧ status_of (generatedShots (ui w') !! HERO)
      = Succeeded "data:image/jpeg;base64,QUJD"
    ∧ calls w' = 4%nat
    ∧ trace w' =
        [request example_image "3:4"; Wait 2000;
         request example_image "3:4"; Wait 4000;
         request example_image "3:4"; Wait 8000;
         request example_image "3:4"]
    ∧ (∀ n : nat, backoff_delay n = 2 ^ (Z.of_nat n + 1) * 1000).
Proof.
  apply (rate_limited_thrice_then_success example_state example_image HERO
           (scripted [Thrown rate_limit_error; Thrown rate_limit_error;
                      Thrown rate_limit_error;
                      Returned (image_response "QUJD")]
              (Thrown server_error))
           (world_of example_state)
           rate_limit_error rate_limit_error rate_limit_error
           "data:image/jpeg;base64,QUJD"); reflexivity.
Defined.

(** C4: a task whose first call fails with an error that is not a rate
    limit error ends failed at once: one call, no delay, no retry, and the
    failure is recorded on that task. *)
Theorem other_error_fails_at_once r src type env w e :
  attempt_outcome env (calls w) = Thrown e → isRateLimit e = false →
  ∃ w',
    run_task r src type env w = (Returned (), w')
    ∧ status_of (generatedShots (ui w') !! type) = Failed "Failed to generate"
    ∧ calls w' = S (calls w)
    ∧ trace w' = trace w ++ [request src (aspectRatio r)]
    ∧ (∀ ms, Wait ms ∉ [request src (aspectRatio r)])
    ∧ generateShot src (getShotDefinition type (subjectType r))
        (productName r) (productDescription r) (aspectRatio r) env w
      = (Thrown e, after_call (getBase64Data src)
                     (mapToGeminiAspectRatio (aspectRatio r)) w).
Proof.
  intros H1 R1. eexists. rewrite run_task_split. unfold generateShot.
  loop_step. rewrite H1, R1. simpl.
  split; [reflexivity|]. simpl.
  split; [by apply status_settle_failure|]. split; [done|].
  split; [done|]. split; [|done].
  intros ms Hin. apply list_elem_of_singleton in Hin. discriminate Hin.
Qed.

Lemma other_error_fails_at_once_run :
  ∃ w',
    run_task example_state example_image HERO
      (scripted [Thrown server_error] (Returned (image_response "QUJD")))
      (world_of example_state)
    = (Returned (), w')
    ∧ status_of (generatedShots (ui w') !! HERO) = Failed "Failed to generate"
    ∧ calls w' = 1%nat
    ∧ trace w' = [request example_image "3:4"]
    ∧ (∀ ms, Wait ms ∉ [request example_image "3:4"])
    ∧ generateShot example_image (getShotDefinition HERO PRODUCT)
        (JString "product") (JString "") "3:4"
        (scripted [Thrown server_error] (Returned (image_response "QUJD")))
        (world_of example_state)
      = (Thrown server_error,
         after_call (getBase64Data example_image)
           (mapToGeminiAspectRatio "3:4") (world_of example_state)).
Proof.
  apply (other_error_fails_at_once example_state example_image HERO
           (scripted [Thrown server_error] (Returned (image_response "QUJD")))
           (world_of example_state) server_error); reflexivity.
Defined.

(** C2, as the code has it: a task whose call is rejected with a rate
    limit error on all four attempts ends failed after exactly four calls
    and the three delays, no fifth call being made; the reason recorded on
    the task is the fixed text that [handleGenerate] records for every
    failed generation. *)
Theorem rate_limited_four_times_fails r src type env w e1 e2 e3 e4 :
  attempt_outcome env (calls w) = Thrown e1 → isRateLimit e1 = true →
  attempt_outcome env (calls w + 1)%nat = Thrown e2 → isRateLimit e2 = true →
  attempt_outcome env (calls w + 2)%nat = Thrown e3 → isRateLimit e3 = true →
  attempt_outcome env (calls w + 3)%nat = Thrown e4 → isRateLimit e4 = true →
  ∃ w',
    run_task r src type env w = (Returned (), w')
    ∧ status_of (generatedShots (ui w') !! type) = Failed "Failed to generate"
    ∧ calls w' = (calls w + 4)%nat
    ∧ trace w' =
        trace w ++ [request src (aspectRatio r); Wait 2000;
                    request src (aspectRatio r); Wait 4000;
                    request src (aspectRatio r); Wait 8000;
                    request src (aspectRatio r)].
Proof.
  intros H1 R1 H2 R2 H3 R3 H4 R4.
  replace (calls w + 1)%nat with (S (calls w)) in H2 by lia.
  replace (calls w + 2)%nat with (S (S (calls w))) in H3 by lia.
  replace (calls w + 3)%nat with (S (S (S (calls w)))) in H4 by lia.
  eexists. rewrite run_task_split. unfold generateShot.
  loop_step. rewrite H1, R1. simpl.
  loop_step. rewrite H2, R2. simpl.
  loop_step. rewrite H3, R3. simpl.
  loop_step. rewrite H4, R4. simpl.
  split; [reflexivity|]. simpl.
  split; [by apply status_settle_failure|]. split; [lia|].
  rewrite <- !app_assoc. reflexivity.
Qed.

Lemma rate_limited_four_times_fails_run :
  ∃ w',
    run_task example_state example_image HERO
      (scripted [] (Thrown rate_limit_error)) (world_of example_state)
    = (Returned (), w')
    ∧ status_of (generatedShots (ui w') !! HERO) = Failed "Failed to generate"
    ∧ calls w' = 4%nat
    ∧ trace w' =
        [request example_image "3:4"; Wait 2000;
         request example_image "3:4"; Wait 4000;
         request example_image "3:4"; Wait 8000;
         request example_image "3:4"].
Proof.
  apply (rate_limited_four_times_fails example_state example_image HERO
           (scripted [] (Thrown rate_limit_error)) (world_of example_state)
           rate_limit_error rate_limit_error rate_limit_error
           rate_limit_error); reflexivity.
Defined.

(** C2 as stated fails: after four rate limit errors the error that
    [generateShot] throws is the backend's own fourth error, not the error
    that speaks of retries, and the task entry is the very entry that a
    failure without any retry leaves, so the recorded reason does not tell
    exhausted retries. *)
Lemma exhausted_retries_not_told :
  let exhausted :=
    (run_task example_state example_image HERO
       (scripted [] (Thrown rate_limit_error)) (world_of example_state)).2 in
  let refused :=
    (run_task example_state example_image HERO
       (scripted [] (Thrown server_error)) (world_of example_state)).2 in
  calls exhausted = 4%nat
  ∧ calls refused = 1%nat
  ∧ generatedShots (ui exhausted) !! HERO = generatedShots (ui refused) !! HERO
  ∧ entry_error (generatedShots (ui exhausted) !! HERO)
    = Some "Failed to generate"
  ∧ (generateShot example_image (getShotDefinition HERO PRODUCT)
       (JString "product") (JString "") "3:4"
       (scripted [] (Thrown rate_limit_error)) (world_of example_state)).1
    = Thrown rate_limit_error
  ∧ Thrown (A := string) rate_limit_error
    ≠ Thrown (new_Error "Failed to generate shot style0 after 3 retries").
Proof. cbv zeta. repeat split; try reflexivity. discriminate. Qed.

(** ** The project store *)

(** [saveProject] never throws: it stores the project, or logs the failure
    and leaves the store as it was. *)
Lemma saveProject_run project env w :
  saveProject project env w =
    (Returned (),
     if idb_ok env (idb_uses w) then after_put project w
     else after_failed_use w).
Proof.
  unfold saveProject, try_catch, db_put, with_db.
  by destruct (idb_ok env (idb_uses w)).
Qed.

(** C9: saving is idempotent per project id.  With the database at hand,
    saving the same project twice leaves the store as saving it once; a
    save overwrites what was stored under that id, so of two saves under
    one id the later content is what the store holds, nothing of the
    earlier one is merged in, and the other projects are untouched. *)
Theorem saveProject_idempotent project env w :
  idb_ok env (idb_uses w) = true →
  idb_ok env (S (idb_uses w)) = true →
  let once := (saveProject project env w).2 in
  let twice := (saveProject project env once).2 in
  projects twice = projects once
  ∧ projects once = <[ProjectHistory.id project := project]> (projects w)
  ∧ (∀ later,
       ProjectHistory.id later = ProjectHistory.id project →
       projects (saveProject later env once).2
       = <[ProjectHistory.id project := later]> (projects w))
  ∧ (∀ key,
       key ≠ ProjectHistory.id project →
       projects twice !! key = projects w !! key).
Proof.
  intros Hok1 Hok2. cbv zeta. rewrite !saveProject_run, Hok1. simpl.
  rewrite Hok2. simpl. split; [apply insert_insert_eq|].
  split; [done|]. split.
  - intros later Hid. rewrite saveProject_run. simpl. rewrite Hok2. simpl.
    rewrite Hid. apply insert_insert_eq.
  - intros key Hne. by rewrite !lookup_insert_ne.
Qed.

Lemma saveProject_idempotent_run :
  let env := scripted [] (Thrown server_error) in
  let once := (saveProject example_project env (world_of example_state)).2 in
  let twice := (saveProject example_project env once).2 in
  projects twice = projects once
  ∧ projects once = <["1700000000000" := example_project]> ∅
  ∧ (∀ later,
       ProjectHistory.id later = "1700000000000" →
       projects (saveProject later env once).2
       = <["1700000000000" := later]> ∅)
  ∧ (∀ key,
       key ≠ "1700000000000" →
       projects twice !! key = (∅ : gmap string ProjectHistory) !! key).
Proof.
  apply (saveProject_idempotent example_project
           (scripted [] (Thrown server_error)) (world_of example_state));
    reflexivity.
Defined.

(** [saveToHistory] never throws and does not touch the shots; with a
    source image in the render and the database at hand it puts one
    snapshot, which holds exactly the shots it was given, under the
    project id it was given when there is one. *)
Lemma saveToHistory_run r shots pid env w :
  ∃ res w',
    saveToHistory r shots pid env w = (Returned res, w')
    ∧ generatedShots (ui w') = generatedShots (ui w)
    ∧ selectedShot (ui w') = selectedShot (ui w)
    ∧ calls w' = calls w
    ∧ (truthy_string (sourceImage r) = true →
       idb_ok env (idb_uses w) = true →
       ∃ project,
         projects w' = <[ProjectHistory.id project := project]> (projects w)
         ∧ trace w' = trace w ++ [Put project]
         ∧ ProjectHistory.generatedShots project = shots
         ∧ Some (ProjectHistory.sourceImage project) = sourceImage r
         ∧ (truthy_string pid = true → Some (ProjectHistory.id project) = pid)).
Proof.
  unfold saveToHistory.
  destruct (sourceImage r) as [[|c src]|]; try (by eexists _, _; cbv [ret]).
  destruct pid as [[|c' p]|]; cbn [truthy_string];
    cbv [bind ret now modify_ui]; rewrite saveProject_run;
    cbn [idb_uses]; destruct (idb_ok env (idb_uses w));
    eexists _, _; (split; [reflexivity|]); simpl;
    repeat split; try done; intros _ Hok; try done;
    eexists; simpl; repeat split; done.
Qed.

(** Saving the same batch twice under one project id leaves one snapshot
    under that id, the one written last; it is the first one with a new
    timestamp: id, source image, name, description, category, subject
    type and shots are those of the first, taken from the render. *)
Lemma saveToHistory_twice r shots pid env w :
  truthy_string (sourceImage r) = true →
  truthy_string pid = true →
  idb_ok env (idb_uses w) = true →
  idb_ok env (S (idb_uses w)) = true →
  let once := (saveToHistory r shots pid env w).2 in
  let twice := (saveToHistory r shots pid env once).2 in
  ∃ first second,
    projects once = <[default "" pid := first]> (projects w)
    ∧ projects twice = <[default "" pid := second]> (projects w)
    ∧ ProjectHistory.generatedShots first = shots
    ∧ ProjectHistory.generatedShots second = shots
    ∧ ProjectHistory.timestamp first = Date_now env (clock_reads w)
    ∧ ProjectHistory.timestamp second = Date_now env (S (clock_reads w))
    ∧ Some (ProjectHistory.id first) = pid
    ∧ Some (ProjectHistory.sourceImage first) = sourceImage r
    ∧ ProjectHistory.productName first = productName r
    ∧ ProjectHistory.productDescription first = productDescription r
    ∧ ProjectHistory.productCategory first = productCategory r
    ∧ ProjectHistory.subjectType first = subjectType r
    ∧ second
      = {| ProjectHistory.id := ProjectHistory.id first;
           ProjectHistory.timestamp := Date_now env (S (clock_reads w));
           ProjectHistory.sourceImage := ProjectHistory.sourceImage first;
           ProjectHistory.productName := ProjectHistory.productName first;
           ProjectHistory.productDescription :=
             ProjectHistory.productDescription first;
           ProjectHistory.productCategory :=
             ProjectHistory.productCategory first;
           ProjectHistory.subjectType := ProjectHistory.subjectType first;
           ProjectHistory.generatedShots :=
             ProjectHistory.generatedShots first |}.
Proof.
  intros Hsrc Hpid Hok1 Hok2. cbv zeta. unfold saveToHistory.
  destruct (sourceImage r) as [[|c src]|]; try done.
  destruct pid as [[|c' p]|]; try done. cbn [truthy_string default].
  cbv [bind ret now]. rewrite !saveProject_run. cbn [idb_uses].
  rewrite Hok1. cbn [snd after_put idb_uses clock_reads projects].
  rewrite Hok2. cbn [snd after_put idb_uses clock_reads projects].
  eexists _, _. split; [reflexivity|].
  split; [apply insert_insert_eq|]. by repeat split.
Qed.

(** ** The batch of a generation run *)

Lemma initial_shots_run r (styles : list ProductStyle) :
  ∀ (acc : Shots) env w,
  ∃ shots w',
    initial_shots r styles acc env w = (Returned shots, w')
    ∧ only_clock_read w w'
    ∧ dom shots = list_to_set styles ∪ dom acc
    ∧ (∀ style, style ∈ styles →
         ∃ shot, shots !! style = Some shot ∧ is_loading_entry r style shot)
    ∧ (∀ style, style ∉ styles → shots !! style = acc !! style).
Proof.
  induction styles as [|type rest IH]; intros acc env w.
  - exists acc, w. simpl. unfold ret, only_clock_read.
    split; [done|]. split; [done|]. split; [set_solver|].
    split; [intros style Hin; by apply elem_of_nil in Hin|done].
  - simpl. unfold bind at 1. unfold now at 1. unfold bind at 1.
    unfold now at 1. unfold bind at 1. unfold ret at 1. simpl.
    match goal with
    | |- context [initial_shots r rest ?acc' env ?w1] =>
        destruct (IH acc' env w1)
          as (shots & w' & Hrun & Hclock & Hdom & Hin & Hout)
    end.
    exists shots, w'. split; [done|].
    split; [destruct Hclock as (?&?&?&?&?); by repeat split|].
    split; [rewrite Hdom, dom_insert_L; set_solver|].
    split.
    + intros style Hstyle.
      destruct (decide (style ∈ rest)) as [Hrest|Hrest]; [by apply Hin|].
      apply elem_of_cons in Hstyle as [->|]; [|done].
      rewrite Hout by done. rewrite lookup_insert_eq.
      eexists. split; [done|]. by repeat split.
    + intros style Hstyle. apply not_elem_of_cons in Hstyle as [Hne Hrest].
      rewrite Hout by done. by rewrite lookup_insert_ne.
Qed.

Lemma activeStyles_catalog r :
  NoDup (activeStyles r) ∧ length (activeStyles r) = 9%nat
  ∧ (activeStyles r = HUMAN_STYLES ∧ subjectType r = HUMAN
     ∨ activeStyles r = PRODUCT_STYLES ∧ subjectType r ≠ HUMAN).
Proof.
  unfold activeStyles. destruct (decide (subjectType r = HUMAN)).
  - split; [by apply (bool_decide_unpack _)|]. split; [done|by left].
  - split; [by apply (bool_decide_unpack _)|]. split; [done|by right].
Qed.

(** The two catalogs share no style. *)
Lemma catalogs_disjoint (style : ProductStyle) :
  style ∈ PRODUCT_STYLES → style ∉ HUMAN_STYLES.
Proof.
  intros Hp Hh. apply HUMAN_STYLES_includes in Hh.
  unfold PRODUCT_STYLES in Hp. rewrite !elem_of_cons, elem_of_nil in Hp.
  repeat (destruct Hp as [->|Hp]; [discriminate Hh|]). done.
Qed.

Lemma handleGenerate_begin_run r env w :
  ∃ pid w',
    handleGenerate_begin r env w = (Returned pid, w')
    ∧ dom (generatedShots (ui w')) = list_to_set (activeStyles r)
    ∧ (∀ style, style ∈ activeStyles r →
         ∃ shot, generatedShots (ui w') !! style = Some shot
                 ∧ is_loading_entry r style shot)
    ∧ isGenerating (ui w') = true
    ∧ sourceImage (ui w') = sourceImage (ui w)
    ∧ subjectType (ui w') = subjectType (ui w)
    ∧ (truthy_string (currentProjectId r) = true →
       Some pid = currentProjectId r
       ∧ currentProjectId (ui w') = currentProjectId (ui w))
    ∧ (truthy_string (currentProjectId r) = false →
       pid = pretty (Date_now env (clock_reads w))
       ∧ currentProjectId (ui w') = Some pid)
    ∧ calls w' = calls w ∧ projects w' = projects w ∧ trace w' = trace w.
Proof.
  unfold handleGenerate_begin.
  destruct (truthy_string (currentProjectId r)) eqn:Hpid.
  - unfold bind at 1. unfold modify_ui at 1. unfold bind at 1.
    unfold modify_ui at 1. unfold bind at 1. unfold ret at 1.
    unfold bind at 1.
    match goal with
    | |- context [initial_shots r ?l ?acc env ?w1] =>
        destruct (initial_shots_run r l acc env w1)
          as (shots & w' & Hrun & (Hui & Hcalls & Hidb & Hproj & Htr)
              & Hdom & Hin & Hout)
    end.
    rewrite Hrun. unfold bind, modify_ui, ret. simpl in *.
    eexists _, _. split; [done|]. simpl. rewrite Hui. simpl.
    split; [rewrite Hdom; set_solver|]. split; [done|].
    repeat split; try done.
    destruct (currentProjectId r) as [[|]|]; done.
  - unfold bind at 1. unfold modify_ui at 1. unfold bind at 1.
    unfold modify_ui at 1. unfold bind at 1. unfold bind at 1.
    unfold now at 1. unfold bind at 1. unfold modify_ui at 1.
    unfold ret at 1. unfold bind at 1.
    match goal with
    | |- context [initial_shots r ?l ?acc env ?w1] =>
        destruct (initial_shots_run r l acc env w1)
          as (shots & w' & Hrun & (Hui & Hcalls & Hidb & Hproj & Htr)
              & Hdom & Hin & Hout)
    end.
    rewrite Hrun. unfold bind, modify_ui, ret. simpl in *.
    eexists _, _. split; [done|]. simpl. rewrite Hui. simpl.
    split; [rewrite Hdom; set_solver|]. split; [done|].
    by repeat split.
Qed.

Lemma run_task_dom r src type env w :
  ∃ w',
    run_task r src type env w = (Returned (), w')
    ∧ dom (generatedShots (ui w')) = {[type]} ∪ dom (generatedShots (ui w)).
Proof.
  pose proof (run_task_settles_on_current_state r src type env w) as Hsplit.
  destruct (generateShot _ _ _ _ _ env w) as [settled w1].
  destruct Hsplit as [Hui ->]. rewrite <- Hui.
  destruct settled as [url|e]; cbv [task_settles modify_shots modify_ui];
    (eexists; split; [reflexivity|]);
    cbn [ui generatedShots setGeneratedShots];
    unfold settle_success, settle_failure; apply dom_insert_L.
Qed.

Lemma run_chunk_dom r src (batch : list ProductStyle) :
  ∀ env w,
  ∃ w',
    run_chunk r src batch env w = (Returned (), w')
    ∧ dom (generatedShots (ui w'))
      = list_to_set batch ∪ dom (generatedShots (ui w)).
Proof.
  induction batch as [|type rest IH]; intros env w.
  - exists w. split; [done|]. set_solver.
  - simpl. unfold bind.
    destruct (run_task_dom r src type env w) as (w1 & -> & Hdom1).
    destruct (IH env w1) as (w2 & -> & Hdom2).
    exists w2. split; [done|]. rewrite Hdom2, Hdom1. set_solver.
Qed.

Lemma processQueue_dom r src (queue : list ProductStyle) :
  ∀ env w,
  ∃ w',
    processQueue r src queue env w = (Returned (), w')
    ∧ dom (generatedShots (ui w'))
      = list_to_set queue ∪ dom (generatedShots (ui w)).
Proof.
  induction queue as [|type rest IH]; intros env w.
  - rewrite processQueue_equation_1. exists w. split; [done|]. set_solver.
  - rewrite processQueue_equation_2. unfold CONCURRENCY.
    cbn [take drop]. rewrite take_0, drop_0. unfold bind.
    destruct (run_chunk_dom r src [type] env w) as (w1 & -> & Hdom1).
    destruct (decide (0 < length rest)%nat).
    + cbv [wait emit].
      match goal with
      | |- context [processQueue r src rest env ?w2] =>
          destruct (IH env w2) as (w3 & -> & Hdom3)
      end.
      exists w3. split; [done|]. rewrite Hdom3. cbn [ui]. rewrite Hdom1.
      set_solver.
    + cbv [ret]. destruct (IH env w1) as (w3 & -> & Hdom3).
      exists w3. split; [done|]. rewrite Hdom3, Hdom1. set_solver.
Qed.

(** A generation run that nothing interrupts ends normally, whatever the
    backend answers, with the generating flag off and with exactly the
    styles of the active catalog in its batch. *)
Lemma handleGenerate_keeps_one_task_per_style r env w :
  truthy_string (sourceImage r) = true →
  ∃ w',
    handleGenerate r env w = (Returned (), w')
    ∧ isGenerating (ui w') = false
    ∧ dom (generatedShots (ui w')) = list_to_set (activeStyles r)
    ∧ size (generatedShots (ui w')) = 9%nat.
Proof.
  intros Hsrc. unfold handleGenerate.
  destruct (sourceImage r) as [[|c src]|]; try done.
  unfold bind at 1.
  destruct (handleGenerate_begin_run r env w)
    as (pid & w1 & -> & Hdom1 & _).
  unfold bind at 1. unfold try_catch. unfold bind at 1.
  destruct (processQueue_dom r (String c src) (activeStyles r) env w1)
    as (w2 & -> & Hdom2).
  unfold bind at 1.
  destruct (saveToHistory_run r (generatedShots (ui w2)) (Some pid) env w2)
    as (res & w3 & -> & Hshots & _).
  cbv [ret modify_ui]. eexists. split; [reflexivity|].
  cbn [ui isGenerating generatedShots setIsGenerating].
  split; [done|].
  assert (dom (generatedShots (ui w3)) = list_to_set (activeStyles r)) as Hdom.
  { rewrite Hshots, Hdom2, Hdom1. set_solver. }
  split; [done|].
  destruct (activeStyles_catalog r) as (Hnodup & Hlen & _).
  by rewrite <- size_dom, Hdom, size_list_to_set.
Qed.

(** C8, as the code has it: the active catalog is the one of the subject
    type, the nine human styles in the mode HUMAN and the nine product
    styles in every other mode.  The batch that a generation run creates
    holds exactly one task per style of the active catalog of its
    render, so nine, each the loading entry of its style, and none for
    any other style; a run that nothing interrupts ends with that same
    set of styles.  Selecting another subject type empties the tasks,
    and a batch created afterwards holds the styles of the catalog of
    the new type alone, the two catalogs having no style in common.
    Tasks launched before are not stopped: whenever one settles, its
    style is added to the tasks there are then, and no other style is
    added or removed. *)
Theorem batch_has_one_task_per_active_style r env w :
  (subjectType r = HUMAN → activeStyles r = HUMAN_STYLES)
  ∧ (subjectType r ≠ HUMAN → activeStyles r = PRODUCT_STYLES)
  ∧ (∃ pid w',
       handleGenerate_begin r env w = (Returned pid, w')
       ∧ dom (generatedShots (ui w')) = list_to_set (activeStyles r)
       ∧ size (generatedShots (ui w')) = length (activeStyles r)
       ∧ length (activeStyles r) = 9%nat
       ∧ (∀ style, style ∈ activeStyles r →
            ∃ shot, generatedShots (ui w') !! style = Some shot
                    ∧ is_loading_entry r style shot)
       ∧ (∀ style, style ∉ activeStyles r →
            generatedShots (ui w') !! style = None))
  ∧ (truthy_string (sourceImage r) = true →
     ∃ w',
       handleGenerate r env w = (Returned (), w')
       ∧ dom (generatedShots (ui w')) = list_to_set (activeStyles r)
       ∧ size (generatedShots (ui w')) = 9%nat)
  ∧ (∀ type, type ≠ subjectType r →
       ∃ w1,
         onSelect r type env w = (Returned (), w1)
         ∧ generatedShots (ui w1) = ∅
         ∧ subjectType (ui w1) = type
         ∧ ∃ pid w2,
             handleGenerate_begin (ui w1) env w1 = (Returned pid, w2)
             ∧ dom (generatedShots (ui w2))
               = list_to_set (activeStyles (ui w1))
             ∧ (type = HUMAN →
                dom (generatedShots (ui w2)) = list_to_set HUMAN_STYLES)
             ∧ (type ≠ HUMAN →
                dom (generatedShots (ui w2)) = list_to_set PRODUCT_STYLES)
             ∧ (activeStyles (ui w1) ≠ activeStyles r →
                ∀ style, style ∈ activeStyles r →
                  generatedShots (ui w2) !! style = None))
  ∧ (∀ style, style ∈ PRODUCT_STYLES → style ∉ HUMAN_STYLES)
  ∧ (∀ type settled env' w0,
       dom (generatedShots (ui (task_settles type settled env' w0).2))
       = {[type]} ∪ dom (generatedShots (ui w0))).
Proof.
  assert (∀ st, (subjectType st = HUMAN → activeStyles st = HUMAN_STYLES)
                ∧ (subjectType st ≠ HUMAN → activeStyles st = PRODUCT_STYLES))
    as Hcatalog.
  { intros st. unfold activeStyles.
    by destruct (decide (subjectType st = HUMAN)). }
  split; [apply Hcatalog|]. split; [apply Hcatalog|].
  split; [|split; [|split; [|split; [apply catalogs_disjoint|]]]].
  - destruct (handleGenerate_begin_run r env w)
      as (pid & w' & Hrun & Hdom & Hin & _).
    destruct (activeStyles_catalog r) as (Hnodup & Hlen & _).
    exists pid, w'. split; [done|]. split; [done|].
    split; [by rewrite <- size_dom, Hdom, size_list_to_set|].
    split; [done|]. split; [done|].
    intros style Hstyle. apply not_elem_of_dom. rewrite Hdom. set_solver.
  - intros Hsrc.
    destruct (handleGenerate_keeps_one_task_per_style r env w Hsrc)
      as (w' & Hrun & _ & Hdom & Hsize).
    by exists w'.
  - intros type Hne. unfold onSelect, bind, modify_ui.
    destruct (decide (type ≠ subjectType r)); [|done]. simpl.
    eexists. split; [done|]. simpl. split; [done|]. split; [done|].
    match goal with
    | |- context [handleGenerate_begin ?r1 env ?w1] =>
        destruct (handleGenerate_begin_run r1 env w1)
          as (pid & w2 & Hrun & Hdom & _); set (new := r1) in *
    end.
    exists pid, w2. split; [done|]. split; [done|].
    destruct (Hcatalog new) as [Hhuman Hproduct].
    split; [intros ->; by rewrite Hdom, Hhuman|].
    split; [intros Htype; by rewrite Hdom, Hproduct|].
    intros Hdiff style Hstyle. apply not_elem_of_dom. rewrite Hdom.
    rewrite elem_of_list_to_set. intros Hnew.
    destruct (activeStyles_catalog r) as (_ & _ & [[Hr _]|[Hr _]]);
      destruct (activeStyles_catalog new) as (_ & _ & [[Hn _]|[Hn _]]);
      rewrite Hr, Hn in *; try done.
    + by apply (catalogs_disjoint style).
    + by apply (catalogs_disjoint style).
  - intros type settled env' w0.
    destruct settled as [url|e];
      cbv [task_settles modify_shots modify_ui];
      cbn [snd ui generatedShots setGeneratedShots];
      unfold settle_success, settle_failure; by rewrite dom_insert_L.
Qed.

(** C8 as stated fails: the catalogs are mixed.  A run is started in the
    mode PRODUCT and the call of its first task, HERO, is answered.
    Before that task settles, the subject type is switched to HUMAN,
    which empties the tasks, and Generate Campaign, offered again,
    creates the batch of the nine human styles.  Then the task settles:
    the batch now holds ten entries, the product style HERO among the
    nine human styles, in the mode HUMAN. *)
Lemma catalogs_are_mixed_after_a_switch :
  let launched :=
    (handleGenerate_begin example_state obliging (world_of example_state)).2 in
  let in_flight :=
    generateShot example_image (getShotDefinition HERO PRODUCT)
      (JString "product") (JString "") "3:4" obliging launched in
  let switched := (onSelect (ui in_flight.2) HUMAN obliging in_flight.2).2 in
  let human_batch :=
    (handleGenerate_begin (ui switched) obliging switched).2 in
  let settled := (task_settles HERO in_flight.1 obliging human_batch).2 in
  generatedShots (ui switched) = ∅
  ∧ offers_generate (ui switched) = true
  ∧ subjectType (ui human_batch) = HUMAN
  ∧ elements (dom (generatedShots (ui human_batch))) ≡ₚ HUMAN_STYLES
  ∧ subjectType (ui settled) = HUMAN
  ∧ activeStyles (ui settled) = HUMAN_STYLES
  ∧ size (generatedShots (ui settled)) = 10%nat
  ∧ elements (dom (generatedShots (ui settled))) ≡ₚ HERO :: HUMAN_STYLES
  ∧ status_of (generatedShots (ui settled) !! HERO)
    = Succeeded "data:image/jpeg;base64,QUJD"
  ∧ HERO ∈ PRODUCT_STYLES ∧ HERO ∉ HUMAN_STYLES.
Proof.
  cbv zeta. split; [by vm_compute|]. split; [by vm_compute|].
  split; [by vm_compute|].
  split; [apply (bool_decide_unpack _); by vm_compute|].
  split; [by vm_compute|]. split; [by vm_compute|]. split; [by vm_compute|].
  split; [apply (bool_decide_unpack _); by vm_compute|].
  split; [by vm_compute|].
  split; [apply (bool_decide_unpack _); by vm_compute
         |apply (bool_decide_unpack _); by vm_compute].
Qed.

(** ** The analyzer *)

(** [analyzeProduct] makes one backend call and returns: both [try] blocks
    catch. *)
Lemma analyzeProduct_default_world base64 env w :
  ∃ result,
    analyzeProduct base64 env w
    = (Returned result, after_analysis_call base64 w).
Proof.
  unfold analyzeProduct.
  unfold try_catch at 1. unfold bind, call_generateContent.
  destruct (generateContent env (calls w)) as [response|e]; simpl;
    [|by eexists].
  unfold try_catch, parse_analysis, ret.
  destruct (JSON_parse env _) as [[]|]; simpl; by eexists.
Qed.

Lemma analyzeProduct_default base64 env w :
  analysis_fails env (calls w) = true →
  analyzeProduct base64 env w
  = (Returned default_analysis, after_analysis_call base64 w)
  ∧ ui (after_analysis_call base64 w) = ui w.
Proof.
  unfold analyzeProduct, analysis_fails, jsonStr_of.
  unfold try_catch at 1. unfold bind, call_generateContent.
  destruct (generateContent env (calls w)) as [response|e]; simpl; [|done].
  unfold try_catch, parse_analysis, ret.
  destruct (JSON_parse env _) as [[]|]; simpl; done.
Qed.

(** C6, as the code has it: [analyzeProduct] never raises to its caller,
    whatever the backend and the parser do, and makes one backend call.
    When the call is rejected, or its text is not JSON, or is the JSON
    [null], it returns the fixed default descriptor, with confidence 0
    and the generic name and description.  Any other text that parses,
    whether or not it has the shape asked for, is not taken as a
    failure: each field of the result is the property of the parsed
    document when that is truthy and the default of that field
    otherwise (the generic name, description and category, confidence
    0.8, framing [ok], no recommendations), so the confidence is not 0
    there.  In every case the generation is not held up:
    [handleImageSelect] ends normally with the source image in place,
    detection over and the mode PRODUCT, and a generation run started
    from that state creates its batch of the nine product styles. *)
Theorem analyzeProduct_never_raises base64 env w :
  (∃ result,
     analyzeProduct base64 env w
     = (Returned result, after_analysis_call base64 w)
     ∧ (analysis_fails env (calls w) = true →
        result = default_analysis
        ∧ ProductAnalysisResult.confidence default_analysis = JNumber 0
        ∧ ProductAnalysisResult.productName default_analysis
          = JString "Subject"
        ∧ ProductAnalysisResult.description default_analysis
          = JString "A detailed shot of the subject.")
     ∧ (analysis_fails env (calls w) = false →
        ∃ response doc,
          generateContent env (calls w) = Returned response
          ∧ JSON_parse env (jsonStr_of env response) = Some doc
          ∧ doc ≠ JNull
          ∧ ProductAnalysisResult.productName result
            = or_else (property_of doc "productName") (JString "Subject")
          ∧ ProductAnalysisResult.description result
            = or_else (property_of doc "description")
                (JString "A detailed shot of the subject.")
          ∧ ProductAnalysisResult.category result
            = or_else (property_of doc "category") (JString "general")
          ∧ ProductAnalysisResult.confidence result
            = or_else (property_of doc "confidence") (JNumber (8 # 10))
          ∧ ProductAnalysisResult.isHuman result = property_of doc "isHuman"
          ∧ ProductAnalysisResult.framingQuality result
            = Some (or_else (property_of doc "framingQuality") (JString "ok"))
          ∧ ProductAnalysisResult.recommendations result
            = or_else (property_of doc "recommendations") (JArray [])
          ∧ truthy (Some (ProductAnalysisResult.confidence result)) = true
          ∧ ((∀ key, property_of doc key = None) →
             ProductAnalysisResult.confidence result = JNumber (8 # 10)
             ∧ result ≠ default_analysis)))
  ∧ ∃ w1,
      handleImageSelect base64 env w = (Returned (), w1)
      ∧ sourceImage (ui w1) = Some base64
      ∧ isDetecting (ui w1) = false
      ∧ subjectType (ui w1) = PRODUCT
      ∧ (analysis_fails env (calls w) = true →
         detectionWarning (ui w1) = None
         ∧ productName (ui w1) = JString "Subject")
      ∧ ∃ pid w2,
          handleGenerate_begin (ui w1) env w1 = (Returned pid, w2)
          ∧ dom (generatedShots (ui w2)) = list_to_set PRODUCT_STYLES.
Proof.
  split.
  - unfold analyzeProduct, analysis_fails, jsonStr_of.
    unfold try_catch at 1. unfold bind, call_generateContent.
    destruct (generateContent env (calls w)) as [response|e]; simpl;
      [|eexists; split; [reflexivity|]; by split].
    unfold try_catch, parse_analysis, ret.
    destruct (JSON_parse env _) as [doc|] eqn:Hparse;
      [|eexists; split; [reflexivity|]; by split].
    assert (∀ v d, truthy (Some d) = true →
                   truthy (Some (or_else v d)) = true) as Htruthy.
    { intros v d Hd. unfold or_else. destruct v as [x|]; [|done].
      by destruct (truthy (Some x)) eqn:Hx. }
    destruct doc; cbn [get_property default];
      (eexists; split; [reflexivity|]); (split; [done|]);
      try done; intros _; eexists _, _;
      (split; [reflexivity|]); (split; [exact Hparse|]);
      (split; [done|]); unfold property_of;
      cbn [get_property default ProductAnalysisResult.productName
           ProductAnalysisResult.description ProductAnalysisResult.category
           ProductAnalysisResult.confidence ProductAnalysisResult.isHuman
           ProductAnalysisResult.framingQuality
           ProductAnalysisResult.recommendations];
      do 7 (split; [reflexivity|]);
      (split; [by apply Htruthy|]);
      intros Hnone; pose proof (Hnone "confidence") as Hconf;
      unfold property_of in Hconf; cbn [get_property default] in Hconf;
      rewrite ?Hconf; by split.
  - unfold handleImageSelect, bind, modify_ui, try_catch.
    cbn [ui calls clock_reads idb_uses projects trace].
    match goal with
    | |- context [analyzeProduct base64 env ?w0] => set (w0' := w0)
    end.
    destruct (analyzeProduct_default_world base64 env w0') as (res & Hrun).
    pose proof (analyzeProduct_default base64 env w0') as Hdefault.
    rewrite Hrun in *. cbn [fst snd ui after_analysis_call].
    eexists. split; [reflexivity|].
    cbn [ui sourceImage isDetecting subjectType detectionWarning productName
         setIsDetecting].
    assert (sourceImage (apply_analysis res (ui w0')) = sourceImage (ui w0')
            ∧ subjectType (apply_analysis res (ui w0'))
              = subjectType (ui w0')) as [Hsrc Hsub].
    { unfold apply_analysis.
      destruct (truthy (ProductAnalysisResult.isHuman res)); [|done].
      repeat (match goal with
              | |- context [json_is ?a ?b] => destruct (json_is a b)
              end); done. }
    rewrite Hsrc, Hsub. do 3 (split; [done|]).
    split.
    { intros Hfails. destruct (Hdefault Hfails) as [[= ->] _]. done. }
    match goal with
    | |- context [handleGenerate_begin ?r env ?w1] =>
        destruct (handleGenerate_begin_run r env w1)
          as (pid & w2 & Hgen & Hdom & _);
        assert (activeStyles r = PRODUCT_STYLES) as Hactive
    end.
    { unfold activeStyles.
      cbn [subjectType setIsDetecting]. by rewrite Hsub. }
    exists pid, w2. split; [done|]. by rewrite Hdom, Hactive.
Qed.

(** C6 as stated fails on malformed output that parses.  The analyzer
    answers with an empty array instead of the object asked for: the
    text parses, no [catch] block is reached, and the descriptor
    returned is not the default one: its confidence is 0.8, not 0, and
    it reports the framing as [ok]. *)
Lemma malformed_output_is_not_defaulted :
  ∃ result,
    (analyzeProduct example_image array_answer (world_of initial_state)).1
    = Returned result
    ∧ ProductAnalysisResult.confidence result = JNumber (8 # 10)
    ∧ ProductAnalysisResult.confidence result ≠ JNumber 0
    ∧ ProductAnalysisResult.framingQuality result = Some (JString "ok")
    ∧ result ≠ default_analysis.
Proof. eexists. split; [by vm_compute|]. by repeat split. Qed.

(** Output that parses but lacks the fields is not a failure for the
    code: each missing field gets its own default, the confidence 0.8. *)
Lemma analyzeProduct_fills_missing_fields :
  (analyzeProduct example_image
     {| generateContent := λ _, Returned {| text := Some "{}";
                                            candidate_parts := None |};
        Date_now := λ _, 0; idb_ok := λ _, true;
        JSON_parse := λ _, Some (JObject []);
        String_trim := λ s, s; style_text := λ _, "" |}
     (world_of initial_state)).1
  = Returned
      {| ProductAnalysisResult.productName := JString "Subject";
         ProductAnalysisResult.description :=
           JString "A detailed shot of the subject.";
         ProductAnalysisResult.category := JString "general";
         ProductAnalysisResult.confidence := JNumber (8 # 10);
         ProductAnalysisResult.isHuman := None;
         ProductAnalysisResult.framingQuality := Some (JString "ok");
         ProductAnalysisResult.recommendations := JArray [] |}.
Proof. reflexivity. Qed.

(** ** The edit of one shot *)

(** C7: a successful edit of one style of a settled batch changes the
    entry of that style alone: it gets the new output, the custom
    instruction and a fresh timestamp, and every other style keeps its
    entry; one backend call is made; and the full batch so updated is
    saved, so the snapshot written holds the new entry for the edited
    style and, for every other style, the entry that was there before. *)
Theorem edit_changes_only_its_entry r type customPrompt env w currentShot url :
  generatedShots r !! type = Some currentShot →
  truthy_string (GeneratedImage.imageUrl currentShot) = true →
  edit_outcome env (calls w) = Returned url →
  truthy_string (sourceImage r) = true →
  idb_ok env (idb_uses w) = true →
  let updatedShot :=
    {| GeneratedImage.id := GeneratedImage.id currentShot;
       GeneratedImage.shotType := GeneratedImage.shotType currentShot;
       GeneratedImage.imageUrl := Some url;
       GeneratedImage.isLoading := Some false;
       GeneratedImage.timestamp := Some (Date_now env (clock_reads w));
       GeneratedImage.subjectType := GeneratedImage.subjectType currentShot;
       GeneratedImage.error := GeneratedImage.error currentShot;
       GeneratedImage.customPrompt := Some customPrompt |} in
  ∃ w',
    handleEditShot r type customPrompt env w = (Returned (), w')
    ∧ generatedShots (ui w') !! type = Some updatedShot
    ∧ (∀ other, other ≠ type →
         generatedShots (ui w') !! other = generatedShots (ui w) !! other)
    ∧ calls w' = S (calls w)
    ∧ ∃ project,
        projects w' = <[ProjectHistory.id project := project]> (projects w)
        ∧ last (trace w') = Some (Put project)
        ∧ ProjectHistory.generatedShots project = generatedShots (ui w')
        ∧ (truthy_string (currentProjectId r) = true →
           Some (ProjectHistory.id project) = currentProjectId r)
        ∧ ProjectHistory.generatedShots project !! type = Some updatedShot
        ∧ (∀ other, other ≠ type →
             ProjectHistory.generatedShots project !! other
             = generatedShots (ui w) !! other).
Proof.
  intros Hshot Hurl Hedit Hsrc Hok updatedShot.
  unfold handleEditShot. rewrite Hshot, Hurl.
  cbv [bind try_catch modify_shots modify_ui now ret].
  rewrite editShot_run. cbn [calls]. rewrite Hedit.
  cbn [ui calls clock_reads idb_uses projects trace after_edit_call
       generatedShots setGeneratedShots].
  fold updatedShot.
  match goal with
  | |- context [saveToHistory r ?next ?pid env ?w4] =>
      destruct (saveToHistory_run r next pid env w4)
        as (res & w5 & Hsave & Hshots & Hsel & Hcalls & Hput);
      rewrite Hsave; set (next' := next) in *
  end.
  destruct (Hput Hsrc Hok) as (project & Hproj & Htr & Hgen & _ & Hid).
  cbn [ui calls clock_reads idb_uses projects trace generatedShots
       setGeneratedShots] in *.
  assert (next' !! type = Some updatedShot) as Hnew
    by apply lookup_insert_eq.
  assert (∀ other, other ≠ type →
            next' !! other = generatedShots (ui w) !! other) as Hframe.
  { intros other Hne. unfold next', mark_loading.
    by rewrite !lookup_insert_ne. }
  destruct (selectedShot r) as [selected|];
    [destruct (decide (GeneratedImage.shotType selected = Some type))|];
    eexists; (split; [reflexivity|]);
    cbn [ui calls clock_reads idb_uses projects trace generatedShots
         setSelectedShot];
    rewrite Hshots;
    (split; [done|]); (split; [done|]); (split; [lia|]);
    exists project; rewrite Htr, last_snoc, Hgen; by repeat split.
Qed.

Lemma settled_world_settled :
  map (λ style, status_of (generatedShots (ui settled_world) !! style))
    PRODUCT_STYLES
  = replicate 9 (Succeeded "data:image/jpeg;base64,QUJD")
  ∧ calls settled_world = 9%nat
  ∧ size (projects settled_world) = 1%nat.
Proof. by vm_compute. Qed.

Lemma edit_changes_only_its_entry_run :
  let currentShot :=
    {| GeneratedImage.id := Some "style0-1700000000001";
       GeneratedImage.shotType := Some HERO;
       GeneratedImage.imageUrl := Some "data:image/jpeg;base64,QUJD";
       GeneratedImage.isLoading := Some false;
       GeneratedImage.timestamp := Some 1700000000002;
       GeneratedImage.subjectType := Some PRODUCT;
       GeneratedImage.error := None;
       GeneratedImage.customPrompt := None |} in
  let updatedShot :=
    {| GeneratedImage.id := Some "style0-1700000000001";
       GeneratedImage.shotType := Some HERO;
       GeneratedImage.imageUrl := Some "data:image/jpeg;base64,QUJD";
       GeneratedImage.isLoading := Some false;
       GeneratedImage.timestamp := Some 1700000000020;
       GeneratedImage.subjectType := Some PRODUCT;
       GeneratedImage.error := None;
       GeneratedImage.customPrompt := Some "make it brighter" |} in
  ∃ w',
    handleEditShot (ui settled_world) HERO "make it brighter" obliging
      settled_world = (Returned (), w')
    ∧ generatedShots (ui w') !! HERO = Some updatedShot
    ∧ (∀ other, other ≠ HERO →
         generatedShots (ui w') !! other
         = generatedShots (ui settled_world) !! other)
    ∧ calls w' = 10%nat
    ∧ ∃ project,
        projects w'
        = <[ProjectHistory.id project := project]> (projects settled_world)
        ∧ last (trace w') = Some (Put project)
        ∧ ProjectHistory.generatedShots project = generatedShots (ui w')
        ∧ (truthy_string (currentProjectId (ui settled_world)) = true →
           Some (ProjectHistory.id project)
           = currentProjectId (ui settled_world))
        ∧ ProjectHistory.generatedShots project !! HERO = Some updatedShot
        ∧ (∀ other, other ≠ HERO →
             ProjectHistory.generatedShots project !! other
             = generatedShots (ui settled_world) !! other).
Proof.
  apply (edit_changes_only_its_entry (ui settled_world) HERO
           "make it brighter" obliging settled_world
           {| GeneratedImage.id := Some "style0-1700000000001";
              GeneratedImage.shotType := Some HERO;
              GeneratedImage.imageUrl := Some "data:image/jpeg;base64,QUJD";
              GeneratedImage.isLoading := Some false;
              GeneratedImage.timestamp := Some 1700000000002;
              GeneratedImage.subjectType := Some PRODUCT;
              GeneratedImage.error := None;
              GeneratedImage.customPrompt := None |}
           "data:image/jpeg;base64,QUJD"); by vm_compute.
Defined.

(** ** Tasks that settle after the batch was replaced *)

(** C1, as the code has it: a settlement is never discarded.  Whatever
    the live state is when a task settles (whichever project, source
    image and subject type is current then), the outcome is merged into
    the current shots under the style of the task: the image with
    [isLoading] off when the call succeeded, the failure text otherwise;
    only that entry changes, and nothing else of the state does. *)
Theorem settlement_is_merged_into_current_shots type settled env w :
  ∃ w',
    task_settles type settled env w = (Returned (), w')
    ∧ (∀ url, settled = Returned url →
         ∃ shot, generatedShots (ui w') !! type = Some shot
                 ∧ GeneratedImage.imageUrl shot = Some url
                 ∧ GeneratedImage.isLoading shot = Some false)
    ∧ (∀ e, settled = Thrown e →
         ∃ shot, generatedShots (ui w') !! type = Some shot
                 ∧ GeneratedImage.error shot = Some "Failed to generate"
                 ∧ GeneratedImage.isLoading shot = Some false)
    ∧ (∀ other, other ≠ type →
         generatedShots (ui w') !! other = generatedShots (ui w) !! other)
    ∧ currentProjectId (ui w') = currentProjectId (ui w)
    ∧ sourceImage (ui w') = sourceImage (ui w)
    ∧ subjectType (ui w') = subjectType (ui w)
    ∧ calls w' = calls w ∧ projects w' = projects w ∧ trace w' = trace w.
Proof.
  destruct settled as [url|e]; cbv [task_settles modify_shots modify_ui];
    eexists; (split; [reflexivity|]);
    cbn [ui generatedShots setGeneratedShots calls projects trace
         currentProjectId sourceImage subjectType].
  - split.
    { intros ? [= <-]. unfold settle_success. rewrite lookup_insert_eq.
      eexists. by repeat split. }
    split; [done|]. split; [|done].
    intros other Hne. unfold settle_success. by rewrite lookup_insert_ne.
  - split; [done|]. split.
    { intros _ _. unfold settle_failure. rewrite lookup_insert_eq.
      eexists. by repeat split. }
    split; [|done].
    intros other Hne. unfold settle_failure. by rewrite lookup_insert_ne.
Qed.

(** C1 as stated fails.  A batch is created for project 1700000000000
    and the call of its first task is answered with an image.  Before
    the task settles, (a) a new source image is selected, or (b) the
    subject type is switched (the selector stays enabled during a run),
    or (c) all shots are regenerated.  In each case the settlement is
    applied to the new state: the image of the old task shows up in
    shots that had been emptied, respectively in the entry of the new
    batch, whose own task has made no call yet. *)
Lemma stale_settlement_is_applied :
  let launched :=
    (handleGenerate_begin example_state obliging (world_of example_state)).2 in
  let in_flight :=
    generateShot example_image (getShotDefinition HERO PRODUCT)
      (JString "product") (JString "") "3:4" obliging launched in
  let stale :=
    {| GeneratedImage.id := None; GeneratedImage.shotType := None;
       GeneratedImage.imageUrl := Some "data:image/jpeg;base64,QUJD";
       GeneratedImage.isLoading := Some false;
       GeneratedImage.timestamp := None; GeneratedImage.subjectType := None;
       GeneratedImage.error := None; GeneratedImage.customPrompt := None |} in
  let new_image :=
    (modify_ui (handleImageSelect_begin "data:image/jpeg;base64,BBBB")
       obliging in_flight.2).2 in
  let switched := (onSelect (ui in_flight.2) HUMAN obliging in_flight.2).2 in
  let again :=
    (handleGenerate_begin (ui in_flight.2) obliging in_flight.2).2 in
  currentProjectId (ui launched) = Some "1700000000000"
  ∧ in_flight.1 = Returned "data:image/jpeg;base64,QUJD"
  ∧ (currentProjectId (ui new_image) = None
     ∧ generatedShots (ui new_image) = ∅
     ∧ generatedShots (ui (task_settles HERO in_flight.1 obliging new_image).2)
       = {[ HERO := stale ]})
  ∧ (activeStyles (ui switched) = HUMAN_STYLES
     ∧ generatedShots (ui switched) = ∅
     ∧ generatedShots (ui (task_settles HERO in_flight.1 obliging switched).2)
       = {[ HERO := stale ]})
  ∧ (status_of (generatedShots (ui again) !! HERO) = Running
     ∧ GeneratedImage.id <$> generatedShots (ui launched) !! HERO
       = Some (Some "style0-1700000000001")
     ∧ GeneratedImage.id <$> generatedShots (ui again) !! HERO
       = Some (Some "style0-1700000000019")
     ∧ calls again = calls in_flight.2
     ∧ status_of
         (generatedShots (ui (task_settles HERO in_flight.1 obliging again).2)
          !! HERO)
       = Succeeded "data:image/jpeg;base64,QUJD").
Proof. by vm_compute. Qed.

(** * Further properties *)

(** ** Strings *)

Lemma prefix_empty (s : string) : String.prefix "" s = true.
Proof. by destruct s. Qed.

Lemma prefix_app (needle after : string) :
  String.prefix needle (needle +:+ after) = true.
Proof.
  induction needle as [|c needle IH]; simpl; [apply prefix_empty|].
  by destruct (Ascii.ascii_dec c c).
Qed.

Lemma prefix_occurs (needle hay : string) :
  String.prefix needle hay = true → ∃ after, hay = needle +:+ after.
Proof.
  revert hay. induction needle as [|c needle IH]; intros hay.
  - exists hay. done.
  - destruct hay as [|d hay]; simpl; [done|].
    destruct (Ascii.ascii_dec c d) as [->|]; [|done].
    intros (after & ->)%IH. by exists after.
Qed.

(** [String_includes] decides occurrence. *)
Lemma String_includes_occurs (needle hay : string) :
  String_includes needle hay = true ↔ occurs_in needle hay.
Proof.
  split.
  - induction hay as [|c hay IH]; cbn [String_includes].
    + rewrite orb_false_r. intros (after & ->)%prefix_occurs.
      by exists "", after.
    + intros [(after & Hafter)%prefix_occurs|Hrest]%orb_true_iff.
      * exists "", after. by rewrite Hafter.
      * destruct (IH Hrest) as (before & after & ->).
        by exists (String c before), after.
  - intros (before & after & ->).
    induction before as [|c before IH].
    + change ("" +:+ needle +:+ after) with (needle +:+ after).
      destruct (needle +:+ after) eqn:E; cbn [String_includes];
        rewrite <- E, prefix_app; done.
    + change (String c before +:+ needle +:+ after)
        with (String c (before +:+ needle +:+ after)).
      cbn [String_includes]. rewrite IH. apply orb_true_r.
Qed.

Lemma comma_free_cons (c : Ascii.ascii) (s : string) :
  comma_free (String c s) ↔ c ≠ Ascii.ascii_of_nat 44 ∧ comma_free s.
Proof.
  unfold comma_free. cbn [String_includes String.prefix].
  match goal with
  | |- context [Ascii.ascii_dec ?a c] =>
      destruct (Ascii.ascii_dec a c) as [<-|Hne]
  end.
  - rewrite prefix_empty. simpl. split; [done|]. by intros [? _].
  - simpl. split; [intros ->; split; [|done]|by intros [_ ->]].
    intros ->. by apply Hne.
Qed.

Lemma split_comma_free (s : string) :
  comma_free s → split_comma s = (s, None).
Proof.
  induction s as [|c s IH]; [done|].
  intros [Hc Hs]%comma_free_cons. simpl.
  destruct (Ascii.eqb_spec c (Ascii.ascii_of_nat 44)); [done|].
  by rewrite (IH Hs).
Qed.

Lemma split_comma_app (header rest : string) :
  comma_free header →
  split_comma (header +:+ "," +:+ rest) = (header, Some rest).
Proof.
  induction header as [|c header IH]; [done|].
  intros [Hc Hs]%comma_free_cons. simpl.
  destruct (Ascii.eqb_spec c (Ascii.ascii_of_nat 44)); [done|].
  by rewrite (IH Hs).
Qed.

(** ** The payload of a data URL *)

(** [getBase64Data] gives the part between the first comma and the next
    one: the payload of a data URL whose header has no comma; what
    follows a second comma is dropped; a string without comma is
    returned as it is. *)
Theorem getBase64Data_payload (header payload rest : string) :
  comma_free header → comma_free payload →
  getBase64Data (header +:+ "," +:+ payload) = payload
  ∧ getBase64Data (header +:+ "," +:+ payload +:+ "," +:+ rest) = payload
  ∧ getBase64Data header = header.
Proof.
  intros Hh Hp. unfold getBase64Data.
  rewrite (split_comma_app header payload Hh).
  rewrite (split_comma_app header (payload +:+ "," +:+ rest) Hh).
  rewrite (split_comma_free payload Hp).
  rewrite (split_comma_app payload rest Hp).
  by rewrite (split_comma_free header Hh).
Qed.

Lemma getBase64Data_payload_jpeg :
  getBase64Data ("data:image/jpeg;base64" +:+ "," +:+ "AAAA") = "AAAA"
  ∧ getBase64Data ("data:image/jpeg;base64" +:+ "," +:+ "AAAA" +:+ "," +:+ "x")
    = "AAAA"
  ∧ getBase64Data "data:image/jpeg;base64" = "data:image/jpeg;base64".
Proof.
  apply (getBase64Data_payload "data:image/jpeg;base64" "AAAA" "x");
    reflexivity.
Defined.

(** ** The classification of errors *)

(** An error counts as a rate limit error exactly when its status or its
    code is the number 429, or its message contains 429 or
    RESOURCE_EXHAUSTED somewhere; a status or code given as text does not
    count. *)
Theorem isRateLimit_exactly (error : JsError) :
  (isRateLimit error = true ↔
     status error = JsNumber 429 ∨ code error = JsNumber 429
     ∨ (∃ text, message error = Some text
                ∧ (occurs_in "429" text ∨ occurs_in "RESOURCE_EXHAUSTED" text)))
  ∧ isRateLimit {| status := JsString "429"; code := JsString "429";
                   message := None |} = false.
Proof.
  split; [|reflexivity].
  assert (∀ v, strict_eq_number v 429 = true ↔ v = JsNumber 429) as Hnum.
  { intros [|n|s]; simpl; [done| |done].
    rewrite Z.eqb_eq. split; [by intros ->|by intros [= ->]]. }
  assert (∀ needle, needle ≠ "" →
            truthy_string (message error)
            && String_includes needle (default "" (message error)) = true
            ↔ ∃ text, message error = Some text
                      ∧ String_includes needle text = true) as Hmsg.
  { intros needle Hne. destruct (message error) as [[|c text]|]; simpl.
    - split; [done|]. intros (text & [= <-] & Hin). simpl in Hin.
      rewrite orb_false_r in Hin. by destruct needle.
    - split; [eauto|]. by intros (text' & [= <-] & ?).
    - split; [done|]. by intros (? & ? & _). }
  unfold isRateLimit. rewrite !orb_true_iff, !Hnum, !Hmsg by done.
  setoid_rewrite String_includes_occurs.
  split.
  - intros [[[?|?]|(text & ? & ?)]|(text & ? & ?)]; eauto 6.
  - intros [?|[?|(text & ? & [?|?])]]; eauto 6.
Qed.

(** ** The aspect ratio table on any text *)

(** On every text, selectable or not, [mapToGeminiAspectRatio] never
    gives one of the three ratios it replaces, changes nothing else, and
    applying it twice is applying it once. *)
Theorem mapToGeminiAspectRatio_idempotent (ratio : string) :
  mapToGeminiAspectRatio (mapToGeminiAspectRatio ratio)
  = mapToGeminiAspectRatio ratio
  ∧ (mapToGeminiAspectRatio ratio ∉ ["2:3"; "3:2"; "21:9"])
  ∧ ((ratio ∉ ["2:3"; "3:2"; "21:9"]) → mapToGeminiAspectRatio ratio = ratio).
Proof.
  unfold mapToGeminiAspectRatio.
  destruct (String.eqb_spec ratio "2:3") as [->|H1];
    [split; [done|split; [set_solver|set_solver]]|].
  destruct (String.eqb_spec ratio "3:2") as [->|H2];
    [split; [done|split; [set_solver|set_solver]]|].
  destruct (String.eqb_spec ratio "21:9") as [->|H3];
    [split; [done|split; [set_solver|set_solver]]|].
  destruct (String.eqb_spec ratio "2:3"); [done|].
  destruct (String.eqb_spec ratio "3:2"); [done|].
  destruct (String.eqb_spec ratio "21:9"); [done|].
  split; [done|]. split; [set_solver|done].
Qed.

(** ** Every run of [generateShot] *)

Lemma generateShot_throws_attempt_error_after_limit :
  ∃ n, (n < 4)%nat
       ∧ attempt_outcome (scripted [] (Thrown rate_limit_error))
           (calls (world_of example_state) + n)
         = Thrown rate_limit_error.
Proof.
  apply (generateShot_throws_attempt_error example_image
           (getShotDefinition HERO PRODUCT) (JString "product") (JString "")
           "3:4" (scripted [] (Thrown rate_limit_error))
           (world_of example_state) rate_limit_error).
  reflexivity.
Defined.

(** Whatever the backend answers, a run of [generateShot] makes at least
    one and at most four calls and waits once before every call but the
    first; the delays are 2000, 4000 and 8000 ms in that order, as far as
    the run gets, so it never waits more than 14 seconds in all; it
    leaves the component state, the clock and the store alone. *)
Theorem generateShot_calls_and_delays src def name desc ratio env w :
  let w' := (generateShot src def name desc ratio env w).2 in
  ∃ events,
    trace w' = trace w ++ events
    ∧ (calls w + 1 ≤ calls w' ≤ calls w + 4)%nat
    ∧ delays events = take (calls w' - calls w - 1) [2000; 4000; 8000]
    ∧ foldr Z.add 0 (delays events) ≤ 14000
    ∧ ui w' = ui w ∧ clock_reads w' = clock_reads w
    ∧ idb_uses w' = idb_uses w ∧ projects w' = projects w.
Proof.
  cbv zeta. unfold generateShot. loop_step.
  destruct (attempt_outcome env (calls w)) as [|e1].
  { eexists. cbn [snd trace calls ui clock_reads idb_uses projects after_call].
    split; [done|]. replace (S (calls w) - calls w - 1)%nat with 0%nat by lia.
    repeat split; try done; lia. }
  destruct (isRateLimit e1 && _); cycle 1.
  { eexists. cbn [snd trace calls ui clock_reads idb_uses projects after_call].
    split; [done|]. replace (S (calls w) - calls w - 1)%nat with 0%nat by lia.
    repeat split; try done; lia. }
  loop_step.
  destruct (attempt_outcome env (S (calls w))) as [|e2].
  { eexists.
    cbn [snd trace calls ui clock_reads idb_uses projects after_call
         after_wait].
    rewrite <- !app_assoc. split; [done|].
    replace (S (S (calls w)) - calls w - 1)%nat with 1%nat by lia.
    repeat split; try done; lia. }
  destruct (isRateLimit e2 && _); cycle 1.
  { eexists.
    cbn [snd trace calls ui clock_reads idb_uses projects after_call
         after_wait].
    rewrite <- !app_assoc. split; [done|].
    replace (S (S (calls w)) - calls w - 1)%nat with 1%nat by lia.
    repeat split; try done; lia. }
  loop_step.
  destruct (attempt_outcome env (S (S (calls w)))) as [|e3].
  { eexists.
    cbn [snd trace calls ui clock_reads idb_uses projects after_call
         after_wait].
    rewrite <- !app_assoc. split; [done|].
    replace (S (S (S (calls w))) - calls w - 1)%nat with 2%nat by lia.
    repeat split; try done; lia. }
  destruct (isRateLimit e3 && _); cycle 1.
  { eexists.
    cbn [snd trace calls ui clock_reads idb_uses projects after_call
         after_wait].
    rewrite <- !app_assoc. split; [done|].
    replace (S (S (S (calls w))) - calls w - 1)%nat with 2%nat by lia.
    repeat split; try done; lia. }
  loop_step.
  assert (∀ o : Outcome string,
            let w' :=
              (o, after_call (getBase64Data src) (mapToGeminiAspectRatio ratio)
                    (after_wait (backoff_delay 2)
                       (after_call (getBase64Data src)
                          (mapToGeminiAspectRatio ratio)
                          (after_wait (backoff_delay 1)
                             (after_call (getBase64Data src)
                                (mapToGeminiAspectRatio ratio)
                                (after_wait (backoff_delay 0)
                                   (after_call (getBase64Data src)
                                      (mapToGeminiAspectRatio ratio) w))))))).2
            in
            ∃ events,
              trace w' = trace w ++ events
              ∧ (calls w + 1 ≤ calls w' ≤ calls w + 4)%nat
              ∧ delays events
                = take (calls w' - calls w - 1) [2000; 4000; 8000]
              ∧ foldr Z.add 0 (delays events) ≤ 14000
              ∧ ui w' = ui w ∧ clock_reads w' = clock_reads w
              ∧ idb_uses w' = idb_uses w ∧ projects w' = projects w) as Hlast.
  { intros o. eexists.
    cbn [snd trace calls ui clock_reads idb_uses projects after_call
         after_wait].
    rewrite <- !app_assoc. split; [done|].
    replace (S (S (S (S (calls w)))) - calls w - 1)%nat with 3%nat by lia.
    repeat split; try done; lia. }
  destruct (attempt_outcome env (S (S (S (calls w))))) as [|e4];
    [apply Hlast|].
  rewrite andb_false_r. apply Hlast.
Qed.

(** [generateShot] ends with the first attempt that is answered with an
    image or with an error that is not a rate limit error, or with the
    fourth attempt: when the attempts before attempt [k] (counted from 0)
    were rejected with rate limit errors, the outcome of attempt [k] is
    the outcome of the run, after [k + 1] calls and the first [k] of the
    delays 2000, 4000, 8000 ms. *)
Theorem generateShot_ends_with_first_final_attempt
    src def name desc ratio env w (k : nat) (settled : Outcome string) :
  (k ≤ 3)%nat →
  (∀ i, (i < k)%nat →
        ∃ e, attempt_outcome env (calls w + i) = Thrown e
             ∧ isRateLimit e = true) →
  attempt_outcome env (calls w + k) = settled →
  (∀ e, settled = Thrown e → isRateLimit e = true → k = 3%nat) →
  let run := generateShot src def name desc ratio env w in
  run.1 = settled
  ∧ calls run.2 = (calls w + k + 1)%nat
  ∧ ∃ events, trace run.2 = trace w ++ events
              ∧ delays events = take k [2000; 4000; 8000].
Proof.
  intros Hk Hbefore Hat Hfinal. cbv zeta. unfold generateShot.
  assert (∀ attempt w1,
            attempt_outcome env (calls w1) = settled →
            (∀ e, settled = Thrown e → isRateLimit e = true →
                  attempt = 3%nat) →
            (attempt ≤ 3)%nat →
            generateShot_loop (getBase64Data src) def
              (mapToGeminiAspectRatio ratio) attempt env w1
            = (settled, after_call (getBase64Data src)
                          (mapToGeminiAspectRatio ratio) w1)) as Hend.
  { intros attempt w1 Ho Hf Hle. rewrite generateShot_loop_step by done.
    rewrite Ho. destruct settled as [url|e]; [done|].
    destruct (isRateLimit e) eqn:Hr; [|done].
    rewrite (Hf e eq_refl Hr). done. }
  assert (∀ attempt w1 e,
            attempt_outcome env (calls w1) = Thrown e →
            isRateLimit e = true → (attempt < 3)%nat →
            generateShot_loop (getBase64Data src) def
              (mapToGeminiAspectRatio ratio) attempt env w1
            = generateShot_loop (getBase64Data src) def
                (mapToGeminiAspectRatio ratio) (S attempt) env
                (after_wait (backoff_delay attempt)
                   (after_call (getBase64Data src)
                      (mapToGeminiAspectRatio ratio) w1))) as Hretry.
  { intros attempt w1 e Ho Hr Hlt.
    rewrite generateShot_loop_step by (unfold MAX_RETRIES; lia).
    rewrite Ho, Hr. by rewrite bool_decide_eq_true_2. }
  destruct k as [|[|[|[|k]]]]; [| | |  |lia].
  - rewrite Nat.add_0_r in Hat. rewrite (Hend 0%nat w) by (done || lia).
    cbn [fst snd calls trace after_call]. split; [done|]. split; [lia|].
    eexists. split; [done|]. done.
  - destruct (Hbefore 0%nat) as (e0 & H0 & R0); [lia|].
    rewrite Nat.add_0_r in H0.
    rewrite (Hretry 0%nat w e0) by (done || lia).
    rewrite Hend; cbn [calls after_call after_wait];
      [|by replace (S (calls w)) with (calls w + 1)%nat by lia|done|lia].
    cbn [fst snd calls trace after_call after_wait].
    split; [done|]. split; [lia|]. rewrite <- !app_assoc.
    eexists. split; [done|]. done.
  - destruct (Hbefore 0%nat) as (e0 & H0 & R0); [lia|].
    destruct (Hbefore 1%nat) as (e1 & H1 & R1); [lia|].
    rewrite Nat.add_0_r in H0.
    replace (calls w + 1)%nat with (S (calls w)) in H1 by lia.
    rewrite (Hretry 0%nat w e0) by (done || lia).
    rewrite (Hretry 1%nat _ e1) by (done || lia).
    rewrite Hend; cbn [calls after_call after_wait];
      [|by replace (S (S (calls w))) with (calls w + 2)%nat by lia|done|lia].
    cbn [fst snd calls trace after_call after_wait].
    split; [done|]. split; [lia|]. rewrite <- !app_assoc.
    eexists. split; [done|]. done.
  - destruct (Hbefore 0%nat) as (e0 & H0 & R0); [lia|].
    destruct (Hbefore 1%nat) as (e1 & H1 & R1); [lia|].
    destruct (Hbefore 2%nat) as (e2 & H2 & R2); [lia|].
    rewrite Nat.add_0_r in H0.
    replace (calls w + 1)%nat with (S (calls w)) in H1 by lia.
    replace (calls w + 2)%nat with (S (S (calls w))) in H2 by lia.
    rewrite (Hretry 0%nat w e0) by (done || lia).
    rewrite (Hretry 1%nat _ e1) by (done || lia).
    rewrite (Hretry 2%nat _ e2) by (done || lia).
    rewrite Hend; cbn [calls after_call after_wait];
      [|by replace (S (S (S (calls w)))) with (calls w + 3)%nat by lia
       |done|lia].
    cbn [fst snd calls trace after_call after_wait].
    split; [done|]. split; [lia|]. rewrite <- !app_assoc.
    eexists. split; [done|]. done.
Qed.

Lemma generateShot_ends_with_first_final_attempt_second :
  let env :=
    scripted [Thrown rate_limit_error; Thrown server_error]
      (Returned (image_response "QUJD")) in
  let run :=
    generateShot example_image (getShotDefinition HERO PRODUCT)
      (JString "product") (JString "") "3:4" env (world_of example_state) in
  run.1 = Thrown server_error
  ∧ calls run.2 = (0 + 1 + 1)%nat
  ∧ ∃ events, trace run.2 = [] ++ events
              ∧ delays events = take 1 [2000; 4000; 8000].
Proof.
  apply (generateShot_ends_with_first_final_attempt example_image
           (getShotDefinition HERO PRODUCT) (JString "product") (JString "")
           "3:4"
           (scripted [Thrown rate_limit_error; Thrown server_error]
              (Returned (image_response "QUJD")))
           (world_of example_state) 1 (Thrown server_error)).
  - lia.
  - intros i Hi. assert (i = 0%nat) as -> by lia.
    exists rate_limit_error. by vm_compute.
  - reflexivity.
  - intros e [= <-]. by vm_compute.
Defined.

(** Of the parts of a response the first one that carries non-empty
    inline data gives the image, as a JPEG data URL, whatever comes
    after it; parts without data are passed over, and with no such part
    there is no image. *)
Theorem first_image_first_with_data (skipped rest : list Part)
    (c : Ascii.ascii) (bytes : string) :
  Forall (λ part, ∀ d, inlineData part = Some d →
                       truthy_string (data d) = false) skipped →
  first_image
    (skipped ++ {| inlineData := Some {| data := Some (String c bytes) |} |}
       :: rest)
  = Some ("data:image/jpeg;base64," +:+ String c bytes)
  ∧ first_image skipped = None.
Proof.
  induction 1 as [|part skipped Hpart _ [IH1 IH2]]; [done|].
  cbn [app first_image].
  destruct (inlineData part) as [[[[|c' d']|]]|] eqn:E; try done.
  by specialize (Hpart _ eq_refl).
Qed.

Lemma first_image_first_with_data_second_part :
  first_image
    ([ {| inlineData := None |};
       {| inlineData := Some {| data := Some "" |} |} ]
     ++ {| inlineData := Some {| data := Some "QUJD" |} |}
     :: [ {| inlineData := Some {| data := Some "REVG" |} |} ])
  = Some ("data:image/jpeg;base64," +:+ "QUJD")
  ∧ first_image [ {| inlineData := None |};
                  {| inlineData := Some {| data := Some "" |} |} ] = None.
Proof.
  apply (first_image_first_with_data
           [ {| inlineData := None |};
             {| inlineData := Some {| data := Some "" |} |} ]
           [ {| inlineData := Some {| data := Some "REVG" |} |} ]).
  repeat constructor; by intros d [= <-].
Defined.

(** ** Saving and loading a project *)

(** The snapshot that [saveToHistory] builds from a render. *)
Lemma saveToHistory_with_id r shots (pid : string) env w :
  truthy_string (sourceImage r) = true →
  truthy_string (Some pid) = true →
  idb_ok env (idb_uses w) = true →
  saveToHistory r shots (Some pid) env w
  = (Returned (Some pid),
     after_put
       {| ProjectHistory.id := pid;
          ProjectHistory.timestamp := Date_now env (clock_reads w);
          ProjectHistory.sourceImage := default "" (sourceImage r);
          ProjectHistory.productName := productName r;
          ProjectHistory.productDescription := productDescription r;
          ProjectHistory.productCategory := productCategory r;
          ProjectHistory.subjectType := subjectType r;
          ProjectHistory.generatedShots := shots |}
       {| ui := ui w; calls := calls w; clock_reads := S (clock_reads w);
          idb_uses := idb_uses w; projects := projects w;
          trace := trace w |}).
Proof.
  intros Hsrc Hpid Hok. unfold saveToHistory.
  destruct (sourceImage r) as [[|c src]|]; try done.
  destruct pid as [|c' pid]; [done|]. cbn [truthy_string default].
  cbv [bind ret now]. rewrite saveProject_run. cbn [idb_uses].
  by rewrite Hok.
Qed.

(** Loading a snapshot restores what was saved: with a source image and
    a project id in the render and the database at hand, [saveToHistory]
    stores a snapshot under that id, and [handleLoadProject] on it brings
    back the source image, the name, description and category, the
    subject type, the shots and the project id, turns the generating and
    detecting flags off and clears the selection and the warning; the
    aspect ratio is not part of a snapshot and stays as it is. *)
Theorem load_restores_what_was_saved r shots (pid : string) env w st :
  truthy_string (sourceImage r) = true →
  truthy_string (Some pid) = true →
  idb_ok env (idb_uses w) = true →
  ∃ saved,
    projects (saveToHistory r shots (Some pid) env w).2 !! pid = Some saved
    ∧ let loaded := handleLoadProject saved st in
      sourceImage loaded = sourceImage r
      ∧ productName loaded = productName r
      ∧ productDescription loaded = productDescription r
      ∧ productCategory loaded = productCategory r
      ∧ subjectType loaded = subjectType r
      ∧ generatedShots loaded = shots
      ∧ currentProjectId loaded = Some pid
      ∧ isGenerating loaded = false ∧ isDetecting loaded = false
      ∧ selectedShotIds loaded = ∅ ∧ detectionWarning loaded = None
      ∧ aspectRatio loaded = aspectRatio st
      ∧ selectedShot loaded = selectedShot st.
Proof.
  intros Hsrc Hpid Hok. rewrite saveToHistory_with_id by done.
  eexists. cbn [snd projects after_put ProjectHistory.id].
  split; [apply lookup_insert_eq|]. cbv zeta.
  destruct (sourceImage r) as [[|c src]|]; try done.
Qed.

Lemma load_restores_what_was_saved_settled :
  let r := ui settled_world in
  ∃ saved,
    projects
      (saveToHistory r (generatedShots r) (Some "1700000000000") obliging
         settled_world).2 !! "1700000000000" = Some saved
    ∧ let loaded := handleLoadProject saved initial_state in
      sourceImage loaded = sourceImage r
      ∧ productName loaded = productName r
      ∧ productDescription loaded = productDescription r
      ∧ productCategory loaded = productCategory r
      ∧ subjectType loaded = subjectType r
      ∧ generatedShots loaded = generatedShots r
      ∧ currentProjectId loaded = Some "1700000000000"
      ∧ isGenerating loaded = false ∧ isDetecting loaded = false
      ∧ selectedShotIds loaded = ∅ ∧ detectionWarning loaded = None
      ∧ aspectRatio loaded = aspectRatio initial_state
      ∧ selectedShot loaded = selectedShot initial_state.
Proof.
  apply (load_restores_what_was_saved (ui settled_world)
           (generatedShots (ui settled_world)) "1700000000000" obliging
           settled_world initial_state); by vm_compute.
Defined.

Lemma saveToHistory_twice_settled :
  let r := ui settled_world in
  let once :=
    (saveToHistory r (generatedShots r) (Some "1700000000000") obliging
       settled_world).2 in
  let twice :=
    (saveToHistory r (generatedShots r) (Some "1700000000000") obliging
       once).2 in
  ∃ first second,
    projects once
    = <[default "" (Some "1700000000000") := first]> (projects settled_world)
    ∧ projects twice
      = <[default "" (Some "1700000000000") := second]>
          (projects settled_world)
    ∧ ProjectHistory.generatedShots first = generatedShots r
    ∧ ProjectHistory.generatedShots second = generatedShots r
    ∧ ProjectHistory.timestamp first
      = Date_now obliging (clock_reads settled_world)
    ∧ ProjectHistory.timestamp second
      = Date_now obliging (S (clock_reads settled_world))
    ∧ Some (ProjectHistory.id first) = Some "1700000000000"
    ∧ Some (ProjectHistory.sourceImage first) = sourceImage r
    ∧ ProjectHistory.productName first = productName r
    ∧ ProjectHistory.productDescription first = productDescription r
    ∧ ProjectHistory.productCategory first = productCategory r
    ∧ ProjectHistory.subjectType first = subjectType r
    ∧ second
      = {| ProjectHistory.id := ProjectHistory.id first;
           ProjectHistory.timestamp :=
             Date_now obliging (S (clock_reads settled_world));
           ProjectHistory.sourceImage := ProjectHistory.sourceImage first;
           ProjectHistory.productName := ProjectHistory.productName first;
           ProjectHistory.productDescription :=
             ProjectHistory.productDescription first;
           ProjectHistory.productCategory :=
             ProjectHistory.productCategory first;
           ProjectHistory.subjectType := ProjectHistory.subjectType first;
           ProjectHistory.generatedShots :=
             ProjectHistory.generatedShots first |}.
Proof.
  apply (saveToHistory_twice (ui settled_world)
           (generatedShots (ui settled_world)) (Some "1700000000000")
           obliging settled_world); by vm_compute.
Defined.

(** ** Deleting a project *)

Lemma deleteProject_run key env w :
  deleteProject key env w =
    (Returned (),
     if idb_ok env (idb_uses w) then
       {| ui := ui w; calls := calls w; clock_reads := clock_reads w;
          idb_uses := S (idb_uses w); projects := delete key (projects w);
          trace := trace w ++ [Delete key] |}
     else after_failed_use w).
Proof.
  unfold deleteProject, try_catch, with_db.
  by destruct (idb_ok env (idb_uses w)).
Qed.

(** Deleting undoes saving: with the database at hand, a project that is
    saved and then deleted by its id is gone and every other project is
    as before, so the store is back as it was when the id was new; a
    second delete changes nothing; and [deleteProject] never throws, a
    database that cannot be used leaving the store as it is. *)
Theorem delete_undoes_save project env w :
  idb_ok env (idb_uses w) = true →
  idb_ok env (S (idb_uses w)) = true →
  idb_ok env (S (S (idb_uses w))) = true →
  let saved := (saveProject project env w).2 in
  let deleted := (deleteProject (ProjectHistory.id project) env saved).2 in
  let again := (deleteProject (ProjectHistory.id project) env deleted).2 in
  projects deleted !! ProjectHistory.id project = None
  ∧ projects deleted = delete (ProjectHistory.id project) (projects w)
  ∧ (projects w !! ProjectHistory.id project = None →
     projects deleted = projects w)
  ∧ projects again = projects deleted
  ∧ (∀ key env' w', (deleteProject key env' w').1 = Returned ())
  ∧ (∀ key env' w', idb_ok env' (idb_uses w') = false →
       projects (deleteProject key env' w').2 = projects w').
Proof.
  intros Hok1 Hok2 Hok3. cbv zeta.
  rewrite saveProject_run, Hok1, !deleteProject_run.
  cbn [snd idb_uses after_put projects]. rewrite Hok2.
  cbn [snd idb_uses after_put projects]. rewrite Hok3.
  cbn [snd idb_uses after_put projects].
  rewrite delete_insert_eq.
  split; [apply lookup_delete_eq|]. split; [done|].
  split; [apply delete_id|]. split; [by rewrite delete_delete_eq|].
  split.
  - intros key env' w'. by rewrite deleteProject_run.
  - intros key env' w' Hbad. by rewrite deleteProject_run, Hbad.
Qed.

Lemma delete_undoes_save_example :
  let env := obliging in
  let w := world_of example_state in
  let saved := (saveProject example_project env w).2 in
  let deleted :=
    (deleteProject (ProjectHistory.id example_project) env saved).2 in
  let again :=
    (deleteProject (ProjectHistory.id example_project) env deleted).2 in
  projects deleted !! ProjectHistory.id example_project = None
  ∧ projects deleted = delete (ProjectHistory.id example_project) (projects w)
  ∧ (projects w !! ProjectHistory.id example_project = None →
     projects deleted = projects w)
  ∧ projects again = projects deleted
  ∧ (∀ key env' w', (deleteProject key env' w').1 = Returned ())
  ∧ (∀ key env' w', idb_ok env' (idb_uses w') = false →
       projects (deleteProject key env' w').2 = projects w').
Proof.
  apply (delete_undoes_save example_project obliging
           (world_of example_state)); reflexivity.
Defined.

(** ** Edits that fail, and edits after a failure *)

(** The shot that a successful edit puts in place. *)
Lemma handleEditShot_success r type customPrompt env w currentShot url :
  generatedShots r !! type = Some currentShot →
  truthy_string (GeneratedImage.imageUrl currentShot) = true →
  edit_outcome env (calls w) = Returned url →
  ∃ w',
    handleEditShot r type customPrompt env w = (Returned (), w')
    ∧ generatedShots (ui w') !! type
      = Some {| GeneratedImage.id := GeneratedImage.id currentShot;
                GeneratedImage.shotType := GeneratedImage.shotType currentShot;
                GeneratedImage.imageUrl := Some url;
                GeneratedImage.isLoading := Some false;
                GeneratedImage.timestamp :=
                  Some (Date_now env (clock_reads w));
                GeneratedImage.subjectType :=
                  GeneratedImage.subjectType currentShot;
                GeneratedImage.error := GeneratedImage.error currentShot;
                GeneratedImage.customPrompt := Some customPrompt |}
    ∧ (∀ other, other ≠ type →
         generatedShots (ui w') !! other = generatedShots (ui w) !! other)
    ∧ (truthy_string (sourceImage r) = true →
       truthy_string (currentProjectId r) = true →
       idb_ok env (idb_uses w) = true →
       projects w'
       = <[default "" (currentProjectId r) :=
             {| ProjectHistory.id := default "" (currentProjectId r);
                ProjectHistory.timestamp := Date_now env (S (clock_reads w));
                ProjectHistory.sourceImage := default "" (sourceImage r);
                ProjectHistory.productName := productName r;
                ProjectHistory.productDescription := productDescription r;
                ProjectHistory.productCategory := productCategory r;
                ProjectHistory.subjectType := subjectType r;
                ProjectHistory.generatedShots := generatedShots (ui w') |}]>
           (projects w)).
Proof.
  intros Hshot Hurl Hedit.
  unfold handleEditShot. rewrite Hshot, Hurl.
  cbv [bind try_catch modify_shots modify_ui now ret].
  rewrite editShot_run. cbn [calls]. rewrite Hedit.
  cbn [ui calls clock_reads idb_uses projects trace after_edit_call
       generatedShots setGeneratedShots].
  match goal with
  | |- context [saveToHistory r ?next ?pid env ?w4] =>
      destruct (saveToHistory_run r next pid env w4)
        as (res & w5 & Hsave & Hshots & Hsel & Hcalls & Hput);
      pose proof (λ p, saveToHistory_with_id r next p env w4) as Hexact;
      set (next' := next) in *
  end.
  assert (truthy_string (sourceImage r) = true →
          truthy_string (currentProjectId r) = true →
          idb_ok env (idb_uses w) = true →
          projects w5
          = <[default "" (currentProjectId r) :=
                {| ProjectHistory.id := default "" (currentProjectId r);
                   ProjectHistory.timestamp :=
                     Date_now env (S (clock_reads w));
                   ProjectHistory.sourceImage := default "" (sourceImage r);
                   ProjectHistory.productName := productName r;
                   ProjectHistory.productDescription := productDescription r;
                   ProjectHistory.productCategory := productCategory r;
                   ProjectHistory.subjectType := subjectType r;
                   ProjectHistory.generatedShots := next' |}]>
              (projects w)) as Hstore.
  { intros Hsrc Hpid Hok.
    destruct (currentProjectId r) as [pid|] eqn:Epid; [|done].
    rewrite (Hexact pid) in Hsave by done.
    injection Hsave as _ <-. done. }
  rewrite Hsave.
  cbn [ui calls clock_reads idb_uses projects trace generatedShots
       setGeneratedShots] in *.
  assert (∀ other, other ≠ type →
            next' !! other = generatedShots (ui w) !! other) as Hframe.
  { intros other Hne. unfold next', mark_loading.
    by rewrite !lookup_insert_ne. }
  destruct (selectedShot r) as [selected|];
    [destruct (decide (GeneratedImage.shotType selected = Some type))|];
    eexists; (split; [reflexivity|]);
    cbn [ui calls clock_reads idb_uses projects trace generatedShots
         setSelectedShot];
    rewrite Hshots; (split; [apply lookup_insert_eq|]); by split.
Qed.

(** The card of a failed generation offers Retry, which calls
    [handleEditShot] for the style; but an edit needs a shot with an
    image.  So for a style without entry or with an empty image the edit
    does nothing at all, and in particular after a generation failed on a
    loading entry (whose image is the empty text) the retry makes no
    call and leaves the failure where it is. *)
Theorem retry_of_failed_generation_does_nothing
    r src type customPrompt env w loading e :
  generatedShots (ui w) !! type = Some loading →
  GeneratedImage.imageUrl loading = Some "" →
  (generateShot src (getShotDefinition type (subjectType r)) (productName r)
     (productDescription r) (aspectRatio r) env w).1 = Thrown e →
  let failed := (run_task r src type env w).2 in
  status_of (generatedShots (ui failed) !! type) = Failed "Failed to generate"
  ∧ handleEditShot (ui failed) type customPrompt env failed
    = (Returned (), failed)
  ∧ (∀ r' env' w',
       generatedShots r' !! type = None →
       handleEditShot r' type customPrompt env' w' = (Returned (), w')).
Proof.
  intros Hentry Himage Hthrown. cbv zeta.
  pose proof (run_task_settles_on_current_state r src type env w) as Hsplit.
  destruct (generateShot _ _ _ _ _ env w) as [settled w1].
  destruct Hsplit as [Hui Hrun]. simpl in Hthrown. subst settled.
  rewrite Hrun. cbv [task_settles modify_shots modify_ui].
  cbn [snd ui generatedShots setGeneratedShots]. rewrite Hui.
  split; [by apply status_settle_failure|]. split.
  - unfold handleEditShot. cbn [ui generatedShots setGeneratedShots].
    unfold settle_failure. rewrite lookup_insert_eq, Hentry.
    simpl. by rewrite Himage.
  - intros r' env' w' Hnone. unfold handleEditShot. by rewrite Hnone.
Qed.

Lemma retry_of_failed_generation_does_nothing_example :
  let launched :=
    (handleGenerate_begin example_state
       (scripted [] (Thrown server_error)) (world_of example_state)).2 in
  let failed :=
    (run_task example_state example_image HERO
       (scripted [] (Thrown server_error)) launched).2 in
  status_of (generatedShots (ui failed) !! HERO) = Failed "Failed to generate"
  ∧ handleEditShot (ui failed) HERO "" (scripted [] (Thrown server_error))
      failed
    = (Returned (), failed)
  ∧ (∀ r' env' w',
       generatedShots r' !! HERO = None →
       handleEditShot r' HERO "" env' w' = (Returned (), w')).
Proof.
  apply (retry_of_failed_generation_does_nothing example_state example_image
           HERO "" (scripted [] (Thrown server_error))
           (handleGenerate_begin example_state
              (scripted [] (Thrown server_error))
              (world_of example_state)).2
           {| GeneratedImage.id := Some "style0-1700000000001";
              GeneratedImage.shotType := Some HERO;
              GeneratedImage.imageUrl := Some "";
              GeneratedImage.isLoading := Some true;
              GeneratedImage.timestamp := Some 1700000000002;
              GeneratedImage.subjectType := Some PRODUCT;
              GeneratedImage.error := None;
              GeneratedImage.customPrompt := None |}
           server_error); by vm_compute.
Defined.

(** An edit is not retried and a failed edit costs nothing but the
    call: when the one call of an edit fails, with a rate limit error or
    any other, the handler ends normally after that call with no delay;
    the entry keeps the image, the instruction and the timestamp it had,
    gets the text [Edit failed] with [isLoading] off; the other entries
    and the store are untouched. *)
Theorem failed_edit_keeps_the_image r type customPrompt env w currentShot e :
  generatedShots r !! type = Some currentShot →
  truthy_string (GeneratedImage.imageUrl currentShot) = true →
  edit_outcome env (calls w) = Thrown e →
  ∃ w' shot,
    handleEditShot r type customPrompt env w = (Returned (), w')
    ∧ calls w' = S (calls w)
    ∧ trace w'
      = trace w ++ [CallGenerateContent "gemini-2.5-flash-image" None
                      (Some (mapToGeminiAspectRatio (aspectRatio r)))]
    ∧ projects w' = projects w ∧ idb_uses w' = idb_uses w
    ∧ generatedShots (ui w') !! type = Some shot
    ∧ GeneratedImage.error shot = Some "Edit failed"
    ∧ GeneratedImage.isLoading shot = Some false
    ∧ GeneratedImage.imageUrl shot
      = generatedShots (ui w) !! type ≫= GeneratedImage.imageUrl
    ∧ GeneratedImage.customPrompt shot
      = generatedShots (ui w) !! type ≫= GeneratedImage.customPrompt
    ∧ GeneratedImage.timestamp shot
      = generatedShots (ui w) !! type ≫= GeneratedImage.timestamp
    ∧ (∀ other, other ≠ type →
         generatedShots (ui w') !! other = generatedShots (ui w) !! other).
Proof.
  intros Hshot Hurl Hedit.
  unfold handleEditShot. rewrite Hshot, Hurl.
  cbv [bind try_catch modify_shots modify_ui now ret].
  rewrite editShot_run. cbn [calls]. rewrite Hedit.
  cbn [ui calls clock_reads idb_uses projects trace after_edit_call
       generatedShots setGeneratedShots].
  eexists _, _. split; [reflexivity|].
  cbn [ui calls clock_reads idb_uses projects trace generatedShots
       setGeneratedShots].
  do 4 (split; [done|]).
  unfold settle_failure at 1. rewrite lookup_insert_eq.
  split; [reflexivity|]. split; [done|]. split; [done|].
  unfold mark_loading. rewrite lookup_insert_eq.
  cbn [default GeneratedImage.imageUrl GeneratedImage.customPrompt
       GeneratedImage.timestamp].
  split; [by destruct (generatedShots (ui w) !! type)|].
  split; [by destruct (generatedShots (ui w) !! type)|].
  split; [by destruct (generatedShots (ui w) !! type)|].
  intros other Hne. unfold settle_failure. by rewrite !lookup_insert_ne.
Qed.

Lemma failed_edit_keeps_the_image_rate_limited :
  ∃ w' shot,
    handleEditShot (ui settled_world) HERO "make it brighter"
      (scripted [] (Thrown rate_limit_error)) settled_world
    = (Returned (), w')
    ∧ calls w' = S (calls settled_world)
    ∧ trace w'
      = trace settled_world
        ++ [CallGenerateContent "gemini-2.5-flash-image" None
              (Some (mapToGeminiAspectRatio
                       (aspectRatio (ui settled_world))))]
    ∧ projects w' = projects settled_world
    ∧ idb_uses w' = idb_uses settled_world
    ∧ generatedShots (ui w') !! HERO = Some shot
    ∧ GeneratedImage.error shot = Some "Edit failed"
    ∧ GeneratedImage.isLoading shot = Some false
    ∧ GeneratedImage.imageUrl shot
      = generatedShots (ui settled_world) !! HERO ≫= GeneratedImage.imageUrl
    ∧ GeneratedImage.customPrompt shot
      = generatedShots (ui settled_world) !! HERO
        ≫= GeneratedImage.customPrompt
    ∧ GeneratedImage.timestamp shot
      = generatedShots (ui settled_world) !! HERO ≫= GeneratedImage.timestamp
    ∧ (∀ other, other ≠ HERO →
         generatedShots (ui w') !! other
         = generatedShots (ui settled_world) !! other).
Proof.
  apply (failed_edit_keeps_the_image (ui settled_world) HERO
           "make it brighter" (scripted [] (Thrown rate_limit_error))
           settled_world
           {| GeneratedImage.id := Some "style0-1700000000001";
              GeneratedImage.shotType := Some HERO;
              GeneratedImage.imageUrl := Some "data:image/jpeg;base64,QUJD";
              GeneratedImage.isLoading := Some false;
              GeneratedImage.timestamp := Some 1700000000002;
              GeneratedImage.subjectType := Some PRODUCT;
              GeneratedImage.error := None;
              GeneratedImage.customPrompt := None |}
           rate_limit_error); by vm_compute.
Defined.

(** A successful edit does not clear an error that the shot carried in
    the render: the new entry is built from the shot of the render, error
    included.  So once an edit of a shot has failed, a later edit that
    succeeds puts the new image in place and the card still reads the
    shot as failed. *)
Theorem successful_edit_keeps_earlier_error
    r type customPrompt env w currentShot url (c : Ascii.ascii) (text : string) :
  generatedShots r !! type = Some currentShot →
  truthy_string (GeneratedImage.imageUrl currentShot) = true →
  GeneratedImage.error currentShot = Some (String c text) →
  edit_outcome env (calls w) = Returned url →
  ∃ w' shot,
    handleEditShot r type customPrompt env w = (Returned (), w')
    ∧ generatedShots (ui w') !! type = Some shot
    ∧ GeneratedImage.imageUrl shot = Some url
    ∧ GeneratedImage.isLoading shot = Some false
    ∧ status_of (generatedShots (ui w') !! type) = Failed (String c text).
Proof.
  intros Hshot Himage Herror Hedit.
  destruct (handleEditShot_success r type customPrompt env w currentShot url
              Hshot Himage Hedit) as (w' & Hrun & Hnew & _).
  eexists w', _. split; [done|]. split; [done|]. split; [done|].
  split; [done|]. rewrite Hnew. unfold status_of.
  cbn [GeneratedImage.isLoading GeneratedImage.error default].
  by rewrite Herror.
Qed.

Lemma successful_edit_keeps_earlier_error_after_failed_edit :
  let env :=
    {| generateContent := λ n, if decide (n = 9%nat)
                                then Thrown server_error
                                else Returned (image_response "REVG");
       Date_now := Date_now obliging; idb_ok := idb_ok obliging;
       JSON_parse := JSON_parse obliging; String_trim := String_trim obliging;
       style_text := style_text obliging |} in
  let failed :=
    (handleEditShot (ui settled_world) HERO "brighter" env settled_world).2 in
  ∃ w' shot,
    handleEditShot (ui failed) HERO "brighter" env failed = (Returned (), w')
    ∧ generatedShots (ui w') !! HERO = Some shot
    ∧ GeneratedImage.imageUrl shot = Some "data:image/jpeg;base64,REVG"
    ∧ GeneratedImage.isLoading shot = Some false
    ∧ status_of (generatedShots (ui w') !! HERO) = Failed "Edit failed".
Proof.
  cbv zeta.
  match goal with
  | |- context [handleEditShot (ui ?failed) HERO "brighter" ?env ?failed] =>
      apply (successful_edit_keeps_earlier_error (ui failed) HERO "brighter"
               env failed
               {| GeneratedImage.id := Some "style0-1700000000001";
                  GeneratedImage.shotType := Some HERO;
                  GeneratedImage.imageUrl :=
                    Some "data:image/jpeg;base64,QUJD";
                  GeneratedImage.isLoading := Some false;
                  GeneratedImage.timestamp := Some 1700000000002;
                  GeneratedImage.subjectType := Some PRODUCT;
                  GeneratedImage.error := Some "Edit failed";
                  GeneratedImage.customPrompt := None |}
               "data:image/jpeg;base64,REVG")
  end; by vm_compute.
Defined.

(** Loading a project and editing one of its shots resumes the project:
    the edit saves under the id of the loaded project, replacing its
    snapshot with one that has the same source image, name and subject
    type, the edited shot for the style and every other shot as loaded. *)
Theorem edit_after_load_overwrites_loaded_project
    project type customPrompt env w shot url :
  truthy_string (Some (ProjectHistory.id project)) = true →
  truthy_string (Some (ProjectHistory.sourceImage project)) = true →
  ProjectHistory.generatedShots project !! type = Some shot →
  truthy_string (GeneratedImage.imageUrl shot) = true →
  edit_outcome env (calls w) = Returned url →
  idb_ok env (idb_uses w) = true →
  let loaded := (modify_ui (handleLoadProject project) env w).2 in
  ∃ w' saved edited,
    handleEditShot (ui loaded) type customPrompt env loaded = (Returned (), w')
    ∧ projects w' = <[ProjectHistory.id project := saved]> (projects w)
    ∧ ProjectHistory.id saved = ProjectHistory.id project
    ∧ ProjectHistory.sourceImage saved = ProjectHistory.sourceImage project
    ∧ ProjectHistory.productName saved = ProjectHistory.productName project
    ∧ ProjectHistory.subjectType saved = ProjectHistory.subjectType project
    ∧ ProjectHistory.generatedShots saved !! type = Some edited
    ∧ GeneratedImage.imageUrl edited = Some url
    ∧ GeneratedImage.customPrompt edited = Some customPrompt
    ∧ (∀ other, other ≠ type →
         ProjectHistory.generatedShots saved !! other
         = ProjectHistory.generatedShots project !! other).
Proof.
  intros Hid Hsrc Hshot Himage Hedit Hok. cbv zeta.
  cbv [modify_ui]. cbn [snd].
  match goal with
  | |- context [handleEditShot (ui ?loaded) _ _ _ ?loaded] =>
      destruct (handleEditShot_success (ui loaded) type customPrompt env
                  loaded shot url)
        as (w' & Hrun & Hnew & Hframe & Hstore); [done..|]
  end.
  cbn [ui calls clock_reads idb_uses projects] in *.
  specialize (Hstore Hsrc Hid Hok).
  eexists w', _, _. split; [done|].
  split; [exact Hstore|].
  cbn [ProjectHistory.id ProjectHistory.sourceImage
       ProjectHistory.productName ProjectHistory.subjectType
       ProjectHistory.generatedShots].
  do 4 (split; [done|]). split; [exact Hnew|].
  split; [done|]. split; [done|]. exact Hframe.
Qed.

Lemma edit_after_load_overwrites_loaded_project_example :
  let loaded :=
    (modify_ui (handleLoadProject example_project) obliging
       (world_of initial_state)).2 in
  ∃ w' saved edited,
    handleEditShot (ui loaded) HERO "brighter" obliging loaded
    = (Returned (), w')
    ∧ projects w'
      = <[ProjectHistory.id example_project := saved]>
          (projects (world_of initial_state))
    ∧ ProjectHistory.id saved = ProjectHistory.id example_project
    ∧ ProjectHistory.sourceImage saved
      = ProjectHistory.sourceImage example_project
    ∧ ProjectHistory.productName saved
      = ProjectHistory.productName example_project
    ∧ ProjectHistory.subjectType saved
      = ProjectHistory.subjectType example_project
    ∧ ProjectHistory.generatedShots saved !! HERO = Some edited
    ∧ GeneratedImage.imageUrl edited = Some "data:image/jpeg;base64,QUJD"
    ∧ GeneratedImage.customPrompt edited = Some "brighter"
    ∧ (∀ other, other ≠ HERO →
         ProjectHistory.generatedShots saved !! other
         = ProjectHistory.generatedShots example_project !! other).
Proof.
  apply (edit_after_load_overwrites_loaded_project example_project HERO
           "brighter" obliging (world_of initial_state)
           {| GeneratedImage.id := None; GeneratedImage.shotType := None;
              GeneratedImage.imageUrl := Some "data:image/jpeg;base64,QUJD";
              GeneratedImage.isLoading := Some false;
              GeneratedImage.timestamp := None;
              GeneratedImage.subjectType := None;
              GeneratedImage.error := None;
              GeneratedImage.customPrompt := None |}
           "data:image/jpeg;base64,QUJD"); by vm_compute.
Defined.

(** ** A whole generation run *)

Lemma pretty_N_go_nonempty (x : N) (s : string) :
  s ≠ "" → pretty_N_go x s ≠ "".
Proof.
  revert s. induction (N.lt_wf_0 x) as [x _ IH]; intros s Hs.
  assert (x = 0 ∨ 0 < x)%N as [->|Hpos] by lia.
  - by rewrite pretty_N_go_0.
  - rewrite pretty_N_go_step by done. apply IH; [by apply N.div_lt|done].
Qed.

(** The decimal text of a clock reading is not empty, so a project id
    made from the clock is truthy. *)
Lemma pretty_Z_truthy (z : Z) : truthy_string (Some (pretty z)) = true.
Proof.
  assert (pretty z ≠ "") as Hne.
  { destruct z as [|p|p]; [done| |done].
    unfold pretty, pretty_Z, pretty, pretty_positive, pretty, pretty_N.
    destruct (decide (N.pos p = 0%N)); [done|].
    rewrite pretty_N_go_step by lia. by apply pretty_N_go_nonempty. }
  by destruct (pretty z).
Qed.

Lemma generateShot_returns_truthy src def name desc ratio env w url :
  (generateShot src def name desc ratio env w).1 = Returned url →
  truthy_string (Some url) = true.
Proof.
  unfold generateShot. loop_step.
  destruct (attempt_outcome env (calls w)) as [u1|e1] eqn:H1.
  { intros [= <-]. by eapply attempt_outcome_truthy. }
  destruct (isRateLimit e1 && _); [|done]. loop_step.
  destruct (attempt_outcome env (S (calls w))) as [u2|e2] eqn:H2.
  { intros [= <-]. by eapply attempt_outcome_truthy. }
  destruct (isRateLimit e2 && _); [|done]. loop_step.
  destruct (attempt_outcome env (S (S (calls w)))) as [u3|e3] eqn:H3.
  { intros [= <-]. by eapply attempt_outcome_truthy. }
  destruct (isRateLimit e3 && _); [|done]. loop_step.
  destruct (attempt_outcome env (S (S (S (calls w))))) as [u4|e4] eqn:H4.
  { intros [= <-]. by eapply attempt_outcome_truthy. }
  by rewrite andb_false_r.
Qed.

Lemma generateShot_at_least_one_call src def name desc ratio env w :
  (calls w + 1 ≤ calls (generateShot src def name desc ratio env w).2)%nat.
Proof.
  unfold generateShot. loop_step.
  destruct (attempt_outcome env (calls w)) as [|e1]; [simpl; lia|].
  destruct (isRateLimit e1 && _); [|simpl; lia].
  destruct (generateShot_loop_frame (getBase64Data src) def
              (mapToGeminiAspectRatio ratio) MAX_RETRIES 1%nat env
              (after_wait (backoff_delay 0)
                 (after_call (getBase64Data src)
                    (mapToGeminiAspectRatio ratio) w)))
    as (_ & _ & _ & _ & Hc & _); [done|unfold MAX_RETRIES; lia|].
  simpl in *. lia.
Qed.

(** What one task does to the world. *)
Lemma run_task_effect r src type env w :
  ∃ w',
    run_task r src type env w = (Returned (), w')
    ∧ ui w' = setGeneratedShots (generatedShots (ui w')) (ui w)
    ∧ ((∃ url, truthy_string (Some url) = true
               ∧ generatedShots (ui w')
                 = settle_success type url (generatedShots (ui w)))
       ∨ generatedShots (ui w')
         = settle_failure "Failed to generate" type (generatedShots (ui w)))
    ∧ (calls w + 1 ≤ calls w' ≤ calls w + 4)%nat
    ∧ clock_reads w' = clock_reads w ∧ idb_uses w' = idb_uses w
    ∧ projects w' = projects w.
Proof.
  pose proof (run_task_settles_on_current_state r src type env w) as Hsplit.
  pose proof (generateShot_at_most_four_calls src
                (getShotDefinition type (subjectType r)) (productName r)
                (productDescription r) (aspectRatio r) env w) as [Hmost _].
  pose proof (generateShot_at_least_one_call src
                (getShotDefinition type (subjectType r)) (productName r)
                (productDescription r) (aspectRatio r) env w) as Hleast.
  pose proof (generateShot_returns_truthy src
                (getShotDefinition type (subjectType r)) (productName r)
                (productDescription r) (aspectRatio r) env w) as Htruthy.
  destruct (generateShot_loop_frame (getBase64Data src)
              (getShotDefinition type (subjectType r))
              (mapToGeminiAspectRatio (aspectRatio r)) (S MAX_RETRIES) 0%nat
              env w) as (_ & Hclock & Hidb & Hproj & _);
    [done|unfold MAX_RETRIES; lia|].
  change (generateShot_loop _ _ _ 0 env w)
    with (generateShot src (getShotDefinition type (subjectType r))
            (productName r) (productDescription r) (aspectRatio r) env w)
    in Hclock, Hidb, Hproj.
  destruct (generateShot _ _ _ _ _ env w) as [settled w1].
  destruct Hsplit as [Hui ->]. cbn [fst snd] in *.
  destruct settled as [url|e]; cbv [task_settles modify_shots modify_ui];
    (eexists; split; [reflexivity|]);
    cbn [ui calls clock_reads idb_uses projects generatedShots
         setGeneratedShots];
    rewrite Hui.
  - split; [by destruct (ui w)|]. split; [left; eauto|]. by repeat split; try lia.
  - split; [by destruct (ui w)|]. split; [by right|]. by repeat split; try lia.
Qed.

Lemma run_task_settles r src type env w :
  entry_error (generatedShots (ui w) !! type) = None →
  ∃ w',
    run_task r src type env w = (Returned (), w')
    ∧ ui w' = setGeneratedShots (generatedShots (ui w')) (ui w)
    ∧ task_settled (generatedShots (ui w') !! type)
    ∧ (∀ other, other ≠ type →
         generatedShots (ui w') !! other = generatedShots (ui w) !! other)
    ∧ (calls w + 1 ≤ calls w' ≤ calls w + 4)%nat
    ∧ clock_reads w' = clock_reads w ∧ idb_uses w' = idb_uses w
    ∧ projects w' = projects w.
Proof.
  intros Herr.
  destruct (run_task_effect r src type env w)
    as (w' & Hrun & Hui & Hshots & Hcalls & Hrest).
  exists w'. split; [done|]. split; [done|].
  destruct Hshots as [(url & Hurl & ->)| ->].
  - split; [|split; [|done]].
    + split.
      * unfold settle_success. rewrite lookup_insert_eq. eauto.
      * left. exists url. by apply status_settle_success.
    + intros other Hne. unfold settle_success. by rewrite lookup_insert_ne.
  - split; [|split; [|done]].
    + split.
      * unfold settle_failure. rewrite lookup_insert_eq. eauto.
      * right. by apply status_settle_failure.
    + intros other Hne. unfold settle_failure. by rewrite lookup_insert_ne.
Qed.

Lemma processQueue_settles r src (queue : list ProductStyle) :
  ∀ env w,
  NoDup queue →
  (∀ style, style ∈ queue →
            entry_error (generatedShots (ui w) !! style) = None) →
  ∃ w',
    processQueue r src queue env w = (Returned (), w')
    ∧ ui w' = setGeneratedShots (generatedShots (ui w')) (ui w)
    ∧ (∀ style, style ∈ queue →
                task_settled (generatedShots (ui w') !! style))
    ∧ (∀ style, style ∉ queue →
         generatedShots (ui w') !! style = generatedShots (ui w) !! style)
    ∧ (calls w + length queue ≤ calls w' ≤ calls w + 4 * length queue)%nat
    ∧ clock_reads w' = clock_reads w ∧ idb_uses w' = idb_uses w
    ∧ projects w' = projects w.
Proof.
  induction queue as [|type rest IH]; intros env w Hnodup Herr.
  - rewrite processQueue_equation_1. exists w. split; [done|].
    split; [by destruct (ui w)|]. split; [by intros ? ?%elem_of_nil|].
    repeat split; simpl; try done; lia.
  - apply NoDup_cons in Hnodup as [Hnotin Hnodup].
    rewrite processQueue_equation_2. unfold CONCURRENCY.
    cbn [take drop]. rewrite take_0, drop_0.
    cbn [run_chunk]. unfold bind at 1. unfold bind at 1.
    destruct (run_task_settles r src type env w)
      as (w1 & -> & Hui1 & Hset1 & Hframe1 & Hcalls1 & Hc1 & Hi1 & Hp1).
    { apply Herr. by left. }
    unfold ret at 1. unfold bind at 1.
    assert (∀ w2, ui w2 = ui w1 → calls w2 = calls w1 →
                  clock_reads w2 = clock_reads w1 →
                  idb_uses w2 = idb_uses w1 → projects w2 = projects w1 →
              ∃ w',
                processQueue r src rest env w2 = (Returned (), w')
                ∧ ui w' = setGeneratedShots (generatedShots (ui w')) (ui w)
                ∧ (∀ style, style ∈ type :: rest →
                            task_settled (generatedShots (ui w') !! style))
                ∧ (∀ style, style ∉ type :: rest →
                     generatedShots (ui w') !! style
                     = generatedShots (ui w) !! style)
                ∧ (calls w + length (type :: rest) ≤ calls w'
                   ≤ calls w + 4 * length (type :: rest))%nat
                ∧ clock_reads w' = clock_reads w ∧ idb_uses w' = idb_uses w
                ∧ projects w' = projects w) as Hrest.
    { intros w2 Hu2 Hca2 Hcl2 Hid2 Hpr2.
      destruct (IH env w2 Hnodup)
        as (w' & Hrun & Hui' & Hset' & Hframe' & Hcalls' & Hc' & Hi' & Hp').
      { intros style Hin. rewrite Hu2, Hframe1; [apply Herr; by right|].
        intros ->. done. }
      exists w'. split; [done|]. rewrite Hu2 in *.
      split; [rewrite Hui', Hui1; by destruct (ui w)|].
      split.
      { intros style [->|Hin]%elem_of_cons; [|by apply Hset'].
        by rewrite Hframe'. }
      split.
      { intros style [Hne Hnin]%not_elem_of_cons.
        by rewrite Hframe', Hframe1. }
      simpl. repeat split; try congruence; lia. }
    destruct (decide (0 < length rest)%nat).
    + cbv [wait emit]. apply Hrest; done.
    + cbv [ret]. apply Hrest; done.
Qed.

(** The stages of an uninterrupted run. *)
Lemma handleGenerate_stages r env w :
  truthy_string (sourceImage r) = true →
  ∃ pid w1 w2 res w3,
    handleGenerate_begin r env w = (Returned pid, w1)
    ∧ truthy_string (Some pid) = true
    ∧ processQueue r (default "" (sourceImage r)) (activeStyles r) env w1
      = (Returned (), w2)
    ∧ saveToHistory r (generatedShots (ui w2)) (Some pid) env w2
      = (Returned res, w3)
    ∧ handleGenerate r env w
      = (Returned (),
         {| ui := setIsGenerating false (ui w3); calls := calls w3;
            clock_reads := clock_reads w3; idb_uses := idb_uses w3;
            projects := projects w3; trace := trace w3 |}).
Proof.
  intros Hsrc. unfold handleGenerate.
  destruct (sourceImage r) as [[|c src]|]; try done. cbn [default].
  destruct (handleGenerate_begin_run r env w)
    as (pid & w1 & Hbegin & _ & _ & _ & _ & _ & Hold & Hnew & _).
  assert (truthy_string (Some pid) = true) as Hpid.
  { destruct (truthy_string (currentProjectId r)) eqn:E.
    - destruct (Hold eq_refl) as [Heq _]. by rewrite Heq.
    - destruct (Hnew eq_refl) as [-> _]. apply pretty_Z_truthy. }
  destruct (processQueue_dom r (String c src) (activeStyles r) env w1)
    as (w2 & Hqueue & _).
  destruct (saveToHistory_run r (generatedShots (ui w2)) (Some pid) env w2)
    as (res & w3 & Hsave & _).
  exists pid, w1, w2, res, w3. do 4 (split; [done|]).
  unfold bind at 1. rewrite Hbegin.
  unfold bind at 1. unfold try_catch. unfold bind at 1. rewrite Hqueue.
  unfold bind at 1. rewrite Hsave. done.
Qed.

Lemma filter_all {A} (P : A → Prop) `{∀ x, Decision (P x)} (l : list A) :
  Forall P l → filter P l = l.
Proof.
  induction 1 as [|x l Hx _ IH]; [done|].
  by rewrite filter_cons_True, IH.
Qed.

(** A run that nothing interrupts settles every task, whatever the
    backend and the database do: it ends normally with the generating
    flag off, every style of the active catalog has its entry with
    [isLoading] off, showing either an image or the failure text, so the
    progress count is at nine of nine; and it made at least nine and at
    most thirty-six backend calls. *)
Theorem run_settles_every_task r env w :
  truthy_string (sourceImage r) = true →
  ∃ w',
    handleGenerate r env w = (Returned (), w')
    ∧ isGenerating (ui w') = false
    ∧ (∀ style, style ∈ activeStyles r →
                task_settled (generatedShots (ui w') !! style))
    ∧ completedShotsCount (ui w') = 9%nat
    ∧ hasGeneratedShots (ui w') = true
    ∧ (calls w + 9 ≤ calls w' ≤ calls w + 36)%nat.
Proof.
  intros Hsrc.
  destruct (handleGenerate_stages r env w Hsrc)
    as (pid & w1 & w2 & res & w3 & Hbegin & Hpid & Hqueue & Hsave & ->).
  destruct (handleGenerate_begin_run r env w)
    as (pid' & w1' & Hbegin' & Hdom1 & Hloading & _ & _ & _ & _ & _
        & Hcalls1 & _).
  rewrite Hbegin in Hbegin'. injection Hbegin' as <- <-.
  destruct (activeStyles_catalog r) as (Hnodup & Hlen & _).
  destruct (processQueue_settles r (default "" (sourceImage r))
              (activeStyles r) env w1 Hnodup)
    as (w2' & Hqueue' & _ & Hsettled & Hframe & Hcalls2 & _).
  { intros style Hin. destruct (Hloading style Hin) as (shot & -> & Hshot).
    destruct Hshot as (_ & _ & _ & Herr & _). exact Herr. }
  rewrite Hqueue in Hqueue'. injection Hqueue' as <-.
  destruct (saveToHistory_run r (generatedShots (ui w2)) (Some pid) env w2)
    as (res' & w3' & Hsave' & Hshots3 & _ & Hcalls3 & _).
  rewrite Hsave in Hsave'. injection Hsave' as <- <-.
  eexists. split; [reflexivity|].
  cbn [ui calls isGenerating setIsGenerating].
  assert (generatedShots (setIsGenerating false (ui w3))
          = generatedShots (ui w2)) as Hfinal by done.
  assert (dom (generatedShots (ui w2)) = list_to_set (activeStyles r))
    as Hdom2.
  { apply set_eq. intros style. rewrite elem_of_dom, elem_of_list_to_set.
    split.
    - intros Hsome. destruct (decide (style ∈ activeStyles r)); [done|].
      rewrite Hframe in Hsome by done.
      apply elem_of_dom in Hsome. rewrite Hdom1 in Hsome.
      by apply elem_of_list_to_set in Hsome.
    - intros Hin. destruct (Hsettled style Hin) as [(shot & -> & _) _].
      eauto. }
  assert (size (generatedShots (ui w2)) = 9%nat) as Hsize.
  { by rewrite <- size_dom, Hdom2, size_list_to_set. }
  split; [done|]. split; [by rewrite Hfinal|]. split.
  { unfold completedShotsCount. rewrite Hfinal.
    rewrite filter_all.
    - by rewrite length_map, length_map_to_list.
    - apply Forall_forall. intros shot Hshot.
      apply list_elem_of_fmap in Hshot as ([style shot'] & -> & Hin).
      apply elem_of_map_to_list in Hin. cbn [snd].
      assert (style ∈ activeStyles r) as Hstyle.
      { apply (elem_of_list_to_set (C := gset ProductStyle)).
        rewrite <- Hdom2. apply elem_of_dom. eauto. }
      destruct (Hsettled style Hstyle) as [(shot'' & Heq & Hload) _].
      rewrite Hin in Heq. injection Heq as <-. by rewrite Hload. }
  split.
  { unfold hasGeneratedShots. rewrite Hfinal, Hsize.
    by apply bool_decide_eq_true_2; lia. }
  rewrite Hlen in Hcalls2. lia.
Qed.

Lemma run_settles_every_task_example :
  ∃ w',
    handleGenerate example_state (scripted [] (Thrown rate_limit_error))
      (world_of example_state) = (Returned (), w')
    ∧ isGenerating (ui w') = false
    ∧ (∀ style, style ∈ activeStyles example_state →
                task_settled (generatedShots (ui w') !! style))
    ∧ completedShotsCount (ui w') = 9%nat
    ∧ hasGeneratedShots (ui w') = true
    ∧ (calls (world_of example_state) + 9 ≤ calls w'
       ≤ calls (world_of example_state) + 36)%nat.
Proof.
  apply (run_settles_every_task example_state
           (scripted [] (Thrown rate_limit_error)) (world_of example_state)).
  reflexivity.
Defined.

(** The start of a run does not use the database. *)
Lemma handleGenerate_begin_idb r env w :
  idb_uses (handleGenerate_begin r env w).2 = idb_uses w.
Proof.
  unfold handleGenerate_begin.
  destruct (truthy_string (currentProjectId r));
    cbv [bind modify_ui now ret];
    match goal with
    | |- context [initial_shots r ?l ?acc env ?w0] =>
        destruct (initial_shots_run r l acc env w0)
          as (shots & w0' & Hrun & (_ & _ & Hidb & _) & _);
        rewrite Hrun
    end; cbn [snd idb_uses]; by rewrite Hidb.
Qed.

(** With the database at hand, a run that nothing interrupts uses it
    once, at the end: it puts one snapshot, which holds the shots as
    they are when the run ends and the source image of the render, under
    the project id of the run; that id is the one of the render when it
    has one, and otherwise a new one made from the clock, which becomes
    the current project id. *)
Theorem run_saves_its_final_shots_once r env w :
  truthy_string (sourceImage r) = true →
  idb_ok env (idb_uses w) = true →
  ∃ w' pid saved,
    handleGenerate r env w = (Returned (), w')
    ∧ projects w' = <[pid := saved]> (projects w)
    ∧ idb_uses w' = S (idb_uses w)
    ∧ ProjectHistory.id saved = pid
    ∧ ProjectHistory.generatedShots saved = generatedShots (ui w')
    ∧ Some (ProjectHistory.sourceImage saved) = sourceImage r
    ∧ (truthy_string (currentProjectId r) = true →
       Some pid = currentProjectId r)
    ∧ (truthy_string (currentProjectId r) = false →
       pid = pretty (Date_now env (clock_reads w))
       ∧ currentProjectId (ui w') = Some pid).
Proof.
  intros Hsrc Hok.
  destruct (handleGenerate_stages r env w Hsrc)
    as (pid & w1 & w2 & res & w3 & Hbegin & Hpid & Hqueue & Hsave & ->).
  destruct (handleGenerate_begin_run r env w)
    as (pid' & w1' & Hbegin' & Hdom1 & Hloading & _ & _ & _ & Hold & Hnew
        & _ & Hproj1 & _).
  rewrite Hbegin in Hbegin'. injection Hbegin' as <- <-.
  assert (idb_uses w1 = idb_uses w) as Hidb1.
  { pose proof (handleGenerate_begin_idb r env w) as Hidb.
    by rewrite Hbegin in Hidb. }
  destruct (activeStyles_catalog r) as (Hnodup & Hlen & _).
  destruct (processQueue_settles r (default "" (sourceImage r))
              (activeStyles r) env w1 Hnodup)
    as (w2' & Hqueue' & Hui2 & _ & _ & _ & _ & Hidb2 & Hproj2).
  { intros style Hin. destruct (Hloading style Hin) as (shot & -> & Hshot).
    destruct Hshot as (_ & _ & _ & Herr & _). exact Herr. }
  rewrite Hqueue in Hqueue'. injection Hqueue' as <-.
  rewrite (saveToHistory_with_id r (generatedShots (ui w2)) pid env w2)
    in Hsave by (done || congruence).
  injection Hsave as _ <-.
  eexists _, pid, _. split; [reflexivity|].
  cbn [ui projects idb_uses after_put ProjectHistory.id
       ProjectHistory.generatedShots ProjectHistory.sourceImage
       generatedShots setIsGenerating currentProjectId].
  rewrite Hproj2, Hproj1, Hidb2, Hidb1.
  do 4 (split; [done|]).
  split; [by destruct (sourceImage r) as [[|]|]|].
  split; [intros Ht; by destruct (Hold Ht)|].
  intros Hf. destruct (Hnew Hf) as [-> Hcur]. split; [done|].
  rewrite Hui2. cbn [currentProjectId setGeneratedShots]. done.
Qed.

Lemma run_saves_its_final_shots_once_example :
  ∃ w' pid saved,
    handleGenerate example_state obliging (world_of example_state)
    = (Returned (), w')
    ∧ projects w' = <[pid := saved]> (projects (world_of example_state))
    ∧ idb_uses w' = S (idb_uses (world_of example_state))
    ∧ ProjectHistory.id saved = pid
    ∧ ProjectHistory.generatedShots saved = generatedShots (ui w')
    ∧ Some (ProjectHistory.sourceImage saved) = sourceImage example_state
    ∧ (truthy_string (currentProjectId example_state) = true →
       Some pid = currentProjectId example_state)
    ∧ (truthy_string (currentProjectId example_state) = false →
       pid = pretty (Date_now obliging (clock_reads (world_of example_state)))
       ∧ currentProjectId (ui w') = Some pid).
Proof.
  apply (run_saves_its_final_shots_once example_state obliging
           (world_of example_state)); reflexivity.
Defined.

(** A run started from the live state, with the database at hand. *)
Lemma handleGenerate_from_live env w :
  truthy_string (sourceImage (ui w)) = true →
  idb_ok env (idb_uses w) = true →
  ∃ w' pid saved,
    handleGenerate (ui w) env w = (Returned (), w')
    ∧ truthy_string (Some pid) = true
    ∧ currentProjectId (ui w') = Some pid
    ∧ (truthy_string (currentProjectId (ui w)) = true →
       currentProjectId (ui w) = Some pid)
    ∧ sourceImage (ui w') = sourceImage (ui w)
    ∧ projects w' = <[pid := saved]> (projects w)
    ∧ idb_uses w' = S (idb_uses w)
    ∧ ProjectHistory.id saved = pid
    ∧ ProjectHistory.generatedShots saved = generatedShots (ui w').
Proof.
  intros Hsrc Hok.
  destruct (handleGenerate_stages (ui w) env w Hsrc)
    as (pid & w1 & w2 & res & w3 & Hbegin & Hpid & Hqueue & Hsave & ->).
  destruct (handleGenerate_begin_run (ui w) env w)
    as (pid' & w1' & Hbegin' & Hdom1 & Hloading & _ & Hsrc1 & _ & Hold & Hnew
        & _ & Hproj1 & _).
  rewrite Hbegin in Hbegin'. injection Hbegin' as <- <-.
  pose proof (handleGenerate_begin_idb (ui w) env w) as Hidb1.
  rewrite Hbegin in Hidb1. cbn [snd] in Hidb1.
  destruct (activeStyles_catalog (ui w)) as (Hnodup & Hlen & _).
  destruct (processQueue_settles (ui w) (default "" (sourceImage (ui w)))
              (activeStyles (ui w)) env w1 Hnodup)
    as (w2' & Hqueue' & Hui2 & _ & _ & _ & _ & Hidb2 & Hproj2).
  { intros style Hin. destruct (Hloading style Hin) as (shot & -> & Hshot).
    destruct Hshot as (_ & _ & _ & Herr & _). exact Herr. }
  rewrite Hqueue in Hqueue'. injection Hqueue' as <-.
  rewrite (saveToHistory_with_id (ui w) (generatedShots (ui w2)) pid env w2)
    in Hsave by (done || congruence).
  injection Hsave as _ <-.
  eexists _, pid, _. split; [reflexivity|].
  cbn [ui projects idb_uses after_put ProjectHistory.id
       ProjectHistory.generatedShots generatedShots setIsGenerating
       currentProjectId sourceImage].
  rewrite Hproj2, Hproj1, Hidb2, Hidb1, Hui2.
  cbn [currentProjectId sourceImage setGeneratedShots].
  split; [done|].
  assert (currentProjectId (ui w1) = Some pid
          ∧ (truthy_string (currentProjectId (ui w)) = true →
             currentProjectId (ui w) = Some pid)) as [Hcur Hkeep].
  { destruct (truthy_string (currentProjectId (ui w))) eqn:E.
    - destruct (Hold eq_refl) as [Heq Hsame]. split; [congruence|done].
    - destruct (Hnew eq_refl) as [_ Hcur]. by split. }
  by repeat split.
Qed.

(** Regenerating stays in the project: of two runs, one after the
    other from the live state, the second uses the project id that the
    first one established or found, and its snapshot replaces the
    snapshot of the first under that id, so the store holds one snapshot
    for the project, with the shots of the second run. *)
Theorem regenerate_keeps_the_project_id env w :
  truthy_string (sourceImage (ui w)) = true →
  idb_ok env (idb_uses w) = true →
  idb_ok env (S (idb_uses w)) = true →
  let first := (handleGenerate (ui w) env w).2 in
  let second := (handleGenerate (ui first) env first).2 in
  ∃ pid saved1 saved2,
    currentProjectId (ui first) = Some pid
    ∧ currentProjectId (ui second) = Some pid
    ∧ projects first = <[pid := saved1]> (projects w)
    ∧ projects second = <[pid := saved2]> (projects w)
    ∧ ProjectHistory.generatedShots saved2 = generatedShots (ui second)
    ∧ dom (projects second) = dom (projects first).
Proof.
  intros Hsrc Hok1 Hok2. cbv zeta.
  destruct (handleGenerate_from_live env w Hsrc Hok1)
    as (w1 & pid & saved1 & -> & Hpid & Hcur1 & _ & Hsrc1 & Hproj1 & Hidb1
        & _ & _).
  cbn [snd].
  destruct (handleGenerate_from_live env w1)
    as (w2 & pid' & saved2 & -> & _ & Hcur2 & Hkeep & _ & Hproj2 & _ & _
        & Hshots2); [congruence..|].
  cbn [snd].
  assert (pid' = pid) as ->.
  { rewrite Hcur1 in Hkeep. specialize (Hkeep Hpid). congruence. }
  exists pid, saved1, saved2. do 3 (split; [done|]).
  rewrite Hproj2, Hproj1, insert_insert_eq. do 2 (split; [done|]).
  by rewrite !dom_insert_L.
Qed.

Lemma regenerate_keeps_the_project_id_example :
  let first :=
    (handleGenerate (ui (world_of example_state)) obliging
       (world_of example_state)).2 in
  let second := (handleGenerate (ui first) obliging first).2 in
  ∃ pid saved1 saved2,
    currentProjectId (ui first) = Some pid
    ∧ currentProjectId (ui second) = Some pid
    ∧ projects first = <[pid := saved1]> (projects (world_of example_state))
    ∧ projects second = <[pid := saved2]> (projects (world_of example_state))
    ∧ ProjectHistory.generatedShots saved2 = generatedShots (ui second)
    ∧ dom (projects second) = dom (projects first).
Proof.
  apply (regenerate_keeps_the_project_id obliging (world_of example_state));
    reflexivity.
Defined.

(** ** The history drawer *)

#[local] Instance by_date_total : Total by_date.
Proof.
  intros p1 p2. unfold by_date.
  destruct (Z.lt_trichotomy (ProjectHistory.timestamp p1)
              (ProjectHistory.timestamp p2)) as [?|[Heq|?]]; [tauto| |tauto].
  destruct (String.leb_total (ProjectHistory.id p1) (ProjectHistory.id p2));
    [left|right]; right; split; congruence.
Qed.

(** The index lists the records of the store, oldest first. *)
Lemma getAllFromIndex_by_date_sorted (store : gmap string ProjectHistory) :
  getAllFromIndex_by_date store ≡ₚ map snd (map_to_list store)
  ∧ StronglySorted
      (λ p q, ProjectHistory.timestamp p ≤ ProjectHistory.timestamp q)
      (getAllFromIndex_by_date store).
Proof.
  unfold getAllFromIndex_by_date. split; [apply merge_sort_Permutation|].
  apply Sorted_StronglySorted; [intros p q s; lia|].
  pose proof (Sorted_merge_sort by_date (map snd (map_to_list store))) as Hs.
  induction Hs as [|p l _ IH Hhd]; constructor; [done|].
  destruct Hhd as [|q l Hpq]; constructor.
  unfold by_date in Hpq. lia.
Qed.

Lemma reverse_newest_first (l : list ProjectHistory) :
  StronglySorted
    (λ p q, ProjectHistory.timestamp p ≤ ProjectHistory.timestamp q) l →
  StronglySorted
    (λ p q, ProjectHistory.timestamp q ≤ ProjectHistory.timestamp p)
    (reverse l).
Proof.
  intros Hs. apply Sorted_StronglySorted; [intros p q s; lia|].
  apply StronglySorted_Sorted in Hs.
  by apply Sorted_reverse in Hs.
Qed.

Lemma getAllProjects_run env w :
  getAllProjects env w
  = (Returned (if idb_ok env (idb_uses w)
               then reverse (getAllFromIndex_by_date (projects w))
               else []),
     after_failed_use w).
Proof.
  unfold getAllProjects, try_catch, after_failed_use.
  by destruct (idb_ok env (idb_uses w)).
Qed.

(** [getAllProjects] never raises and changes nothing but the count of
    the uses of the database.  With the database at hand it lists every
    record of the store once, newest first: no project comes before one
    with a larger timestamp.  Without it the list is empty, as for a
    store that holds nothing. *)
Theorem getAllProjects_newest_first env w :
  ∃ listed,
    getAllProjects env w = (Returned listed, after_failed_use w)
    ∧ StronglySorted
        (λ p q, ProjectHistory.timestamp q ≤ ProjectHistory.timestamp p)
        listed
    ∧ (if idb_ok env (idb_uses w)
       then listed ≡ₚ map snd (map_to_list (projects w))
       else listed = []).
Proof.
  rewrite getAllProjects_run.
  destruct (idb_ok env (idb_uses w)); eexists; (split; [reflexivity|]).
  - destruct (getAllFromIndex_by_date_sorted (projects w)) as [Hp Hs].
    split; [by apply reverse_newest_first|].
    by rewrite reverse_Permutation.
  - split; [constructor|done].
Qed.

(** Deleting from the drawer: when the user confirms, the list shown
    afterwards is the store without the record of that key, provided the
    database could be used for the deletion; when it could not, the
    deletion is dropped without a sign and the record is listed as
    before.  When the user declines, nothing is touched. *)
Theorem handleDelete_lists_the_rest key env w :
  idb_ok env (S (idb_uses w)) = true →
  (∃ listed w',
     handleDelete true key env w = (Returned (Some listed), w')
     ∧ listed ≡ₚ map snd (map_to_list (projects w'))
     ∧ projects w'
       = (if idb_ok env (idb_uses w) then delete key (projects w)
          else projects w)
     ∧ (idb_ok env (idb_uses w) = true →
        ∀ p, p ∈ listed ↔ ∃ k, k ≠ key ∧ projects w !! k = Some p))
  ∧ handleDelete false key env w = (Returned None, w).
Proof.
  intros Hok2. split; [|done].
  unfold handleDelete, fetchProjects, bind.
  rewrite deleteProject_run.
  set (w1 := if idb_ok env (idb_uses w) then _ else _).
  assert (idb_uses w1 = S (idb_uses w)
          ∧ projects w1 = (if idb_ok env (idb_uses w)
                           then delete key (projects w) else projects w))
    as [Hidb Hproj].
  { subst w1. by destruct (idb_ok env (idb_uses w)). }
  rewrite getAllProjects_run, Hidb, Hok2. unfold ret.
  eexists _, _. split; [reflexivity|].
  cbn [projects after_failed_use].
  destruct (getAllFromIndex_by_date_sorted (projects w1)) as [Hperm _].
  split; [by rewrite reverse_Permutation|]. split; [done|].
  intros Hok1 p. rewrite reverse_Permutation, Hperm, Hproj, Hok1.
  change (map snd ?l) with (snd <$> l).
  rewrite list_elem_of_fmap. split.
  - intros ([k q] & -> & Hin). apply elem_of_map_to_list in Hin.
    apply lookup_delete_Some in Hin as [Hne Hin]. by exists k.
  - intros (k & Hne & Hin). exists (k, p). split; [done|].
    apply elem_of_map_to_list. by apply lookup_delete_Some.
Qed.

Lemma handleDelete_lists_the_rest_example :
  (∃ listed w',
     handleDelete true "1700000000000" obliging settled_world
     = (Returned (Some listed), w')
     ∧ listed ≡ₚ map snd (map_to_list (projects w'))
     ∧ projects w'
       = (if idb_ok obliging (idb_uses settled_world)
          then delete "1700000000000" (projects settled_world)
          else projects settled_world)
     ∧ (idb_ok obliging (idb_uses settled_world) = true →
        ∀ p, p ∈ listed
             ↔ ∃ k, k ≠ "1700000000000"
                    ∧ projects settled_world !! k = Some p))
  ∧ handleDelete false "1700000000000" obliging settled_world
    = (Returned None, settled_world).
Proof.
  apply (handleDelete_lists_the_rest "1700000000000" obliging settled_world).
  reflexivity.
Defined.

(** ** Selection and download *)

(** What the settlements of the queued tasks preserve, the queue
    preserves. *)
Lemma processQueue_invariant (P : Shots → Prop) r src
    (queue : list ProductStyle) :
  (∀ type url prev, type ∈ queue → P prev → P (settle_success type url prev)) →
  (∀ type prev, type ∈ queue → P prev →
                P (settle_failure "Failed to generate" type prev)) →
  ∀ env w,
    P (generatedShots (ui w)) →
    P (generatedShots (ui (processQueue r src queue env w).2)).
Proof.
  induction queue as [|type rest IH]; intros Hs Hf env w HP.
  - by rewrite processQueue_equation_1.
  - rewrite processQueue_equation_2. unfold CONCURRENCY.
    cbn [take drop]. rewrite take_0, drop_0.
    cbn [run_chunk]. unfold bind at 1. unfold bind at 1.
    destruct (run_task_effect r src type env w)
      as (w1 & -> & _ & Hshots & _).
    unfold ret at 1. unfold bind at 1.
    assert (P (generatedShots (ui w1))) as HP1.
    { destruct Hshots as [(url & _ & ->)| ->]; [apply Hs|apply Hf];
        try done; by left. }
    assert (∀ type', type' ∈ rest → type' ∈ type :: rest) as Hin
      by (intros; by right).
    destruct (decide (0 < length rest)%nat).
    + cbv [wait emit]. apply IH; eauto.
    + cbv [ret]. apply IH; eauto.
Qed.

Lemma settle_keeps_keys (type : ProductStyle) (prev next : Shots) :
  is_Some (prev !! type) →
  keyed_by_style prev →
  (∃ url, next = settle_success type url prev)
  ∨ (∃ text, next = settle_failure text type prev) →
  dom next = dom prev ∧ keyed_by_style next.
Proof.
  intros [old Hold] Hkeyed Hnext.
  assert (type ∈ dom prev) as Hdom by (apply elem_of_dom; eauto).
  destruct Hnext as [[url ->]|[text ->]];
    unfold settle_success, settle_failure; rewrite Hold; cbn [default];
    (split; [rewrite dom_insert_L; set_solver|]);
    intros style shot; (destruct (decide (style = type)) as [->|Hne];
      [rewrite lookup_insert_eq; intros [= <-]; cbn; by apply Hkeyed
      |rewrite lookup_insert_ne by done; apply Hkeyed]).
Qed.

(** With a project id given, saving leaves the component as it is. *)
Lemma saveToHistory_with_id_ui r shots (pid : string) env w :
  truthy_string (Some pid) = true →
  ui (saveToHistory r shots (Some pid) env w).2 = ui w.
Proof.
  intros Hpid. unfold saveToHistory.
  destruct (sourceImage r) as [[|c src]|]; try done.
  destruct pid as [|c' p]; [done|]. cbn [truthy_string].
  cbv [bind ret now modify_ui]. rewrite saveProject_run.
  cbn [idb_uses]. by destruct (idb_ok env (idb_uses w)).
Qed.

(** Select All after a run, then a bulk download: every active style is
    selected, and the shots handed to the zip writer are the entries that
    hold an image, among them the output of every task that succeeded;
    the entry of a failed task, which holds no image, is left out. *)
Theorem select_all_after_run_downloads_every_image env w :
  truthy_string (sourceImage (ui w)) = true →
  let finished := ui (handleGenerate (ui w) env w).2 in
  let selected := handleSelectAll finished finished in
  selectedShotIds selected = list_to_set (activeStyles (ui w))
  ∧ (∀ shot, shot ∈ shotsToDownload selected
             ↔ ∃ style, generatedShots finished !! style = Some shot
                        ∧ truthy_string (GeneratedImage.imageUrl shot) = true)
  ∧ (∀ style url,
       style ∈ activeStyles (ui w) →
       status_of (generatedShots finished !! style) = Succeeded url →
       ∃ shot, shot ∈ shotsToDownload selected
               ∧ GeneratedImage.imageUrl shot = Some url).
Proof.
  intros Hsrc. cbv zeta.
  destruct (handleGenerate_stages (ui w) env w Hsrc)
    as (pid & w1 & w2 & res & w3 & Hbegin & Hpid & Hqueue & Hsave & ->).
  destruct (handleGenerate_begin_run (ui w) env w)
    as (pid' & w1' & Hbegin' & Hdom1 & Hloading & _ & _ & Hsub1 & _).
  rewrite Hbegin in Hbegin'. injection Hbegin' as <- <-.
  destruct (activeStyles_catalog (ui w)) as (Hnodup & _ & _).
  destruct (processQueue_settles (ui w) (default "" (sourceImage (ui w)))
              (activeStyles (ui w)) env w1 Hnodup)
    as (w2' & Hqueue' & Hui2 & _).
  { intros style Hin. destruct (Hloading style Hin) as (shot & -> & Hshot).
    destruct Hshot as (_ & _ & _ & Herr & _). exact Herr. }
  rewrite Hqueue in Hqueue'. injection Hqueue' as <-.
  pose proof (processQueue_invariant
                (λ shots, dom shots = list_to_set (activeStyles (ui w))
                          ∧ keyed_by_style shots)
                (ui w) (default "" (sourceImage (ui w)))
                (activeStyles (ui w))) as Hinv.
  specialize (Hinv
    ltac:(intros type url prev Hin [Hd Hk];
          destruct (settle_keeps_keys type prev (settle_success type url prev))
            as [Hd' Hk']; [apply elem_of_dom; rewrite Hd; set_solver|done
                          |left; eauto|]; split; [by rewrite Hd'|done])
    ltac:(intros type prev Hin [Hd Hk];
          destruct (settle_keeps_keys type prev
                      (settle_failure "Failed to generate" type prev))
            as [Hd' Hk']; [apply elem_of_dom; rewrite Hd; set_solver|done
                          |right; eauto|]; split; [by rewrite Hd'|done])
    env w1).
  rewrite Hqueue in Hinv. cbn [snd] in Hinv.
  destruct Hinv as [Hdom2 Hkeyed2].
  { split; [done|]. intros style shot Hlook.
    assert (style ∈ activeStyles (ui w)) as Hin.
    { apply (elem_of_list_to_set (C := gset ProductStyle)).
      rewrite <- Hdom1. apply elem_of_dom. eauto. }
    destruct (Hloading style Hin) as (shot' & Hlook' & Htype & _).
    congruence. }
  assert (ui w3 = ui w2) as Hui3.
  { pose proof (saveToHistory_with_id_ui (ui w) (generatedShots (ui w2)) pid
                  env w2 Hpid) as Hui.
    by rewrite Hsave in Hui. }
  cbn [snd ui]. rewrite Hui3.
  set (finished := setIsGenerating false (ui w2)).
  assert (generatedShots finished = generatedShots (ui w2)) as Hshots
    by done.
  assert (activeStyles finished = activeStyles (ui w)) as Hactive.
  { unfold activeStyles. subst finished. cbn [subjectType setIsGenerating].
    rewrite Hui2. cbn [subjectType setGeneratedShots]. by rewrite Hsub1. }
  assert (selectedShotIds (handleSelectAll finished finished)
          = list_to_set (activeStyles (ui w))) as Hsel.
  { unfold handleSelectAll. cbn [selectedShotIds setSelectedShotIds].
    rewrite Hshots, Hactive, Hdom2. apply set_eq. intros style.
    rewrite elem_of_list_to_set, list_elem_of_filter, elem_of_elements,
      Array_includes_elem_of, elem_of_list_to_set. tauto. }
  split; [done|].
  assert (∀ shot, shot ∈ shotsToDownload (handleSelectAll finished finished)
             ↔ ∃ style, generatedShots finished !! style = Some shot
                        ∧ truthy_string (GeneratedImage.imageUrl shot) = true)
    as Hdown.
  { intros shot. unfold shotsToDownload.
    change (generatedShots (handleSelectAll finished finished))
      with (generatedShots finished).
    rewrite list_elem_of_filter.
    change (map snd ?l) with (snd <$> l). rewrite list_elem_of_fmap.
    unfold to_download. rewrite Hsel. split.
    - intros [Hto ([style shot'] & -> & Hin)].
      apply elem_of_map_to_list in Hin. exists style. split; [done|].
      cbn [snd] in Hto. by apply andb_prop in Hto as [_ ?].
    - intros (style & Hlook & Himage). split.
      + rewrite (Hkeyed2 style shot) by (by rewrite <- Hshots).
        rewrite Himage, andb_true_r. apply bool_decide_eq_true.
        rewrite <- Hdom2, <- Hshots. apply elem_of_dom. eauto.
      + exists (style, shot). split; [done|]. by apply elem_of_map_to_list. }
  split; [done|].
  intros style url Hin Hstatus.
  destruct (generatedShots finished !! style) as [shot|] eqn:Hlook;
    [|done].
  exists shot. unfold status_of in Hstatus.
  destruct (default false (GeneratedImage.isLoading shot)); [done|].
  destruct (truthy_string (GeneratedImage.error shot)); [done|].
  destruct (truthy_string (GeneratedImage.imageUrl shot)) eqn:Himage;
    [|done].
  injection Hstatus as <-. split.
  - apply Hdown. eauto.
  - by destruct (GeneratedImage.imageUrl shot) as [[]|].
Qed.

Lemma select_all_after_run_downloads_every_image_example :
  let finished :=
    ui (handleGenerate (ui (world_of example_state)) obliging
          (world_of example_state)).2 in
  let selected := handleSelectAll finished finished in
  selectedShotIds selected
  = list_to_set (activeStyles (ui (world_of example_state)))
  ∧ (∀ shot, shot ∈ shotsToDownload selected
             ↔ ∃ style, generatedShots finished !! style = Some shot
                        ∧ truthy_string (GeneratedImage.imageUrl shot) = true)
  ∧ (∀ style url,
       style ∈ activeStyles (ui (world_of example_state)) →
       status_of (generatedShots finished !! style) = Succeeded url →
       ∃ shot, shot ∈ shotsToDownload selected
               ∧ GeneratedImage.imageUrl shot = Some url).
Proof.
  apply (select_all_after_run_downloads_every_image obliging
           (world_of example_state)).
  reflexivity.
Defined.

(** ** A new image *)

Lemma or_else_truthy (v : option Json) (d : Json) :
  truthy (Some d) = true → truthy (Some (or_else v d)) = true.
Proof.
  intros Hd. unfold or_else. destruct v as [x|]; [|done].
  by destruct (truthy (Some x)) eqn:Hx.
Qed.

(** The confidence of the descriptor tells the two outcomes of the
    analysis apart: it is falsy exactly when the analysis failed, since a
    parsed document without a truthy confidence is given 0.8.  The name,
    the description and the category are truthy in both. *)
Theorem analyzeProduct_confidence_tells_failure base64 env w :
  ∃ result,
    analyzeProduct base64 env w
    = (Returned result, after_analysis_call base64 w)
    ∧ truthy (Some (ProductAnalysisResult.confidence result))
      = negb (analysis_fails env (calls w))
    ∧ truthy (Some (ProductAnalysisResult.productName result)) = true
    ∧ truthy (Some (ProductAnalysisResult.description result)) = true
    ∧ truthy (Some (ProductAnalysisResult.category result)) = true.
Proof.
  unfold analyzeProduct, analysis_fails, jsonStr_of.
  unfold try_catch at 1. unfold bind, call_generateContent.
  destruct (generateContent env (calls w)) as [response|e]; simpl;
    [|by eexists].
  unfold try_catch, parse_analysis, ret.
  destruct (JSON_parse env _) as [[]|]; simpl;
    (eexists; split; [reflexivity|]); cbn -[truthy or_else];
    repeat split; try done; by apply or_else_truthy.
Qed.

(** Selecting an image always ends, with one call of the backend and the
    store untouched, in the state of a new project: the image is the
    source, there are no shots and no selection, no project id, detection
    is over, and the mode is PRODUCT whatever the analysis says of the
    subject.  A framing warning is shown only for an analysis that did
    not fail. *)
Theorem handleImageSelect_starts_a_new_project base64 env w :
  ∃ w',
    handleImageSelect base64 env w = (Returned (), w')
    ∧ sourceImage (ui w') = Some base64
    ∧ generatedShots (ui w') = ∅
    ∧ selectedShotIds (ui w') = ∅
    ∧ currentProjectId (ui w') = None
    ∧ subjectType (ui w') = PRODUCT
    ∧ isDetecting (ui w') = false
    ∧ isGenerating (ui w') = isGenerating (ui w)
    ∧ aspectRatio (ui w') = aspectRatio (ui w)
    ∧ calls w' = S (calls w)
    ∧ projects w' = projects w
    ∧ (detectionWarning (ui w') ≠ None →
       analysis_fails env (calls w) = false).
Proof.
  unfold handleImageSelect, bind, modify_ui, try_catch.
  cbn [ui calls clock_reads idb_uses projects trace].
  match goal with
  | |- context [analyzeProduct base64 env ?w0] => set (w0' := w0)
  end.
  destruct (analyzeProduct_default_world base64 env w0') as (res & Hrun).
  pose proof (analyzeProduct_default base64 env w0') as Hdefault.
  rewrite Hrun in *. cbn [fst snd ui after_analysis_call].
  eexists. split; [reflexivity|].
  cbn [ui calls projects after_analysis_call].
  assert (∀ st,
            sourceImage (apply_analysis res st) = sourceImage st
            ∧ generatedShots (apply_analysis res st) = generatedShots st
            ∧ selectedShotIds (apply_analysis res st) = selectedShotIds st
            ∧ currentProjectId (apply_analysis res st) = currentProjectId st
            ∧ subjectType (apply_analysis res st) = subjectType st
            ∧ isGenerating (apply_analysis res st) = isGenerating st
            ∧ aspectRatio (apply_analysis res st) = aspectRatio st) as Hkeeps.
  { intros st. unfold apply_analysis.
    destruct (truthy (ProductAnalysisResult.isHuman res)); [|done].
    repeat (match goal with
            | |- context [json_is ?a ?b] => destruct (json_is a b)
            end); done. }
  cbn [sourceImage generatedShots selectedShotIds currentProjectId
       subjectType isDetecting isGenerating aspectRatio detectionWarning
       setIsDetecting].
  destruct (Hkeeps (ui w0')) as (-> & -> & -> & -> & -> & -> & ->).
  do 10 (split; [done|]).
  intros Hwarn. destruct (analysis_fails env (calls w)) eqn:Hfails; [|done].
  destruct (Hdefault Hfails) as [[= ->] _]. by destruct Hwarn.
Qed.

(** ** The selection *)

(** A click on the checkbox of a card changes the membership of that
    style and of no other, and a second click, on the page rendered after
    the first, gives back the selection there was. *)
Theorem toggleShotSelection_flips_one r type st :
  let once := toggleShotSelection r type st in
  (type ∈ selectedShotIds once ↔ type ∉ selectedShotIds r)
  ∧ (∀ other, other ≠ type →
       (other ∈ selectedShotIds once ↔ other ∈ selectedShotIds r))
  ∧ selectedShotIds (toggleShotSelection once type once) = selectedShotIds r.
Proof.
  cbv zeta. unfold toggleShotSelection.
  cbn [selectedShotIds setSelectedShotIds].
  destruct (decide (type ∈ selectedShotIds r)) as [Hin|Hnin].
  - split; [set_solver|]. split; [set_solver|].
    destruct (decide (type ∈ selectedShotIds r ∖ {[type]})); [set_solver|].
    apply set_eq. intros x. destruct (decide (x = type)); set_solver.
  - split; [set_solver|]. split; [set_solver|].
    destruct (decide (type ∈ selectedShotIds r ∪ {[type]})); set_solver.
Qed.

(** ** What the page offers during a run *)

(** While a run is under way and its entries are shown, the page offers
    neither New nor a button that starts a run.  A change of mode empties
    the shots while the run goes on; the page rendered then offers
    Generate Campaign again, although a run is still marked as under way.
    Choosing the mode there is leaves everything as it is. *)
Theorem mode_change_offers_generate_during_run (type : SubjectType) env w :
  truthy_string (sourceImage (ui w)) = true →
  isGenerating (ui w) = true →
  isDetecting (ui w) = false →
  hasGeneratedShots (ui w) = true →
  offers_new (ui w) = false
  ∧ offers_generate (ui w) = false
  ∧ ∃ w',
      onSelect (ui w) type env w = (Returned (), w')
      ∧ isGenerating (ui w') = true
      ∧ (type ≠ subjectType (ui w) →
         generatedShots (ui w') = ∅ ∧ offers_generate (ui w') = true
         ∧ offers_new (ui w') = false)
      ∧ (type = subjectType (ui w) → w' = w).
Proof.
  intros Hsrc Hgen Hdet Hhas.
  unfold offers_new, offers_generate. rewrite Hsrc, Hgen, Hhas.
  do 2 (split; [done|]).
  unfold onSelect, bind, modify_ui.
  destruct (decide (type ≠ subjectType (ui w))) as [Hne|Heq].
  - eexists. split; [reflexivity|]. cbn [ui]. split; [done|].
    split; [|done]. intros _. split; [done|].
    unfold offers_generate, offers_new, hasGeneratedShots.
    cbn [sourceImage isGenerating isDetecting generatedShots
         setGeneratedShots setSubjectType].
    rewrite Hsrc, Hgen, Hdet. done.
  - apply dec_stable in Heq. subst type. eexists. split; [reflexivity|].
    cbn [ui ret snd]. split; [done|]. split; [done|]. intros _.
    destruct w as [[] ? ? ? ? ?]. done.
Qed.

Lemma mode_change_offers_generate_during_run_to_human :
  let w := (handleGenerate_begin example_state obliging
              (world_of example_state)).2 in
  offers_new (ui w) = false
  ∧ offers_generate (ui w) = false
  ∧ ∃ w',
      onSelect (ui w) HUMAN obliging w = (Returned (), w')
      ∧ isGenerating (ui w') = true
      ∧ (HUMAN ≠ subjectType (ui w) →
         generatedShots (ui w') = ∅ ∧ offers_generate (ui w') = true
         ∧ offers_new (ui w') = false)
      ∧ (HUMAN = subjectType (ui w) → w' = w).
Proof.
  apply (mode_change_offers_generate_during_run HUMAN obliging
           (handleGenerate_begin example_state obliging
              (world_of example_state)).2);
    reflexivity.
Defined.

(** ** Starting over *)

(** New brings the component back to the state of a freshly mounted one,
    except for the aspect ratio, the shot shown in the modal and the
    detection flag, which it leaves as they are; the upload area is what
    the page shows then. *)
Theorem handleReset_keeps_the_aspect_ratio (st : AppState) :
  handleReset st
  = setIsDetecting (isDetecting st)
      (setSelectedShot (selectedShot st)
         (setAspectRatio (aspectRatio st) initial_state))
  ∧ offers_upload (handleReset st) = true
  ∧ offers_generate (handleReset st) = false.
Proof. by destruct st. Qed.

(** ** The catalog *)

(** Every style belongs to exactly one of the two catalogs, each of nine
    styles, and is the id of its own definition, whatever subject type is
    passed; the placeholder of the product name occurs in the template of
    every product style and in that of no human style. *)
Theorem catalog_partitions_the_styles (style : ProductStyle)
    (subject : SubjectType) :
  (style ∈ PRODUCT_STYLES ↔ style ∉ HUMAN_STYLES)
  ∧ length PRODUCT_STYLES = 9%nat ∧ length HUMAN_STYLES = 9%nat
  ∧ ShotDefinition.id (getShotDefinition style subject) = style
  ∧ String_includes "[PRODUCT]"
      (ShotDefinition.promptTemplate (getShotDefinition style subject))
    = negb (Array_includes HUMAN_STYLES style).
Proof.
  split.
  { rewrite <- !Array_includes_elem_of.
    destruct style; vm_compute; split; congruence. }
  do 2 (split; [done|]).
  split; [by destruct style|].
  destruct style; vm_compute; reflexivity.
Qed.
